(** * fund_crawler: catalog discovery, history decoding and the InfluxDB sink

    A shallow embedding of [cmd/fund_crawler/main.go] and the properties of
    its fetch, parse, build and sink pipeline.

    - Go strings are byte sequences and are modelled by [string], one
      [ascii] per byte; Go [int] values are modelled by [Z]; a slice
      expression out of range is a panic.
    - The functions of the Go standard library that the parsers rest on
      are modelled in the modules [strings] and [json]: searching,
      trimming and splitting, and the JSON decoder with its scanner.
    - The package-level clients, the logger, the clock and the random
      source are modelled by an explicit [World] that is threaded through
      every function that performs I/O, and by the record [Externals] of
      the collaborators whose answers the program only passes on: the HTTP
      transport, the URL, date and number parsers, and the InfluxDB
      client.
    - Each function of the program keeps its name; a loop is a recursive
      function named after the function that contains it. *)

From Stdlib Require Import ZArith Ascii String List Bool Lia DecimalString.
From stdpp Require Import base option list strings gmap.

Local Open Scope Z_scope.

(** ** Go string primitives used by the crawler *)

Module strings.

(** [len(s)] *)
Definition len (s : string) : Z := Z.of_nat (String.length s).

(** [s[lo:hi]]; [None] is the run-time panic "slice bounds out of range". *)
Definition slice (s : string) (lo hi : Z) : option string :=
  if (0 <=? lo) && (lo <=? hi) && (hi <=? len s)
  then Some (String.substring (Z.to_nat lo) (Z.to_nat (hi - lo)) s)
  else None.

(** [s[lo:]] *)
Definition slice_from (s : string) (lo : Z) : option string :=
  slice s lo (len s).

(** [strings.Index(s, substr)]: byte offset of the first occurrence, or -1. *)
Fixpoint Index (s substr : string) : Z :=
  if String.prefix substr s then 0
  else match s with
       | EmptyString => -1
       | String _ s' => let i := Index s' substr in
                        if i <? 0 then -1 else i + 1
       end.

(** The six ASCII members of [unicode.IsSpace]. *)
Definition asciiSpace (c : ascii) : bool :=
  match c with
  | "009" | "010" | "011" | "012" | "013" | " " => true
  | _ => false
  end%char.

(** Second byte of a two-byte white-space rune whose first byte is 0xC2:
    U+0085 and U+00A0. *)
Definition space2 (b : ascii) : bool :=
  match b with "133" | "160" => true | _ => false end%char.

(** A three-byte white-space rune: U+1680, U+2000..U+200A, U+2028, U+2029,
    U+202F, U+205F, U+3000. *)
Definition space3 (a b c : ascii) : bool :=
  match a, b with
  | "225", "154" => Ascii.eqb c "128"
  | "226", "128" =>
      let n := N_of_ascii c in
      ((128 <=? n)%N && (n <=? 138)%N)
      || Ascii.eqb c "168" || Ascii.eqb c "169" || Ascii.eqb c "175"
  | "226", "129" => Ascii.eqb c "159"
  | "227", "128" => Ascii.eqb c "128"
  | _, _ => false
  end%char.

(** [strings.TrimLeftFunc(s, unicode.IsSpace)] on the UTF-8 bytes of [s]. *)
Fixpoint trimLeftSpace (s : string) : string :=
  match s with
  | EmptyString => s
  | String a s1 =>
      if asciiSpace a then trimLeftSpace s1
      else match s1 with
           | EmptyString => s
           | String b s2 =>
               if Ascii.eqb a "194" && space2 b then trimLeftSpace s2
               else match s2 with
                    | EmptyString => s
                    | String c s3 =>
                        if space3 a b c then trimLeftSpace s3 else s
                    end
           end
  end.

(** The same scan on the reversed bytes: a white-space rune at the end of
    the string is read last byte first. *)
Fixpoint trimLeftSpaceRev (s : string) : string :=
  match s with
  | EmptyString => s
  | String a s1 =>
      if asciiSpace a then trimLeftSpaceRev s1
      else match s1 with
           | EmptyString => s
           | String b s2 =>
               if Ascii.eqb b "194" && space2 a then trimLeftSpaceRev s2
               else match s2 with
                    | EmptyString => s
                    | String c s3 =>
                        if space3 c b a then trimLeftSpaceRev s3 else s
                    end
           end
  end.

(** [strings.TrimSpace(s)] *)
Definition TrimSpace (s : string) : string :=
  String.rev (trimLeftSpaceRev (String.rev (trimLeftSpace s))).

(** Byte membership in an ASCII cutset. *)
Fixpoint inCutset (cutset : string) (c : ascii) : bool :=
  match cutset with
  | EmptyString => false
  | String d rest => Ascii.eqb c d || inCutset rest c
  end.

Fixpoint trimLeftCutset (cutset s : string) : string :=
  match s with
  | EmptyString => s
  | String a s' => if inCutset cutset a then trimLeftCutset cutset s' else s
  end.

(** [strings.Trim(s, cutset)] for a cutset of ASCII bytes. *)
Definition Trim (s cutset : string) : string :=
  String.rev (trimLeftCutset cutset (String.rev (trimLeftCutset cutset s))).

(** The loop of [genSplit]: at most [n] cuts, stopping at the first
    failed search. *)
Fixpoint genSplit (n : nat) (s sep : string) : list string :=
  match n with
  | O => [s]
  | S n' =>
      let m := Index s sep in
      if m <? 0 then [s]
      else String.substring 0 (Z.to_nat m) s
           :: genSplit n' (String.substring (Z.to_nat (m + len sep))
                             (String.length s) s) sep
  end.

(** [strings.Split(s, sep)] for a non-empty separator.  The library bounds
    the number of pieces by [len(s)+1]; the search failing ends the loop
    earlier. *)
Definition Split (s sep : string) : list string :=
  genSplit (String.length s) s sep.

End strings.

(** Test data is written with apostrophes where the payload has double
    quotes; [quoted] puts the double quotes back. *)
Fixpoint quoted (s : string) : string :=
  match s with
  | EmptyString => EmptyString
  | String c s' =>
      String (if Ascii.eqb c "'" then "034"%char else c) (quoted s')
  end.

(** ** Data model *)

Record FundNode := {
  Code : string;
  Abridge : string;
  Name : string;
  Type_ : string;
  Pinyin : string
}.

Record FundDetail := {
  FSRQ : string;
  DWJZ : string;
  LJJZ : string;
  SDATE : string;
  ACTUALSYI : string;
  NAVTYPE : string;
  JZZZL : string;
  SGZT : string;
  SHZT : string;
  FHFCZ : string;
  FHFCBZ : string;
  DTYPE : string;
  FHSP : string
}.

Record FundDetails := {
  LSJZList : list FundDetail;
  FundType : string;
  SYType : string;
  isNewType : bool;
  Feature : string
}.

Record FundInfo := {
  Data : FundDetails;
  ErrCode : Z;
  ErrMsg : string;
  TotalCount : Z;
  Expansion : string;
  PageSize : Z;
  PageIndex : Z
}.

(** Go zero values: [FundNode{}], [FundDetail{}], [FundDetails{}],
    [FundInfo{}]. *)
Definition zeroFundNode : FundNode :=
  {| Code := ""; Abridge := ""; Name := ""; Type_ := ""; Pinyin := "" |}.

Definition zeroFundDetail : FundDetail :=
  {| FSRQ := ""; DWJZ := ""; LJJZ := ""; SDATE := ""; ACTUALSYI := "";
     NAVTYPE := ""; JZZZL := ""; SGZT := ""; SHZT := ""; FHFCZ := "";
     FHFCBZ := ""; DTYPE := ""; FHSP := "" |}.

Definition zeroFundDetails : FundDetails :=
  {| LSJZList := []; FundType := ""; SYType := ""; isNewType := false;
     Feature := "" |}.

Definition zeroFundInfo : FundInfo :=
  {| Data := zeroFundDetails; ErrCode := 0; ErrMsg := ""; TotalCount := 0;
     Expansion := ""; PageSize := 0; PageIndex := 0 |}.

(** ** Errors

    Every [error] value the crawler creates or passes on.  The errors made
    with [fmt.Errorf] keep the arguments of their format string. *)

Inductive error : Type :=
  (** ["empty fund code"] *)
  | EmptyFundCode
  (** ["invalid response body"] *)
  | InvalidResponseBody
  (** ["http get error, err=[%v], url=[%s]"] *)
  | HttpGetError (err : error) (url : string)
  (** ["http code error, code=[%d], url=[%s]"] *)
  | HttpCodeError (code : Z) (url : string)
  (** ["fund info error, code=[%d], msg=[%s], index=[%d], size=[%d]"] *)
  | FundInfoError (code : Z) (msg : string) (index size : Z)
  (** [*json.SyntaxError]: "invalid character c context", at byte [offset] *)
  | SyntaxError (c : ascii) (context : string) (offset : Z)
  (** [*json.UnmarshalTypeError]: JSON value [value] does not fit Go type [ty] *)
  | UnmarshalTypeError (value : string) (ty : string)
  (** [io.EOF] and [io.ErrUnexpectedEOF] *)
  | EOF
  | ErrUnexpectedEOF
  (** an error made by a collaborator outside this program (transport, URL
      parser, date parser, number parser, InfluxDB client) *)
  | External (msg : string).

(** A Go [(T, error)] result of which at most the value or the error is
    meaningful. *)
Inductive result (A : Type) : Type :=
  | Ok (a : A)
  | Err (e : error).
Arguments Ok {A} a.
Arguments Err {A} e.

(** ** encoding/json: the scanner

    [json.Decoder.Decode] first delimits the next JSON value of its input
    with the byte-driven state machine of the package's scanner, then
    unmarshals exactly those bytes.  The states, the parse stack and the
    opcodes below are the scanner's. *)

Module json.

Inductive opcode :=
  | scanContinue | scanBeginLiteral | scanBeginObject | scanObjectKey
  | scanObjectValue | scanEndObject | scanBeginArray | scanArrayValue
  | scanEndArray | scanSkipSpace | scanEnd | scanError.

Inductive parseKind := parseObjectKey | parseObjectValue | parseArrayValue.

Inductive state :=
  | stateBeginValueOrEmpty | stateBeginValue | stateBeginStringOrEmpty
  | stateBeginString | stateEndValue | stateEndTop
  | stateInString | stateInStringEsc | stateInStringEscU
  | stateInStringEscU1 | stateInStringEscU12 | stateInStringEscU123
  | stateNeg | state1 | state0 | stateDot | stateDot0
  | stateE | stateESign | stateE0
  | stateT | stateTr | stateTru
  | stateF | stateFa | stateFal | stateFals
  | stateN | stateNu | stateNul
  | stateError.

(** The top of the parse stack is the head of [parseState]. *)
Record scanner := {
  step : state;
  endTop : bool;
  parseState : list parseKind;
  err : option error;
  bytes : Z
}.

Definition maxNestingDepth : Z := 10000.

(** [scanner.reset] *)
Definition reset : scanner :=
  {| step := stateBeginValue; endTop := false; parseState := [];
     err := None; bytes := 0 |}.

Definition setStep (s : scanner) (st : state) : scanner :=
  {| step := st; endTop := endTop s; parseState := parseState s;
     err := err s; bytes := bytes s |}.

Definition setParseState (s : scanner) (ps : list parseKind) : scanner :=
  {| step := step s; endTop := endTop s; parseState := ps;
     err := err s; bytes := bytes s |}.

(** [scanner.error] *)
Definition error_ (s : scanner) (c : ascii) (context : string)
  : scanner * opcode :=
  ({| step := stateError; endTop := endTop s; parseState := parseState s;
      err := Some (SyntaxError c context (bytes s)); bytes := bytes s |},
   scanError).

Definition isSpace (c : ascii) : bool :=
  match c with
  | " " | "009" | "013" | "010" => true
  | _ => false
  end%char.

Definition isDigit (c : ascii) : bool :=
  let n := N_of_ascii c in ((48 <=? n) && (n <=? 57))%N.

Definition isDigit19 (c : ascii) : bool :=
  let n := N_of_ascii c in ((49 <=? n) && (n <=? 57))%N.

Definition isHex (c : ascii) : bool :=
  let n := N_of_ascii c in
  (((48 <=? n) && (n <=? 57)) || ((97 <=? n) && (n <=? 102))
   || ((65 <=? n) && (n <=? 70)))%N.

(** The one-letter escapes of a string literal. *)
Definition isEscape (c : ascii) : bool :=
  match c with
  | "b" | "f" | "n" | "r" | "t" | "\" | "/" | "034" => true
  | _ => false
  end%char.

(** [scanner.pushParseState] *)
Definition pushParseState (s : scanner) (c : ascii) (newParseState : parseKind)
    (successState : opcode) : scanner * opcode :=
  let s' := setParseState s (newParseState :: parseState s) in
  if Z.of_nat (length (parseState s')) <=? maxNestingDepth
  then (s', successState)
  else error_ s' c "exceeded max depth".

(** [scanner.popParseState] *)
Definition popParseState (s : scanner) : scanner :=
  let ps := tail (parseState s) in
  match ps with
  | [] => {| step := stateEndTop; endTop := true; parseState := ps;
             err := err s; bytes := bytes s |}
  | _ => {| step := stateEndValue; endTop := endTop s; parseState := ps;
            err := err s; bytes := bytes s |}
  end.

Definition do_stateEndTop (s : scanner) (c : ascii) : scanner * opcode :=
  if isSpace c then (s, scanEnd)
  else (fst (error_ s c "after top-level value"), scanEnd).

Definition do_stateEndValue (s : scanner) (c : ascii) : scanner * opcode :=
  match parseState s with
  | [] =>
      do_stateEndTop
        {| step := stateEndTop; endTop := true; parseState := [];
           err := err s; bytes := bytes s |} c
  | ps :: rest =>
      if isSpace c then (setStep s stateEndValue, scanSkipSpace)
      else match ps with
           | parseObjectKey =>
               if Ascii.eqb c ":"
               then (setStep (setParseState s (parseObjectValue :: rest))
                       stateBeginValue, scanObjectKey)
               else error_ s c "after object key"
           | parseObjectValue =>
               if Ascii.eqb c ","
               then (setStep (setParseState s (parseObjectKey :: rest))
                       stateBeginString, scanObjectValue)
               else if Ascii.eqb c "}"
               then (popParseState s, scanEndObject)
               else error_ s c "after object key:value pair"
           | parseArrayValue =>
               if Ascii.eqb c ","
               then (setStep s stateBeginValue, scanArrayValue)
               else if Ascii.eqb c "]"
               then (popParseState s, scanEndArray)
               else error_ s c "after array element"
           end
  end.

(** The state entered by the first byte of a literal. *)
Definition literalStart (c : ascii) : option state :=
  match c with
  | "034" => Some stateInString
  | "-" => Some stateNeg
  | "0" => Some state0
  | "t" => Some stateT
  | "f" => Some stateF
  | "n" => Some stateN
  | _ => if isDigit19 c then Some state1 else None
  end%char.

Definition do_stateBeginValue (s : scanner) (c : ascii) : scanner * opcode :=
  if isSpace c then (s, scanSkipSpace)
  else if Ascii.eqb c "{"
  then pushParseState (setStep s stateBeginStringOrEmpty) c
         parseObjectKey scanBeginObject
  else if Ascii.eqb c "["
  then pushParseState (setStep s stateBeginValueOrEmpty) c
         parseArrayValue scanBeginArray
  else match literalStart c with
       | Some st => (setStep s st, scanBeginLiteral)
       | None => error_ s c "looking for beginning of value"
       end.

Definition do_stateBeginString (s : scanner) (c : ascii) : scanner * opcode :=
  if isSpace c then (s, scanSkipSpace)
  else if Ascii.eqb c "034" then (setStep s stateInString, scanBeginLiteral)
  else error_ s c "looking for beginning of object key string".

Definition do_state0 (s : scanner) (c : ascii) : scanner * opcode :=
  if Ascii.eqb c "." then (setStep s stateDot, scanContinue)
  else if Ascii.eqb c "e" || Ascii.eqb c "E"
  then (setStep s stateE, scanContinue)
  else do_stateEndValue s c.

Definition do_stateESign (s : scanner) (c : ascii) : scanner * opcode :=
  if isDigit c then (setStep s stateE0, scanContinue)
  else error_ s c "in exponent of numeric literal".

(** One letter of the literals [true], [false], [null]. *)
Definition expect (s : scanner) (c want : ascii) (next : state)
    (context : string) : scanner * opcode :=
  if Ascii.eqb c want then (setStep s next, scanContinue)
  else error_ s c context.

Definition expectHex (s : scanner) (c : ascii) (next : state)
  : scanner * opcode :=
  if isHex c then (setStep s next, scanContinue)
  else error_ s c "in \u hexadecimal character escape".

(** [s.step(s, c)]: the transition selected by the current state. *)
Definition scan_step (s : scanner) (c : ascii) : scanner * opcode :=
  match step s with
  | stateBeginValueOrEmpty =>
      if isSpace c then (s, scanSkipSpace)
      else if Ascii.eqb c "]" then do_stateEndValue s c
      else do_stateBeginValue s c
  | stateBeginValue => do_stateBeginValue s c
  | stateBeginStringOrEmpty =>
      if isSpace c then (s, scanSkipSpace)
      else if Ascii.eqb c "}"
      then do_stateEndValue
             (setParseState s (parseObjectValue :: tail (parseState s))) c
      else do_stateBeginString s c
  | stateBeginString => do_stateBeginString s c
  | stateEndValue => do_stateEndValue s c
  | stateEndTop => do_stateEndTop s c
  | stateInString =>
      if Ascii.eqb c "034" then (setStep s stateEndValue, scanContinue)
      else if Ascii.eqb c "\" then (setStep s stateInStringEsc, scanContinue)
      else if (N_of_ascii c <? 32)%N then error_ s c "in string literal"
      else (s, scanContinue)
  | stateInStringEsc =>
      if isEscape c then (setStep s stateInString, scanContinue)
      else if Ascii.eqb c "u" then (setStep s stateInStringEscU, scanContinue)
      else error_ s c "in string escape code"
  | stateInStringEscU => expectHex s c stateInStringEscU1
  | stateInStringEscU1 => expectHex s c stateInStringEscU12
  | stateInStringEscU12 => expectHex s c stateInStringEscU123
  | stateInStringEscU123 => expectHex s c stateInString
  | stateNeg =>
      if Ascii.eqb c "0" then (setStep s state0, scanContinue)
      else if isDigit19 c then (setStep s state1, scanContinue)
      else error_ s c "in numeric literal"
  | state1 =>
      if isDigit c then (setStep s state1, scanContinue) else do_state0 s c
  | state0 => do_state0 s c
  | stateDot =>
      if isDigit c then (setStep s stateDot0, scanContinue)
      else error_ s c "after decimal point in numeric literal"
  | stateDot0 =>
      if isDigit c then (s, scanContinue)
      else if Ascii.eqb c "e" || Ascii.eqb c "E"
      then (setStep s stateE, scanContinue)
      else do_stateEndValue s c
  | stateE =>
      if Ascii.eqb c "+" || Ascii.eqb c "-"
      then (setStep s stateESign, scanContinue)
      else do_stateESign s c
  | stateESign => do_stateESign s c
  | stateE0 =>
      if isDigit c then (s, scanContinue) else do_stateEndValue s c
  | stateT => expect s c "r" stateTr "in literal true (expecting 'r')"
  | stateTr => expect s c "u" stateTru "in literal true (expecting 'u')"
  | stateTru => expect s c "e" stateEndValue "in literal true (expecting 'e')"
  | stateF => expect s c "a" stateFa "in literal false (expecting 'a')"
  | stateFa => expect s c "l" stateFal "in literal false (expecting 'l')"
  | stateFal => expect s c "s" stateFals "in literal false (expecting 's')"
  | stateFals => expect s c "e" stateEndValue "in literal false (expecting 'e')"
  | stateN => expect s c "u" stateNu "in literal null (expecting 'u')"
  | stateNu => expect s c "l" stateNul "in literal null (expecting 'l')"
  | stateNul => expect s c "l" stateEndValue "in literal null (expecting 'l')"
  | stateError => (s, scanError)
  end.

Definition addByte (s : scanner) : scanner :=
  {| step := step s; endTop := endTop s; parseState := parseState s;
     err := err s; bytes := bytes s + 1 |}.

Definition opcode_eqb (a b : opcode) : bool :=
  match a, b with
  | scanContinue, scanContinue | scanBeginLiteral, scanBeginLiteral
  | scanBeginObject, scanBeginObject | scanObjectKey, scanObjectKey
  | scanObjectValue, scanObjectValue | scanEndObject, scanEndObject
  | scanBeginArray, scanBeginArray | scanArrayValue, scanArrayValue
  | scanEndArray, scanEndArray | scanSkipSpace, scanSkipSpace
  | scanEnd, scanEnd | scanError, scanError => true
  | _, _ => false
  end.

(** [nonSpace(buf)] *)
Fixpoint nonSpace (b : string) : bool :=
  match b with
  | EmptyString => false
  | String c b' => negb (isSpace c) || nonSpace b'
  end.

(** The scan loop of [Decoder.readValue] over the unread input [buf];
    [seen] says whether a non-space byte was met, [scanp] counts the bytes
    consumed.  At the end of the input the scanner is offered a space. *)
Fixpoint readLoop (s : scanner) (seen : bool) (scanp : Z) (buf : string)
  : result Z :=
  match buf with
  | EmptyString =>
      if opcode_eqb (snd (scan_step s " ")) scanEnd then Ok scanp
      else if seen then Err ErrUnexpectedEOF else Err EOF
  | String c buf' =>
      let seen' := seen || negb (isSpace c) in
      let (s1, op) := scan_step (addByte s) c in
      match op with
      | scanEnd => Ok scanp
      | scanEndObject | scanEndArray =>
          let (s2, op2) := do_stateEndValue s1 " " in
          if opcode_eqb op2 scanEnd then Ok (scanp + 1)
          else readLoop s2 seen' (scanp + 1) buf'
      | scanError =>
          match err s1 with
          | Some e => Err e
          | None => Err (SyntaxError c "" (bytes s1))
          end
      | _ => readLoop s1 seen' (scanp + 1) buf'
      end
  end.

(** [Decoder.readValue] on a fresh decoder: the length of the first JSON
    value of [data], leading white space included. *)
Definition readValue (data : string) : result Z :=
  readLoop reset false 0 data.

(** *** encoding/json: from the delimited bytes to Go values

The decoder walks the delimited bytes with a second scanner and stores
each JSON value into the Go value it is aimed at.  Here the walk first
collects the JSON value as a tree, then [store*] functions put the tree
into the crawler's structs with the rules of [decodeState.object],
[decodeState.array] and [decodeState.literalStore].  String literals are
kept as their raw bytes, quotes included, until they are stored. *)

#[local] Unset Elimination Schemes.
Inductive value :=
  | Null
  | Bool (b : bool)
  | Number (lit : string)
  | Str (raw : string)
  | Array (items : list value)
  | Object (members : list (string * value)).
#[local] Set Elimination Schemes.

Inductive frame :=
  | FObj (members : list (string * value)) (key : option string)
  | FArr (items : list value).

(** Containers being read, innermost first; the bytes of the literal being
read, last byte first; the finished top-level value. *)
Record builder := {
  stack : list frame;
  lit : option string;
  top : option value
}.

Definition literalValue (item : string) : value :=
  match item with
  | String "034" _ => Str item
  | String "t" _ => Bool true
  | String "f" _ => Bool false
  | String "n" _ => Null
  | _ => Number item
  end.

(** A finished value goes to the innermost open container: as the pending
key of an object, as the value of its pending key, or as the next element
of an array. *)
Definition deliver (v : value) (b : builder) : builder :=
  match stack b with
  | [] => {| stack := []; lit := lit b; top := Some v |}
  | FObj ms None :: r =>
      {| stack := FObj ms (Some match v with Str raw => raw | _ => EmptyString end) :: r;
         lit := lit b; top := top b |}
  | FObj ms (Some k) :: r =>
      {| stack := FObj ((k, v) :: ms) None :: r; lit := lit b; top := top b |}
  | FArr vs :: r =>
      {| stack := FArr (v :: vs) :: r; lit := lit b; top := top b |}
  end.

Definition flush (b : builder) : builder :=
  match lit b with
  | Some l =>
      deliver (literalValue (String.rev l))
        {| stack := stack b; lit := None; top := top b |}
  | None => b
  end.

Definition push (f : frame) (b : builder) : builder :=
  {| stack := f :: stack b; lit := lit b; top := top b |}.

Definition close (b : builder) : builder :=
  match stack b with
  | FObj ms _ :: r =>
      deliver (Object (rev ms)) {| stack := r; lit := lit b; top := top b |}
  | FArr vs :: r =>
      deliver (Array (rev vs)) {| stack := r; lit := lit b; top := top b |}
  | [] => b
  end.

Definition build (b : builder) (c : ascii) (op : opcode) : builder :=
  match op with
  | scanBeginLiteral =>
      {| stack := stack b; lit := Some (String c EmptyString); top := top b |}
  | scanContinue =>
      match lit b with
      | Some l => {| stack := stack b; lit := Some (String c l); top := top b |}
      | None => b
      end
  | scanBeginObject => push (FObj [] None) (flush b)
  | scanBeginArray => push (FArr []) (flush b)
  | scanEndObject | scanEndArray => close (flush b)
  | _ => flush b
  end.

Fixpoint walk (s : scanner) (b : builder) (data : string) : builder :=
  match data with
  | EmptyString => flush b
  | String c data' =>
      let (s1, op) := scan_step (addByte s) c in
      walk s1 (build b c op) data'
  end.

(** The JSON value held by bytes that [readValue] delimited.  (On bytes
that hold no whole value the walk of the Go decoder panics; here they give
[Null].  The bytes [readValue] delimits after an opening brace do hold
one.) *)
Definition valueOf (data : string) : value :=
  match top (walk reset {| stack := []; lit := None; top := None |} data) with
  | Some v => v
  | None => Null
  end.

(** **** Strings: [unquote] *)

Definition inRange (lo hi : N) (c : ascii) : bool :=
  ((lo <=? N_of_ascii c) && (N_of_ascii c <=? hi))%N.

(** [utf8.DecodeRune]: the size of the well-formed multi-byte rune at the
head of [s], or 0 when the first byte does not start one. *)
Definition runeLen (s : string) : nat :=
  match s with
  | String a (String b rest) =>
      let cont := inRange 128 191 in
      let second :=
        match N_of_ascii a with
        | 224%N => inRange 160 191
        | 237%N => inRange 128 159
        | 240%N => inRange 144 191
        | 244%N => inRange 128 143
        | _ => cont
        end in
      if inRange 194 223 a then (if cont b then 2%nat else 0%nat)
      else if inRange 224 239 a then
        match rest with
        | String c _ => if second b && cont c then 3%nat else 0%nat
        | _ => 0%nat
        end
      else if inRange 240 244 a then
        match rest with
        | String c (String d _) =>
            if second b && cont c && cont d then 4%nat else 0%nat
        | _ => 0%nat
        end
      else 0%nat
  | _ => 0%nat
  end.

Definition byte (n : Z) : ascii := ascii_of_N (Z.to_N n).

(** U+FFFD, [unicode.ReplacementChar], in UTF-8. *)
Definition replacementChar : string :=
  String (byte 239) (String (byte 191) (String (byte 189) EmptyString)).

(** [utf8.EncodeRune] *)
Definition EncodeRune (r : Z) : string :=
  if r <? 0 then replacementChar
  else if r <=? 127 then String (byte r) EmptyString
  else if r <=? 2047 then
    String (byte (Z.lor 192 (Z.shiftr r 6)))
      (String (byte (Z.lor 128 (Z.land r 63))) EmptyString)
  else if (1114111 <? r) || ((55296 <=? r) && (r <=? 57343))
  then replacementChar
  else if r <=? 65535 then
    String (byte (Z.lor 224 (Z.shiftr r 12)))
      (String (byte (Z.lor 128 (Z.land (Z.shiftr r 6) 63)))
         (String (byte (Z.lor 128 (Z.land r 63))) EmptyString))
  else
    String (byte (Z.lor 240 (Z.shiftr r 18)))
      (String (byte (Z.lor 128 (Z.land (Z.shiftr r 12) 63)))
         (String (byte (Z.lor 128 (Z.land (Z.shiftr r 6) 63)))
            (String (byte (Z.lor 128 (Z.land r 63))) EmptyString))).

Definition hexVal (c : ascii) : option Z :=
  let n := Z.of_N (N_of_ascii c) in
  if (48 <=? n) && (n <=? 57) then Some (n - 48)
  else if (97 <=? n) && (n <=? 102) then Some (n - 97 + 10)
  else if (65 <=? n) && (n <=? 70) then Some (n - 65 + 10)
  else None.

(** [getu4]: the code unit of a [\uXXXX] escape at the head of [s], or -1. *)
Definition getu4 (s : string) : Z :=
  match s with
  | String "\" (String "u" (String a (String b (String c (String d _))))) =>
      match hexVal a, hexVal b, hexVal c, hexVal d with
      | Some x, Some y, Some z, Some w => x * 4096 + y * 256 + z * 16 + w
      | _, _, _, _ => -1
      end
  | _ => -1
  end.

Definition drop (n : nat) (s : string) : string :=
  String.substring n (String.length s) s.

(** The byte a one-letter escape stands for. *)
Definition escapeByte (e : ascii) : option ascii :=
  match e with
  | "034" | "\" | "/" | "'" => Some e
  | "b" => Some "008"
  | "f" => Some "012"
  | "n" => Some "010"
  | "r" => Some "013"
  | "t" => Some "009"
  | _ => None
  end%char.

(** [utf16.DecodeRune] applied to two code units, for a first unit [rr]
that is a surrogate. *)
Definition isSurrogate (rr : Z) : bool := (55296 <=? rr) && (rr <? 57344).

Definition validPair (rr rr1 : Z) : bool :=
  (55296 <=? rr) && (rr <? 56320) && (56320 <=? rr1) && (rr1 <? 57344).

Definition pairRune (rr rr1 : Z) : Z :=
  Z.lor (Z.shiftl (rr - 55296) 10) (rr1 - 56320) + 65536.

(** The loop of [unquoteBytes] over the bytes between the quotes; [None]
is its [ok = false]. *)
Fixpoint unquoteLoop (fuel : nat) (s : string) : option string :=
  match fuel with
  | O => Some EmptyString
  | S fuel' =>
    match s with
    | EmptyString => Some EmptyString
    | String c rest =>
        if Ascii.eqb c "\" then
          match rest with
          | EmptyString => None
          | String e rest' =>
              if Ascii.eqb e "u" then
                let rr := getu4 s in
                if rr <? 0 then None
                else
                  let after := drop 6 s in
                  if isSurrogate rr then
                    let rr1 := getu4 after in
                    if validPair rr rr1
                    then String.append (EncodeRune (pairRune rr rr1))
                           <$> unquoteLoop fuel' (drop 6 after)
                    else String.append replacementChar
                           <$> unquoteLoop fuel' after
                  else String.append (EncodeRune rr)
                         <$> unquoteLoop fuel' after
              else
                match escapeByte e with
                | Some x => String x <$> unquoteLoop fuel' rest'
                | None => None
                end
          end
        else if Ascii.eqb c "034" || (N_of_ascii c <? 32)%N then None
        else if (N_of_ascii c <? 128)%N then
          String c <$> unquoteLoop fuel' rest
        else
          match runeLen s with
          | O => String.append replacementChar <$> unquoteLoop fuel' rest
          | n => String.append (String.substring 0 n s)
                   <$> unquoteLoop fuel' (drop n s)
          end
    end
  end.

(** [unquote]: the Go string of a JSON string literal; [None] is its
[ok = false], which the scanner rules out for the literals it accepted. *)
Definition unquote (item : string) : option string :=
  match item with
  | String "034" _ =>
      let n := String.length item in
      if (n <? 2)%nat then None
      else if negb (Ascii.eqb (default "000"%char (String.get (n - 1) item)) "034")
      then None
      else let body := String.substring 1 (n - 2) item in
           unquoteLoop (String.length body) body
  | _ => None
  end.

(** **** Numbers: [strconv.ParseInt(s, 10, 64)] *)

Fixpoint digits (acc : Z) (s : string) : option Z :=
  match s with
  | EmptyString => Some acc
  | String c s' =>
      if isDigit c then digits (acc * 10 + (Z.of_N (N_of_ascii c) - 48)) s'
      else None
  end.

(** The range is that of a 64-bit [int]. *)
Definition ParseInt (s : string) : option Z :=
  let magnitude (t : string) :=
    match t with
    | EmptyString => None
    | _ => digits 0 t
    end in
  match s with
  | String "-" t =>
      n ← magnitude t; if n <=? 9223372036854775808 then Some (- n) else None
  | String "+" t =>
      n ← magnitude t; if n <=? 9223372036854775807 then Some n else None
  | _ =>
      n ← magnitude s; if n <=? 9223372036854775807 then Some n else None
  end.

(** **** Field names: matching is by the folded name *)

(** [foldName]: ASCII letters to upper case, U+017F to S, U+212A to K. *)
Fixpoint foldName (s : string) : string :=
  match s with
  | EmptyString => EmptyString
  | String a rest =>
      if inRange 97 122 a
      then String (ascii_of_N (N_of_ascii a - 32)) (foldName rest)
      else
        match rest with
        | String b r =>
            if Ascii.eqb a "197" && Ascii.eqb b "191"
            then String "S" (foldName r)
            else
              match r with
              | String c r' =>
                  if Ascii.eqb a "226" && Ascii.eqb b "132" && Ascii.eqb c "170"
                  then String "K" (foldName r')
                  else String a (foldName rest)
              | EmptyString => String a (foldName rest)
              end
        | EmptyString => String a EmptyString
        end
  end.

(** The folded name of an object key given as its raw literal. *)
Definition keyName (raw : string) : string :=
  foldName (default EmptyString (unquote raw)).

(** **** Storing *)

(** [decodeState.saveError]: only the first error is kept. *)
Definition saveError (e : error) (saved : option error) : option error :=
  match saved with
  | None => Some e
  | Some _ => saved
  end.

(** The word [UnmarshalTypeError.Value] has for a JSON value that cannot be
stored. *)
Definition valueKind (v : value) : string :=
  match v with
  | Null => "null"
  | Bool _ => "bool"
  | Number _ => "number"
  | Str _ => "string"
  | Array _ => "array"
  | Object _ => "object"
  end.

(** A JSON value aimed at a Go [string]. *)
Definition storeString (v : value) (old : string) (saved : option error)
  : string * option error :=
  match v with
  | Str raw => (default old (unquote raw), saved)
  | Null => (old, saved)
  | _ => (old, saveError (UnmarshalTypeError (valueKind v) "string") saved)
  end.

(** A JSON value aimed at a Go [int]. *)
Definition storeInt (v : value) (old : Z) (saved : option error)
  : Z * option error :=
  match v with
  | Number item =>
      match ParseInt item with
      | Some n => (n, saved)
      | None =>
          (old, saveError
                  (UnmarshalTypeError (String.append "number " item) "int")
                  saved)
      end
  | Null => (old, saved)
  | _ => (old, saveError (UnmarshalTypeError (valueKind v) "int") saved)
  end.

Definition detailFields : list string :=
  ["FSRQ"; "DWJZ"; "LJJZ"; "SDATE"; "ACTUALSYI"; "NAVTYPE"; "JZZZL"; "SGZT";
   "SHZT"; "FHFCZ"; "FHFCBZ"; "DTYPE"; "FHSP"].

Definition getDetail (f : string) (d : FundDetail) : string :=
  if String.eqb f "FSRQ" then FSRQ d
  else if String.eqb f "DWJZ" then DWJZ d
  else if String.eqb f "LJJZ" then LJJZ d
  else if String.eqb f "SDATE" then SDATE d
  else if String.eqb f "ACTUALSYI" then ACTUALSYI d
  else if String.eqb f "NAVTYPE" then NAVTYPE d
  else if String.eqb f "JZZZL" then JZZZL d
  else if String.eqb f "SGZT" then SGZT d
  else if String.eqb f "SHZT" then SHZT d
  else if String.eqb f "FHFCZ" then FHFCZ d
  else if String.eqb f "FHFCBZ" then FHFCBZ d
  else if String.eqb f "DTYPE" then DTYPE d
  else FHSP d.

Definition setDetail (f : string) (x : string) (d : FundDetail) : FundDetail :=
  let pick (name : string) (old : string) :=
    if String.eqb f name then x else old in
  {| FSRQ := pick "FSRQ" (FSRQ d);
     DWJZ := pick "DWJZ" (DWJZ d);
     LJJZ := pick "LJJZ" (LJJZ d);
     SDATE := pick "SDATE" (SDATE d);
     ACTUALSYI := pick "ACTUALSYI" (ACTUALSYI d);
     NAVTYPE := pick "NAVTYPE" (NAVTYPE d);
     JZZZL := pick "JZZZL" (JZZZL d);
     SGZT := pick "SGZT" (SGZT d);
     SHZT := pick "SHZT" (SHZT d);
     FHFCZ := pick "FHFCZ" (FHFCZ d);
     FHFCBZ := pick "FHFCBZ" (FHFCBZ d);
     DTYPE := pick "DTYPE" (DTYPE d);
     FHSP := pick "FHSP" (FHSP d) |}.

(** One member of a JSON object aimed at a [FundDetail]; a key that names
no field is skipped. *)
Definition storeDetailMember (acc : FundDetail * option error)
    (m : string * value) : FundDetail * option error :=
  let (d, saved) := acc in
  let f := keyName (fst m) in
  if existsb (String.eqb f) detailFields
  then let (x, saved') := storeString (snd m) (getDetail f d) saved in
       (setDetail f x d, saved')
  else (d, saved).

(** A JSON value aimed at a [FundDetail]. *)
Definition storeFundDetail (v : value) (old : FundDetail)
    (saved : option error) : FundDetail * option error :=
  match v with
  | Object members => fold_left storeDetailMember members (old, saved)
  | Null => (old, saved)
  | _ => (old, saveError (UnmarshalTypeError (valueKind v) "main.FundDetail")
                 saved)
  end.

(** A JSON value aimed at a [[]FundDetail]: the slice gets one element per
array element, each decoded into a zero [FundDetail], which is the rule
the package documents (the old elements could only matter for an object
that gives the key twice); [null] empties the slice. *)
Definition storeList (v : value) (old : list FundDetail)
    (saved : option error) : list FundDetail * option error :=
  match v with
  | Array items =>
      fold_left
        (fun (acc : list FundDetail * option error) (item : value) =>
           let (d, saved') := storeFundDetail item zeroFundDetail (snd acc) in
           (fst acc ++ [d], saved'))
        items ([], saved)
  | Null => ([], saved)
  | _ => (old, saveError
                 (UnmarshalTypeError (valueKind v) "[]main.FundDetail") saved)
  end.

(** One member of a JSON object aimed at a [FundDetails]; [isNewType] is
not exported, so no key reaches it. *)
Definition storeDetailsMember (acc : FundDetails * option error)
    (m : string * value) : FundDetails * option error :=
  let (d, saved) := acc in
  let f := keyName (fst m) in
  if String.eqb f "LSJZLIST" then
    let (x, saved') := storeList (snd m) (LSJZList d) saved in
    ({| LSJZList := x; FundType := FundType d; SYType := SYType d;
        isNewType := isNewType d; Feature := Feature d |}, saved')
  else if String.eqb f "FUNDTYPE" then
    let (x, saved') := storeString (snd m) (FundType d) saved in
    ({| LSJZList := LSJZList d; FundType := x; SYType := SYType d;
        isNewType := isNewType d; Feature := Feature d |}, saved')
  else if String.eqb f "SYTYPE" then
    let (x, saved') := storeString (snd m) (SYType d) saved in
    ({| LSJZList := LSJZList d; FundType := FundType d; SYType := x;
        isNewType := isNewType d; Feature := Feature d |}, saved')
  else if String.eqb f "FEATURE" then
    let (x, saved') := storeString (snd m) (Feature d) saved in
    ({| LSJZList := LSJZList d; FundType := FundType d; SYType := SYType d;
        isNewType := isNewType d; Feature := x |}, saved')
  else (d, saved).

(** A JSON value aimed at a [FundDetails]. *)
Definition storeFundDetails (v : value) (old : FundDetails)
    (saved : option error) : FundDetails * option error :=
  match v with
  | Object members => fold_left storeDetailsMember members (old, saved)
  | Null => (old, saved)
  | _ => (old, saveError (UnmarshalTypeError (valueKind v) "main.FundDetails")
                 saved)
  end.

Definition withData (i : FundInfo) (x : FundDetails) : FundInfo :=
  {| Data := x; ErrCode := ErrCode i; ErrMsg := ErrMsg i;
     TotalCount := TotalCount i; Expansion := Expansion i;
     PageSize := PageSize i; PageIndex := PageIndex i |}.

Definition withInt (f : string) (i : FundInfo) (x : Z) : FundInfo :=
  let pick (name : string) (old : Z) :=
    if String.eqb f name then x else old in
  {| Data := Data i; ErrCode := pick "ERRCODE" (ErrCode i); ErrMsg := ErrMsg i;
     TotalCount := pick "TOTALCOUNT" (TotalCount i); Expansion := Expansion i;
     PageSize := pick "PAGESIZE" (PageSize i);
     PageIndex := pick "PAGEINDEX" (PageIndex i) |}.

Definition getInt (f : string) (i : FundInfo) : Z :=
  if String.eqb f "ERRCODE" then ErrCode i
  else if String.eqb f "TOTALCOUNT" then TotalCount i
  else if String.eqb f "PAGESIZE" then PageSize i
  else PageIndex i.

Definition withString (f : string) (i : FundInfo) (x : string) : FundInfo :=
  let pick (name : string) (old : string) :=
    if String.eqb f name then x else old in
  {| Data := Data i; ErrCode := ErrCode i; ErrMsg := pick "ERRMSG" (ErrMsg i);
     TotalCount := TotalCount i; Expansion := pick "EXPANSION" (Expansion i);
     PageSize := PageSize i; PageIndex := PageIndex i |}.

(** One member of a JSON object aimed at a [FundInfo]. *)
Definition storeInfoMember (acc : FundInfo * option error)
    (m : string * value) : FundInfo * option error :=
  let (i, saved) := acc in
  let f := keyName (fst m) in
  if String.eqb f "DATA" then
    let (x, saved') := storeFundDetails (snd m) (Data i) saved in
    (withData i x, saved')
  else if existsb (String.eqb f)
            ["ERRCODE"; "TOTALCOUNT"; "PAGESIZE"; "PAGEINDEX"] then
    let (x, saved') := storeInt (snd m) (getInt f i) saved in
    (withInt f i x, saved')
  else if String.eqb f "ERRMSG" then
    let (x, saved') := storeString (snd m) (ErrMsg i) saved in
    (withString f i x, saved')
  else if String.eqb f "EXPANSION" then
    let (x, saved') := storeString (snd m) (Expansion i) saved in
    (withString f i x, saved')
  else (i, saved).

(** A JSON value aimed at a [FundInfo]. *)
Definition storeFundInfo (v : value) (old : FundInfo)
    (saved : option error) : FundInfo * option error :=
  match v with
  | Object members => fold_left storeInfoMember members (old, saved)
  | Null => (old, saved)
  | _ => (old, saveError (UnmarshalTypeError (valueKind v) "main.FundInfo")
                 saved)
  end.

(** [decodeState.unmarshal] of delimited bytes into a [FundInfo]. *)
Definition unmarshal (item : string) (info : FundInfo)
  : FundInfo * option error :=
  storeFundInfo (valueOf item) info None.

(** [json.NewDecoder(strings.NewReader(data)).Decode(&info)]: the value
stored into [info] and the error returned. *)
Definition Decode (data : string) (info : FundInfo)
  : FundInfo * option error :=
  match readValue data with
  | Err e => (info, Some e)
  | Ok n => unmarshal (String.substring 0 (Z.to_nat n) data) info
  end.

End json.

(** ** The world outside the program

    A measurement point is modelled by what [client.NewPoint] is given: the
    measurement name, the tag map, the field map and the timestamp.  The
    types [Time] (a [time.Time]), [float64] and [URL] (a parsed URL)
    are left to the environment. *)

Inductive FieldValue (float64 : Type) : Type :=
  | FString (s : string)
  | FFloat (f : float64).
Arguments FString {float64} s.
Arguments FFloat {float64} f.

Record Point (Time float64 : Type) : Type := {
  pName : string;
  pTags : gmap string string;
  pFields : gmap string (FieldValue float64);
  pTime : Time
}.
Arguments pName {Time float64} p.
Arguments pTags {Time float64} p.
Arguments pFields {Time float64} p.
Arguments pTime {Time float64} p.

(** [client.BatchPoints]: the database of its configuration and the points
    added so far, oldest first. *)
Record BatchPoints (Time float64 : Type) : Type := {
  Database : string;
  Points : list (Point Time float64)
}.
Arguments Database {Time float64} b.
Arguments Points {Time float64} b.

(** [*http.Response]: the status code, the bytes its body yields and the
    error, if any, that ends the reading of the body. *)
Record Response := {
  StatusCode : Z;
  Body : string;
  ReadErr : option error
}.

(** Fields of a structured log entry. *)
Inductive Field :=
  | zap_String (key val : string)
  | zap_Int (key : string) (n : Z)
  | zap_Error (err : error).

Inductive LogEntry :=
  | log_Printf (msg : string)
  | logger_Debug (msg : string) (fields : list Field)
  | logger_Error (msg : string) (fields : list Field).

(** What the program has done to its surroundings so far, newest first:
    the requests handed to the HTTP client, the batches handed to the
    InfluxDB client, the log, and the seconds slept. *)
Record World (URL Time float64 : Type) : Type := {
  requests : list URL;
  writes : list (BatchPoints Time float64);
  logs : list LogEntry;
  slept : Z
}.
Arguments requests {URL Time float64} w.
Arguments writes {URL Time float64} w.
Arguments logs {URL Time float64} w.
Arguments slept {URL Time float64} w.

(** The collaborators of the crawler.  Those that talk to the outside
    answer from the world they are called in. *)
Record Externals := {
  Time : Type;
  float64 : Type;
  URL : Type;
  (** [url.Parse] and the [String] method of the parsed URL *)
  url_Parse : string -> result URL;
  url_String : URL -> string;
  (** [http.DefaultClient.Do] on a request for a URL with the two fixed
      headers *)
  http_Do : World URL Time float64 -> URL -> result Response;
  (** [dateparse.ParseLocal] *)
  dateparse_ParseLocal : string -> result Time;
  (** [strconv.ParseFloat(s, 64)] *)
  strconv_ParseFloat : string -> result float64;
  (** the error, if any, of [client.NewBatchPoints] for a database *)
  client_NewBatchPoints : string -> option error;
  (** the error, if any, of [client.NewPoint] *)
  client_NewPoint :
    string -> gmap string string -> gmap string (FieldValue float64) ->
    Time -> option error;
  (** the error, if any, of [influxClient.Write] *)
  influx_Write :
    World URL Time float64 -> BatchPoints Time float64 -> option error;
  (** [time.Now().Unix()] and [rand.Int63n] *)
  time_Now_Unix : World URL Time float64 -> Z;
  rand_Int63n : World URL Time float64 -> Z -> Z
}.

(** ** Computations: a result or a panic, and the world after *)

Inductive outcome (A : Type) : Type :=
  | Returns (a : A)
  | Panics (msg : string).
Arguments Returns {A} a.
Arguments Panics {A} msg.

Definition M (W A : Type) : Type := W -> outcome A * W.

Definition ret {W A : Type} (a : A) : M W A := fun w => (Returns a, w).

Definition bind {W A B : Type} (m : M W A) (k : A -> M W B) : M W B :=
  fun w =>
    match m w with
    | (Returns a, w') => k a w'
    | (Panics msg, w') => (Panics msg, w')
    end.

Definition panic {W A : Type} (msg : string) : M W A :=
  fun w => (Panics msg, w).

Notation "'do' x <- m ; k" := (bind m (fun x => k))
  (at level 10, x name, m at level 100, k at level 200).
Notation "'do' ' pat <- m ; k" :=
  (bind m (fun x => match x with pat => k end))
  (at level 10, pat pattern, m at level 100, k at level 200).

(** ** The crawler *)

(** [%d] of [fmt.Sprintf] *)
Definition fmt_d (n : Z) : string := NilZero.string_of_int (Z.to_int n).

(** Arithmetic on [int64] wraps around. *)
Definition int64 (n : Z) : Z :=
  (n + 9223372036854775808) mod 18446744073709551616 - 9223372036854775808.

Section Crawler.

Context (E : Externals).

#[local] Abbreviation W := (World (URL E) (Time E) (float64 E)).
#[local] Abbreviation point := (Point (Time E) (float64 E)).
#[local] Abbreviation batch := (BatchPoints (Time E) (float64 E)).
#[local] Abbreviation fieldmap := (gmap string (FieldValue (float64 E))).

(** *** Effects *)

Definition log (e : LogEntry) : M W unit :=
  fun w =>
    (Returns tt,
     {| requests := requests w; writes := writes w; logs := e :: logs w;
        slept := slept w |}).

(** [http.DefaultClient.Do(&req)] *)
Definition Do (u : URL E) : M W (result Response) :=
  fun w =>
    (Returns (http_Do E w u),
     {| requests := u :: requests w; writes := writes w; logs := logs w;
        slept := slept w |}).

(** [influxClient.Write(bp)] *)
Definition Write (bp : batch) : M W (option error) :=
  fun w =>
    (Returns (influx_Write E w bp),
     {| requests := requests w; writes := bp :: writes w; logs := logs w;
        slept := slept w |}).

(** [time.Sleep] of a number of seconds *)
Definition Sleep (seconds : Z) : M W unit :=
  fun w =>
    (Returns tt,
     {| requests := requests w; writes := writes w; logs := logs w;
        slept := slept w + seconds |}).

(** Reading the world without changing it. *)
Definition ask {A : Type} (f : W -> A) : M W A := fun w => (Returns (f w), w).

(** A slice expression: its value, or the bounds panic. *)
Definition sliced (r : option string) : M W string :=
  match r with
  | Some s => ret s
  | None => panic "slice bounds out of range"
  end.

(** *** getHttpResponse *)

(** The loop [for cnt > 0]; [err] is the variable of that name. *)
Fixpoint getHttpResponse_loop (cnt : nat) (fundUrl : URL E)
    (err : option error) : M W (option Response * option error) :=
  match cnt with
  | O => ret (None, err)
  | S cnt' =>
      do r <- Do fundUrl;
      match r with
      | Err err' =>
          getHttpResponse_loop cnt' fundUrl
            (Some (HttpGetError err' (url_String E fundUrl)))
      | Ok resp =>
          if negb (StatusCode resp =? 200)
          then getHttpResponse_loop cnt' fundUrl
                 (Some (HttpCodeError (StatusCode resp) (url_String E fundUrl)))
          else ret (Some resp, None)
      end
  end.

Definition getHttpResponse (u : string)
  : M W (option Response * option error) :=
  let cnt := 3%nat in
  match url_Parse E u with
  | Err err => ret (None, Some err)
  | Ok fundUrl => getHttpResponse_loop cnt fundUrl None
  end.

(** *** getNodeList *)

(** The node built from the five segments of a tuple. *)
Definition nodeOf (segs : list string) : FundNode :=
  let seg (i : nat) := strings.Trim (nth i segs EmptyString) (quoted "'[]") in
  {| Code := seg 0%nat; Abridge := seg 1%nat; Name := seg 2%nat;
     Type_ := seg 3%nat; Pinyin := seg 4%nat |}.

(** The loop [for i, list := range lists], from index [i] on.  The slice
    has one slot per tuple, so the index of an assignment is always inside
    it. *)
Fixpoint getNodeList_loop (i : nat) (lists : list string)
    (nodeList : list FundNode) : M W (list FundNode) :=
  match lists with
  | [] => ret nodeList
  | list :: rest =>
      let segs := strings.Split list (quoted "','") in
      if negb (length segs =? 5)%nat then
        do _ <- log (log_Printf
                       (String.append "invalid node: "
                          (String.append list (String "010" EmptyString))));
        getNodeList_loop (S i) rest nodeList
      else
        getNodeList_loop (S i) rest (<[i := nodeOf segs]> nodeList)
  end.

Definition catalogURL : string :=
  "http://fund.eastmoney.com/js/fundcode_search.js".

(** The catalog parser proper: everything [getNodeList] does with the
    text [s] it read from the response. *)
Definition getNodeList_parse (s : string)
  : M W (list FundNode * option error) :=
  do s <- sliced (strings.slice_from s (strings.Index s "=" + 1));
  let s := strings.TrimSpace s in
  do s <- sliced (strings.slice s 1 (strings.len s - 3));
  let lists := strings.Split s "]," in
  let nodeList := replicate (length lists) zeroFundNode in
  do nodeList <- getNodeList_loop 0 lists nodeList;
  ret (nodeList, None).

Definition getNodeList : M W (list FundNode * option error) :=
  do '(resp, err) <- getHttpResponse catalogURL;
  match err with
  | Some err => ret ([], Some err)
  | None =>
      match resp with
      | None => panic "nil pointer dereference"
      | Some resp => getNodeList_parse (Body resp)
      end
  end.

(** *** parseFund *)

Definition parseFund (resp : option Response)
  : M W (FundInfo * option error) :=
  match resp with
  | None => panic "nil pointer dereference"
  | Some resp =>
      match ReadErr resp with
      | Some err => ret (zeroFundInfo, Some err)
      | None =>
          let data := Body resp in
          let beg := strings.Index data "{" in
          if beg =? -1 then ret (zeroFundInfo, Some InvalidResponseBody)
          else
            do data <- sliced (strings.slice_from data beg);
            ret (json.Decode data zeroFundInfo)
      end
  end.

(** *** sink *)

Definition tagsOf (node : FundNode) : gmap string string :=
  <["pinyin" := Pinyin node]>
    (<["type" := Type_ node]>
       (<["name" := Name node]>
          (<["abridge" := Abridge node]>
             (<["code" := Code node]> ∅)))).

(** [fields[key] = v] when the parse of [src] gave no error. *)
Definition addFloat (key src : string) (fields : fieldmap) : fieldmap :=
  match strconv_ParseFloat E src with
  | Ok v => <[key := FFloat v]> fields
  | Err _ => fields
  end.

(** The field map built for one record. *)
Definition fieldsOf (fund : FundDetail) : fieldmap :=
  let fields : fieldmap :=
    <["SHZT" := FString (SHZT fund)]>
      (<["SGZT" := FString (SGZT fund)]>
         (<["NAVTYPE" := FString (NAVTYPE fund)]> ∅)) in
  let fields := addFloat "DWJZ" (DWJZ fund) fields in
  let fields := addFloat "LJJZ" (LJJZ fund) fields in
  let fields := addFloat "JZZZL" (JZZZL fund) fields in
  fields.

(** [client.NewPoint] *)
Definition NewPoint (name : string) (tags : gmap string string)
    (fields : fieldmap) (t : Time E) : result point :=
  match client_NewPoint E name tags fields t with
  | Some err => Err err
  | None => Ok {| pName := name; pTags := tags; pFields := fields; pTime := t |}
  end.

(** [bp.AddPoint(pt)] *)
Definition AddPoint (bp : batch) (pt : point) : batch :=
  {| Database := Database bp; Points := Points bp ++ [pt] |}.

(** The loop [for _, fund := range info.Data.LSJZList]: the batch with a
    point per record, or the error that made [sink] return. *)
Fixpoint sink_loop (tags : gmap string string) (funds : list FundDetail)
    (bp : batch) : result batch :=
  match funds with
  | [] => Ok bp
  | fund :: rest =>
      match dateparse_ParseLocal E (FSRQ fund) with
      | Err err => Err err
      | Ok ptime =>
          match NewPoint "fund" tags (fieldsOf fund) ptime with
          | Err err => Err err
          | Ok pt => sink_loop tags rest (AddPoint bp pt)
          end
      end
  end.

Definition sink (node : FundNode) (info : FundInfo) : M W (option error) :=
  match client_NewBatchPoints E "fund" with
  | Some err => ret (Some err)
  | None =>
      let bp : batch := {| Database := "fund"; Points := [] |} in
      let tags := tagsOf node in
      match sink_loop tags (LSJZList (Data info)) bp with
      | Err err => ret (Some err)
      | Ok bp =>
          do err <- Write bp;
          match err with
          | Some err => ret (Some err)
          | None =>
              do _ <- log (logger_Debug "sink successfully"
                             [zap_String "code" (Code node);
                              zap_String "name" (Name node);
                              zap_Int "count" (Z.of_nat (length (Points bp)))]);
              ret None
          end
      end
  end.

(** *** getFund *)

Definition historyURL (code : string) (pageIndex timestamp : Z) : string :=
  String.append "http://api.fund.eastmoney.com/f10/lsjz?callback=jQuer&fundCode="
    (String.append code
       (String.append "&pageIndex="
          (String.append (fmt_d pageIndex)
             (String.append "&pageSize=20&startDate=&endDate=&_="
                (fmt_d timestamp))))).

Definition getFund (node : FundNode) : M W (option error) :=
  if String.eqb (Code node) EmptyString then ret (Some EmptyFundCode)
  else
    do now <- ask (time_Now_Unix E);
    do rnd <- ask (fun w => rand_Int63n E w 1000);
    let timestamp := int64 (int64 (int64 (now - 2) * 1000) - rnd) in
    let pageIndex := 1 in
    let fundUrl := historyURL (Code node) pageIndex timestamp in
    do '(resp, err) <- getHttpResponse fundUrl;
    match err with
    | Some err => ret (Some err)
    | None =>
        do _ <- log (logger_Debug "get http fund successfully"
                       [zap_String "code" (Code node);
                        zap_String "name" (Name node)]);
        do '(fundInfo, err) <- parseFund resp;
        match err with
        | Some err => ret (Some err)
        | None =>
            if negb (ErrCode fundInfo =? 0)
            then ret (Some (FundInfoError (ErrCode fundInfo) (ErrMsg fundInfo)
                              (PageIndex fundInfo) (PageSize fundInfo)))
            else
              do err <- sink node fundInfo;
              match err with
              | Some err => ret (Some err)
              | None => ret None
              end
        end
    end.

(** *** run *)

(** The loop [for _, fundNode := range nodeList]. *)
Fixpoint run_loop (nodeList : list FundNode) : M W unit :=
  match nodeList with
  | [] => ret tt
  | fundNode :: rest =>
      do err <- getFund fundNode;
      do _ <- match err with
              | Some err =>
                  log (logger_Error "get fund error"
                         [zap_String "code" (Code fundNode);
                          zap_String "name" (Name fundNode);
                          zap_Error err])
              | None => ret tt
              end;
      do _ <- Sleep 1;
      run_loop rest
  end.

Definition run : M W (option error) :=
  do '(nodeList, err) <- getNodeList;
  match err with
  | Some err => ret (Some err)
  | None =>
      do _ <- run_loop nodeList;
      ret None
  end.

End Crawler.

(** ** A scripted environment

    Dates are accepted in the form YYYY-MM-DD, numbers as plain decimals;
    timestamps and floating-point values are represented by their text.
    The HTTP client answers from a script that sees the earlier requests. *)

Module Script.

Definition digitsAt (s : string) (from count : nat) : bool :=
  let part := String.substring from count s in
  (String.length part =? count)%nat
  && forallb json.isDigit (list_ascii_of_string part).

Definition isDate (s : string) : bool :=
  (String.length s =? 10)%nat
  && digitsAt s 0 4 && String.eqb (String.substring 4 1 s) "-"
  && digitsAt s 5 2 && String.eqb (String.substring 7 1 s) "-"
  && digitsAt s 8 2.

Definition ParseLocal (s : string) : result string :=
  if isDate s then Ok s else Err (External "Could not find format").

(** Digits, a point, digits. *)
Definition isDecimal (s : string) : bool :=
  let i := strings.Index s "." in
  (0 <? i) && (i + 1 <? strings.len s)
  && digitsAt s 0 (Z.to_nat i)
  && digitsAt s (Z.to_nat (i + 1)) (Z.to_nat (strings.len s - i - 1)).

Definition ParseFloat (s : string) : result string :=
  if isDecimal s then Ok s else Err (External "invalid syntax").

Definition env (serve : list string -> string -> result Response)
  : Externals :=
  {| Time := string;
     float64 := string;
     URL := string;
     url_Parse := Ok;
     url_String := fun u => u;
     http_Do := fun w u => serve (requests w) u;
     dateparse_ParseLocal := ParseLocal;
     strconv_ParseFloat := ParseFloat;
     client_NewBatchPoints := fun _ => None;
     client_NewPoint := fun _ _ _ _ => None;
     influx_Write := fun _ _ => None;
     time_Now_Unix := fun _ => 1700000000;
     rand_Int63n := fun _ _ => 0 |}.

Definition start : World string string string :=
  {| requests := []; writes := []; logs := []; slept := 0 |}.

Definition ok (body : string) : result Response :=
  Ok {| StatusCode := 200; Body := body; ReadErr := None |}.

(** Every request is answered with status 200 and the same body. *)
Definition always (body : string) : list string -> string -> result Response :=
  fun _ _ => ok body.

(** The catalog request gets [catalog], every other request [history]. *)
Definition site (catalog history : string)
  : list string -> string -> result Response :=
  fun _ u => if String.eqb u catalogURL then ok catalog else ok history.

(** Every request is answered with the same status and an empty body. *)
Definition status (code : Z) : list string -> string -> result Response :=
  fun _ _ => Ok {| StatusCode := code; Body := EmptyString; ReadErr := None |}.

End Script.

(** ** Payloads *)

Module Payload.

(** The well-formed catalog of two instruments. *)
Definition catalog2 : string :=
  quoted "var r = [['001','A','Alpha','T1','a'],['002','B','Beta','T2','b']];".

(** A catalog of three tuples whose second tuple has four fields. *)
Definition catalog3 : string :=
  quoted "var r = [['001','A','Alpha','T1','a'],['002','B','Beta','T2'],['003','C','Gamma','T3','c']];".

Definition alpha : FundNode :=
  {| Code := "001"; Abridge := "A"; Name := "Alpha"; Type_ := "T1";
     Pinyin := "a" |}.

Definition beta : FundNode :=
  {| Code := "002"; Abridge := "B"; Name := "Beta"; Type_ := "T2";
     Pinyin := "b" |}.

Definition gamma : FundNode :=
  {| Code := "003"; Abridge := "C"; Name := "Gamma"; Type_ := "T3";
     Pinyin := "c" |}.

(** A history body whose JSON is well formed and whose [ErrCode] is a
    string. *)
Definition historyTypeMismatch : string := quoted "jQuer({'ErrCode':'x'})".

(** The history body of one record. *)
Definition history1 : string :=
  quoted "jQuery123({'ErrCode':0,'ErrMsg':'','TotalCount':1,'Data':{'LSJZList':[{'FSRQ':'2024-01-02','DWJZ':'1.234','LJJZ':'2.345','JZZZL':'0.12'}]}})".

Definition record1 : FundDetail :=
  {| FSRQ := "2024-01-02"; DWJZ := "1.234"; LJJZ := "2.345"; SDATE := "";
     ACTUALSYI := ""; NAVTYPE := ""; JZZZL := "0.12"; SGZT := ""; SHZT := "";
     FHFCZ := ""; FHFCBZ := ""; DTYPE := ""; FHSP := "" |}.

Definition envelope1 : FundInfo :=
  {| Data := {| LSJZList := [record1]; FundType := ""; SYType := "";
                isNewType := false; Feature := "" |};
     ErrCode := 0; ErrMsg := ""; TotalCount := 1; Expansion := "";
     PageSize := 0; PageIndex := 0 |}.

(** A record whose unit value is empty and whose cumulative value is a
    placeholder. *)
Definition recordGaps : FundDetail :=
  {| FSRQ := "2024-01-02"; DWJZ := ""; LJJZ := "n/a"; SDATE := "";
     ACTUALSYI := ""; NAVTYPE := "1"; JZZZL := "0.12"; SGZT := "open";
     SHZT := "closed"; FHFCZ := ""; FHFCBZ := ""; DTYPE := ""; FHSP := "" |}.

(** A record whose date is not a date. *)
Definition recordBadDate : FundDetail :=
  {| FSRQ := "yesterday"; DWJZ := "1.5"; LJJZ := "2.5"; SDATE := "";
     ACTUALSYI := ""; NAVTYPE := "1"; JZZZL := "0.1"; SGZT := ""; SHZT := "";
     FHFCZ := ""; FHFCBZ := ""; DTYPE := ""; FHSP := "" |}.

(** An envelope whose second record has a date that does not parse. *)
Definition envelopeBadDate : FundInfo :=
  {| Data := {| LSJZList := [record1; recordBadDate]; FundType := "";
                SYType := ""; isNewType := false; Feature := "" |};
     ErrCode := 0; ErrMsg := ""; TotalCount := 2; Expansion := "";
     PageSize := 20; PageIndex := 1 |}.

(** A history body that reports an error of the API. *)
Definition historyDomainError : string :=
  quoted "jQuer({'Data':null,'ErrCode':5,'ErrMsg':'no data','PageSize':20,'PageIndex':1})".

Definition envelopeDomainError : FundInfo :=
  {| Data := zeroFundDetails; ErrCode := 5; ErrMsg := "no data";
     TotalCount := 0; Expansion := ""; PageSize := 20; PageIndex := 1 |}.

End Payload.

(** ** Vocabulary of the properties *)

(** The byte [c] occurs in [s]. *)
Fixpoint occurs (c : ascii) (s : string) : bool :=
  match s with
  | EmptyString => false
  | String a s' => Ascii.eqb a c || occurs c s'
  end.

Section Vocabulary.

Context (E : Externals).

#[local] Abbreviation W := (World (URL E) (Time E) (float64 E)).

(** The world after one more request for [u]. *)
Definition requested (u : URL E) (w : W) : W :=
  {| requests := u :: requests w; writes := writes w; logs := logs w;
     slept := slept w |}.

(** The world after one more log entry. *)
Definition logged (e : LogEntry) (w : W) : W :=
  {| requests := requests w; writes := writes w; logs := e :: logs w;
     slept := slept w |}.

(** The world after the entries [es] were logged, the last one first. *)
Definition loggedAll (es : list LogEntry) (w : W) : W :=
  {| requests := requests w; writes := writes w; logs := es ++ logs w;
     slept := slept w |}.

(** An attempt fails when the transport fails or the status is not 200. *)
Definition failed (r : result Response) : bool :=
  match r with
  | Err _ => true
  | Ok resp => negb (StatusCode resp =? 200)
  end.

(** The error a failed attempt for [u] leaves in [err]. *)
Definition tagged (u : URL E) (r : result Response) : error :=
  match r with
  | Err err => HttpGetError err (url_String E u)
  | Ok resp => HttpCodeError (StatusCode resp) (url_String E u)
  end.

(** What [getHttpResponse] returns for an attempt that did not fail. *)
Definition answer (r : result Response) : option Response * option error :=
  match r with
  | Ok resp => (Some resp, None)
  | Err _ => (None, None)
  end.

(** The point [sink] builds for a record whose date parsed to [t]. *)
Definition pointOf (node : FundNode) (fund : FundDetail) (t : Time E)
  : Point (Time E) (float64 E) :=
  {| pName := "fund"; pTags := tagsOf node; pFields := fieldsOf E fund;
     pTime := t |}.

(** The field a number parser result contributes. *)
Definition floatField (r : result (float64 E))
  : option (FieldValue (float64 E)) :=
  match r with
  | Ok v => Some (FFloat v)
  | Err _ => None
  end.

(** The date of a record parses. *)
Definition dateParses (fund : FundDetail) : Prop :=
  exists t, dateparse_ParseLocal E (FSRQ fund) = Ok t.

(** [pt] is the point of [fund] for the instrument [node]. *)
Definition isPointOf (node : FundNode) (fund : FundDetail)
    (pt : Point (Time E) (float64 E)) : Prop :=
  dateparse_ParseLocal E (FSRQ fund) = Ok (pTime pt)
  /\ pt = pointOf node fund (pTime pt).

(** The world after one more batch was handed to the InfluxDB client. *)
Definition written (bp : BatchPoints (Time E) (float64 E)) (w : W) : W :=
  {| requests := requests w; writes := bp :: writes w; logs := logs w;
     slept := slept w |}.

(** The entry [sink] logs after a successful write. *)
Definition sunkEntry (node : FundNode) (count : nat) : LogEntry :=
  logger_Debug "sink successfully"
    [zap_String "code" (Code node); zap_String "name" (Name node);
     zap_Int "count" (Z.of_nat count)].

(** The date of a record does not parse. *)
Definition dateFails (fund : FundDetail) : Prop :=
  exists e, dateparse_ParseLocal E (FSRQ fund) = Err e.

(** The URL [getFund] requests for [node] in the world [w]. *)
Definition fundURL (node : FundNode) (w : W) : string :=
  historyURL (Code node) 1
    (int64 (int64 (int64 (time_Now_Unix E w - 2) * 1000)
            - rand_Int63n E w 1000)).

(** The entry [getFund] logs after a successful fetch. *)
Definition fetchedEntry (node : FundNode) : LogEntry :=
  logger_Debug "get http fund successfully"
    [zap_String "code" (Code node); zap_String "name" (Name node)].

(** The entry [run] logs for an instrument whose [getFund] failed. *)
Definition failureEntry (node : FundNode) (err : error) : LogEntry :=
  logger_Error "get fund error"
    [zap_String "code" (Code node); zap_String "name" (Name node);
     zap_Error err].

(** In the world [w], [getFund] for [node] fetches a response, logs the
    fetch, and parses the envelope [info] without error, reaching the
    world [w2]. *)
Definition fetchesEnvelope (node : FundNode) (w : W) (info : FundInfo)
    (w2 : W) : Prop :=
  exists (resp : Response) (w1 : W),
    getHttpResponse E (fundURL node w) w = (Returns (Some resp, None), w1)
    /\ w2 = logged (fetchedEntry node) w1
    /\ parseFund E (Some resp) w2 = (Returns (info, None), w2).

(** The world after one more second of sleep. *)
Definition sleptOne (w : W) : W :=
  {| requests := requests w; writes := writes w; logs := logs w;
     slept := slept w + 1 |}.

(** One turn of the loop of [run]: the world after [getFund] for [node],
    the log entry for its failure if it failed, and the pause. *)
Definition afterInstrument (w : W) (node : FundNode) : W :=
  match getFund E node w with
  | (Returns (Some err), w1) => sleptOne (logged (failureEntry node err) w1)
  | (_, w1) => sleptOne w1
  end.

End Vocabulary.

(** The scanner is inside a JSON object or array whose end it has not
    seen. *)
Definition inValue (s : json.scanner) : Prop :=
  json.parseState s <> [] /\ json.step s <> json.stateEndTop.

(** The errors the JSON decoder makes. *)
Definition jsonError (e : error) : Prop :=
  match e with
  | SyntaxError _ _ _ | UnmarshalTypeError _ _ | EOF | ErrUnexpectedEOF => True
  | _ => False
  end.

(** The errors of storing a JSON value into a Go value. *)
Definition typeError (e : error) : Prop :=
  match e with
  | UnmarshalTypeError _ _ => True
  | _ => False
  end.

Definition typeErrorOpt (o : option error) : Prop :=
  match o with
  | Some e => typeError e
  | None => True
  end.

(** An error, if there is one, is one of the decoder's. *)
Definition jsonErrorOpt (o : option error) : Prop :=
  match o with
  | Some e => jsonError e
  | None => True
  end.

(** [rest] is what follows the first [c] of [body], or all of [body] when
    it has no [c]. *)
Definition afterFirst (c : ascii) (body rest : string) : Prop :=
  (occurs c body = false /\ rest = body)
  \/ (exists pre, occurs c pre = false /\ body = pre +:+ String c rest).

(** A tuple splits into exactly five fields. *)
Definition fiveFields (list : string) : bool :=
  (length (strings.Split list (quoted "','")) =? 5)%nat.

(** What the catalog parser leaves at the index of a tuple. *)
Definition slotOf (list : string) : FundNode :=
  if fiveFields list then nodeOf (strings.Split list (quoted "','"))
  else zeroFundNode.

(** The warning logged for a tuple that is passed over. *)
Definition warning (list : string) : LogEntry :=
  log_Printf
    (String.append "invalid node: "
       (String.append list (String "010" EmptyString))).

(** The warnings of a sequence of tuples, the last one first. *)
Fixpoint warnings (lists : list string) : list LogEntry :=
  match lists with
  | [] => []
  | list :: rest =>
      warnings rest ++ (if fiveFields list then [] else [warning list])
  end.

(** ** Further vocabulary *)

(** The first byte of [s], if there is one, is not in [cutset]. *)
Definition headFree (cutset s : string) : Prop :=
  match s with
  | EmptyString => True
  | String a _ => strings.inCutset cutset a = false
  end.

(** Neither the first nor the last byte of [s] is in [cutset]. *)
Definition edgeFree (cutset s : string) : Prop :=
  headFree cutset s /\ headFree cutset (String.rev s).

(** No field of the record starts or ends with a quote or a bracket. *)
Definition cleanNode (node : FundNode) : Prop :=
  edgeFree (quoted "'[]") (Code node)
  /\ edgeFree (quoted "'[]") (Abridge node)
  /\ edgeFree (quoted "'[]") (Name node)
  /\ edgeFree (quoted "'[]") (Type_ node)
  /\ edgeFree (quoted "'[]") (Pinyin node).

(** No byte of [s] is in [set]. *)
Fixpoint free (set s : string) : bool :=
  match s with
  | EmptyString => true
  | String a s' => negb (strings.inCutset set a) && free set s'
  end.

(** A field without double quote, comma or square bracket. *)
Definition plain (f : string) : Prop := free (quoted "',[]") f = true.

Definition plainNode (node : FundNode) : Prop :=
  plain (Code node) /\ plain (Abridge node) /\ plain (Name node)
  /\ plain (Type_ node) /\ plain (Pinyin node).

(** The tuple of a record as the catalog writes it, up to its closing
    bracket: an opening bracket and the five fields, each in double
    quotes, with commas between them. *)
Definition openTuple (node : FundNode) : string :=
  String "[" (String "034"
    (Code node +:+ quoted "','" +:+ Abridge node +:+ quoted "','"
     +:+ Name node +:+ quoted "','" +:+ Type_ node +:+ quoted "','"
     +:+ Pinyin node +:+ String "034" EmptyString)).

Definition renderTuple (node : FundNode) : string := openTuple node +:+ "]".

(** A catalog body: what precedes the assignment, then the array of the
    tuples, and the semicolon. *)
Definition renderCatalog (pre : string) (nodeList : list FundNode) : string :=
  pre +:+ "= [" +:+ String.concat "," (map renderTuple nodeList) +:+ "];".

(** The number of records that have a code. *)
Fixpoint coded (nodeList : list FundNode) : nat :=
  match nodeList with
  | [] => 0%nat
  | node :: rest =>
      ((if String.eqb (Code node) EmptyString then 0 else 1) + coded rest)%nat
  end.

Section FurtherVocabulary.

Context (E : Externals).

(** 1 when the number parser accepts [src], 0 when it does not. *)
Definition parsed (src : string) : nat :=
  match strconv_ParseFloat E src with
  | Ok _ => 1%nat
  | Err _ => 0%nat
  end.


(** What a call of [getFund] that returned [r] may have done to the
    world: no sleep, at most three requests, at most one batch; and when
    [r] is nil, one batch for [fund] with the tags of the instrument, whose
    write reported no error, and the two log entries of a success. *)
Definition getFund_frame (node : FundNode)
    (w : World (URL E) (Time E) (float64 E)) (r : option error)
    (w' : World (URL E) (Time E) (float64 E)) : Prop :=
  slept w' = slept w
  /\ (length (requests w') <= length (requests w) + 3)%nat
  /\ (writes w' = writes w \/ exists bp, writes w' = bp :: writes w)
  /\ (r = None ->
      exists bp,
        writes w' = bp :: writes w
        /\ Database bp = "fund"
        /\ Forall (fun pt => pTags pt = tagsOf node) (Points bp)
        /\ influx_Write E
             (logged E (fetchedEntry node)
                (snd (getHttpResponse E (fundURL E node w) w))) bp = None
        /\ logs w' = sunkEntry node (length (Points bp))
                     :: fetchedEntry node :: logs w).

End FurtherVocabulary.

Example readValue_example :
  json.readValue (quoted "{'a':[1,2,{}],'b':'x}'} trailing") = Ok 23.
Proof. reflexivity. Qed.

Example Decode_example :
  json.Decode
    (quoted "{'ErrCode':0,'ErrMsg':'','TotalCount':1,'Data':{'LSJZList':[{'FSRQ':'2024-01-02','DWJZ':'1.234','LJJZ':'2.345','JZZZL':'0.12'}]}})")
    zeroFundInfo
  = ({| Data := {| LSJZList :=
                     [ {| FSRQ := "2024-01-02"; DWJZ := "1.234";
                          LJJZ := "2.345"; SDATE := ""; ACTUALSYI := "";
                          NAVTYPE := ""; JZZZL := "0.12"; SGZT := "";
                          SHZT := ""; FHFCZ := ""; FHFCBZ := ""; DTYPE := "";
                          FHSP := "" |} ];
                   FundType := ""; SYType := ""; isNewType := false;
                   Feature := "" |};
        ErrCode := 0; ErrMsg := ""; TotalCount := 1; Expansion := "";
        PageSize := 0; PageIndex := 0 |}, None).
Proof. vm_compute. reflexivity. Qed.

(** A status of 500 on every attempt: three requests, then the error of
    the third. *)
Example getHttpResponse_status_500 :
  getHttpResponse (Script.env (Script.status 500)) "http://host/x"
    Script.start
  = (Returns (None, Some (HttpCodeError 500 "http://host/x")),
     {| requests := ["http://host/x"; "http://host/x"; "http://host/x"];
        writes := []; logs := []; slept := 0 |}).
Proof. reflexivity. Qed.

(** Escapes, a surrogate pair and a lone surrogate in a string; a key in
    another case; a number that is no integer. *)
Example Decode_details :
  json.Decode
    (quoted "{'errmsg':'a\né😀\ud83dz','PageSize':1.5,'pageINDEX':-12} rest")
    zeroFundInfo
  = ({| Data := zeroFundDetails; ErrCode := 0;
        ErrMsg :=
          String "a"
            (String "010"
               (String "195" (String "169"
                  (String "240" (String "159" (String "152" (String "128"
                     (String "239" (String "191" (String "189"
                        (String "z" EmptyString)))))))))));
        TotalCount := 0; Expansion := ""; PageSize := 0; PageIndex := -12 |},
     Some (UnmarshalTypeError "number 1.5" "int")).
Proof. vm_compute. reflexivity. Qed.

(** Text that stops inside the object, and text that is no JSON. *)
Example Decode_truncated :
  snd (json.Decode (quoted "{'ErrCode':") zeroFundInfo) = Some ErrUnexpectedEOF.
Proof. reflexivity. Qed.

Example Decode_syntax :
  snd (json.Decode (quoted "{'ErrCode':1,}") zeroFundInfo)
  = Some (SyntaxError "}" "looking for beginning of object key string" 14).
Proof. reflexivity. Qed.

(** * Properties *)

(** ** Facts about the string primitives *)

Section StringFacts.

Lemma length_append (s t : string) :
  String.length (s +:+ t) = (String.length s + String.length t)%nat.
Proof. induction s as [|a s IH]; simpl; [reflexivity | now rewrite IH]. Qed.

Lemma len_nonneg (s : string) : 0 <= strings.len s.
Proof. unfold strings.len. lia. Qed.

Lemma len_String (a : ascii) (s : string) :
  strings.len (String a s) = strings.len s + 1.
Proof. unfold strings.len. simpl. lia. Qed.

Lemma prefix_len (p s : string) :
  String.prefix p s = true -> strings.len p <= strings.len s.
Proof.
  revert p. induction s as [|a s IH]; intros [|b p] H; cbn in H;
    try discriminate; rewrite ?len_String;
    try (pose proof (len_nonneg s); unfold strings.len in *; cbn; lia).
  destruct (ascii_dec b a); [| discriminate]. specialize (IH _ H). lia.
Qed.

(** A search that succeeds finds the whole of [substr] inside the string. *)
Lemma Index_range (s substr : string) :
  strings.Index s substr = -1
  \/ (0 <= strings.Index s substr
      /\ strings.Index s substr + strings.len substr <= strings.len s).
Proof.
  induction s as [|a s IH].
  - destruct substr; [right | left]; [now cbv | reflexivity].
  - cbn [strings.Index].
    destruct (String.prefix substr (String a s)) eqn:Hp.
    + right. apply prefix_len in Hp. lia.
    + destruct (strings.Index s substr <? 0) eqn:Hneg; [now left | right].
      rewrite len_String. apply Z.ltb_ge in Hneg.
      destruct IH as [IH | IH]; lia.
Qed.

Lemma substring_all (s : string) (m : nat) :
  (String.length s <= m)%nat -> String.substring 0 m s = s.
Proof.
  revert m. induction s as [|a s IH]; intros m Hm; destruct m; simpl in *;
    try reflexivity; try lia.
  f_equal. apply IH. lia.
Qed.

Lemma substring_enough (s : string) (k m m' : nat) :
  (String.length s <= k + m)%nat -> (String.length s <= k + m')%nat ->
  String.substring k m s = String.substring k m' s.
Proof.
  revert k. induction s as [|a s IH]; intros k Hm Hm'.
  - destruct k, m, m'; reflexivity.
  - destruct k as [|k].
    + rewrite !substring_all; [reflexivity | simpl in *; lia ..].
    + simpl in *. destruct m, m'; apply IH; lia.
Qed.

(** [s[lo:]] cannot panic for an offset inside the string. *)
Lemma slice_from_inside (s : string) (lo : Z) :
  0 <= lo <= strings.len s ->
  strings.slice_from s lo = Some (json.drop (Z.to_nat lo) s).
Proof.
  intros [H0 H1]. unfold strings.slice_from, strings.slice.
  apply Z.leb_le in H0 as H0'. apply Z.leb_le in H1 as H1'.
  rewrite H0', H1', Z.leb_refl. simpl. f_equal.
  unfold json.drop, strings.len in *.
  apply substring_enough; lia.
Qed.

(** The search for a single byte finds its first occurrence. *)
Lemma Index_byte_absent (c : ascii) (s : string) :
  occurs c s = false -> strings.Index s (String c EmptyString) = -1.
Proof.
  induction s as [|a s IH]; intros H; [reflexivity |].
  cbn in H. apply orb_false_iff in H as [Hac Hs].
  cbn [strings.Index String.prefix].
  destruct (ascii_dec c a) as [-> | _].
  - rewrite Ascii.eqb_refl in Hac. discriminate.
  - rewrite (IH Hs). reflexivity.
Qed.

Lemma prefix_nil (s : string) : String.prefix EmptyString s = true.
Proof. destruct s; reflexivity. Qed.

Lemma Index_byte_first (c : ascii) (pre rest : string) :
  occurs c pre = false ->
  strings.Index (pre +:+ String c rest) (String c EmptyString)
  = strings.len pre.
Proof.
  induction pre as [|a pre IH]; intros H.
  - change (EmptyString +:+ String c rest) with (String c rest).
    cbn [strings.Index String.prefix].
    destruct (ascii_dec c c); [| congruence]. now rewrite prefix_nil.
  - cbn in H. apply orb_false_iff in H as [Hac Hs].
    change (String a pre +:+ String c rest)
      with (String a (pre +:+ String c rest)).
    cbn [strings.Index String.prefix].
    destruct (ascii_dec c a) as [-> | _].
    + rewrite Ascii.eqb_refl in Hac. discriminate.
    + rewrite (IH Hs), len_String.
      pose proof (len_nonneg pre).
      destruct (strings.len pre <? 0) eqn:Hn; [apply Z.ltb_lt in Hn; lia |].
      reflexivity.
Qed.

Lemma drop_append (pre rest : string) :
  json.drop (String.length pre) (pre +:+ rest) = rest.
Proof.
  unfold json.drop. induction pre as [|a pre IH].
  - change (EmptyString +:+ rest) with rest. cbn. apply substring_all. lia.
  - change (String a pre +:+ rest) with (String a (pre +:+ rest)).
    cbn [String.length].
    change (String.substring (S ?k) ?m (String ?b ?t))
      with (String.substring k m t).
    etrans; [| exact IH].
    apply substring_enough; rewrite length_append; lia.
Qed.

Lemma drop_0 (s : string) : json.drop 0 s = s.
Proof. unfold json.drop. apply substring_all. lia. Qed.

(** The text the catalog parser keeps of a body. *)
Lemma afterFirst_drop (body rest : string) :
  afterFirst "=" body rest ->
  json.drop (Z.to_nat (strings.Index body "=" + 1)) body = rest.
Proof.
  intros [[Hno ->] | (pre & Hno & ->)].
  - rewrite (Index_byte_absent _ _ Hno). apply drop_0.
  - rewrite (Index_byte_first _ _ _ Hno).
    replace (Z.to_nat (strings.len pre + 1)) with (String.length (pre +:+ "="))
      by (rewrite length_append; unfold strings.len; cbn; lia).
    replace (pre +:+ String "=" rest) with ((pre +:+ "=") +:+ rest).
    + apply drop_append.
    + clear. induction pre as [|a pre IH]; [reflexivity |].
      change (String a pre +:+ String "=" rest)
        with (String a (pre +:+ String "=" rest)).
      rewrite <- IH. reflexivity.
Qed.

Lemma append_String (a : ascii) (s t : string) :
  String a s +:+ t = String a (s +:+ t).
Proof. reflexivity. Qed.

(** A byte that occurs has a first occurrence. *)
Lemma occurs_split (c : ascii) (s : string) :
  occurs c s = true ->
  exists pre rest, s = pre +:+ String c rest /\ occurs c pre = false.
Proof.
  induction s as [|a s IH]; intros H; [discriminate |].
  cbn in H. destruct (Ascii.eqb a c) eqn:Hac.
  - apply Ascii.eqb_eq in Hac as ->. exists EmptyString, s. auto.
  - destruct (IH H) as (pre & rest & -> & Hpre).
    exists (String a pre), rest. split; [reflexivity |].
    cbn. now rewrite Hac.
Qed.

End StringFacts.

(** ** The JSON decoder *)

Section Scanner.

Import json.

Lemma literalStart_not_top (c : ascii) (st : state) :
  literalStart c = Some st -> st <> stateEndTop.
Proof.
  unfold literalStart. intros H Heq. subst st.
  repeat case_match; simplify_eq.
Qed.

(** Case analysis on the tests a transition makes. *)
Ltac scan_cases :=
  repeat first
    [ progress simplify_eq/=
    | match goal with
      | |- context [if ?b then _ else _] => destruct b eqn:?
      | H : context [if ?b then _ else _] |- _ => destruct b eqn:?
      | H : context [match literalStart ?c with _ => _ end] |- _ =>
          destruct (literalStart c) eqn:?
      | H : context [match ?l with [] => _ | _ :: _ => _ end] |- _ =>
          destruct l eqn:?
      | H : context [match ?k with parseObjectKey => _ | _ => _ end] |- _ =>
          destruct k eqn:?
      end ].

Ltac scan_unfold :=
  unfold scan_step, do_state0, do_stateBeginValue, do_stateBeginString,
    do_stateESign, expect, expectHex, do_stateEndValue, do_stateEndTop,
    pushParseState, popParseState, error_, setStep, setParseState,
    inValue, jsonErrorOpt in *;
  cbn [step parseState err bytes endTop] in *.

(** Inside an object or array no byte ends the top-level value, except
    the bracket that closes the outermost container. *)
Lemma scan_step_inValue (s s1 : scanner) (c : ascii) (op : opcode) :
  inValue s -> scan_step s c = (s1, op) ->
  match op with
  | scanEnd => False
  | scanEndObject | scanEndArray =>
      (parseState s1 = [] /\ step s1 = stateEndTop)
      \/ (inValue s1 /\ step s1 = stateEndValue)
  | scanError => True
  | _ => inValue s1
  end.
Proof.
  intros [Hps Hst] H. destruct s as [st et ps er by_].
  cbn in Hps, Hst. scan_unfold.
  destruct st; try congruence; scan_cases;
    try (exfalso; congruence);
    try (split; [discriminate | discriminate]);
    try (split; [assumption | discriminate]);
    try tauto.
  all: try (first [ left; split; reflexivity
                  | right; split; [split; discriminate | reflexivity] ]).
  all: try (split; [discriminate | eapply literalStart_not_top; eassumption]).
  all: split; [assumption | eapply literalStart_not_top; eassumption].
Qed.

(** The scanner only ever records syntax errors. *)
Lemma scan_step_err (s s1 : scanner) (c : ascii) (op : opcode) :
  jsonErrorOpt (err s) -> scan_step s c = (s1, op) -> jsonErrorOpt (err s1).
Proof.
  intros Herr H. destruct s as [st et ps er by_]. scan_unfold.
  destruct st; scan_cases; try assumption; try exact I.
Qed.

Lemma do_stateEndValue_err (s s1 : scanner) (c : ascii) (op : opcode) :
  jsonErrorOpt (err s) -> do_stateEndValue s c = (s1, op) ->
  jsonErrorOpt (err s1).
Proof.
  intros Herr H. destruct s as [st et ps er by_]. scan_unfold.
  scan_cases; try assumption; try exact I.
Qed.

Lemma inValue_addByte (s : scanner) : inValue s -> inValue (addByte s).
Proof. intros H. exact H. Qed.

(** Once inside an object or array, a scan that delimits a value ends
    within the bytes it was given and never looks at what follows. *)
Lemma readLoop_trailing (data : string) :
  forall (s : scanner) (seen : bool) (scanp n : Z),
    inValue s -> readLoop s seen scanp data = Ok n ->
    (scanp <= n <= scanp + strings.len data)
    /\ forall tail : string, readLoop s seen scanp (data +:+ tail) = Ok n.
Proof.
  induction data as [|c data IH]; intros s seen scanp n Hin H.
  - cbn [readLoop] in H.
    destruct (scan_step s " ") as [s1 op] eqn:Hstep.
    pose proof (scan_step_inValue _ _ _ _ Hin Hstep) as Hpost.
    destruct op; cbn in H; try contradiction; destruct seen; discriminate.
  - rewrite len_String. pose proof (len_nonneg data) as Hlen.
    cbn [readLoop] in H.
    assert (Htail : forall tail,
              readLoop s seen scanp (String c data +:+ tail)
              = let seen' := seen || negb (isSpace c) in
                let (s1, op) := scan_step (addByte s) c in
                match op with
                | scanEnd => Ok scanp
                | scanEndObject | scanEndArray =>
                    let (s2, op2) := do_stateEndValue s1 " " in
                    if opcode_eqb op2 scanEnd then Ok (scanp + 1)
                    else readLoop s2 seen' (scanp + 1) (data +:+ tail)
                | scanError =>
                    match err s1 with
                    | Some e => Err e
                    | None => Err (SyntaxError c EmptyString (bytes s1))
                    end
                | _ => readLoop s1 seen' (scanp + 1) (data +:+ tail)
                end) by reflexivity.
    cbv zeta in H, Htail.
    destruct (scan_step (addByte s) c) as [s1 op] eqn:Hstep.
    pose proof (scan_step_inValue _ _ _ _ (inValue_addByte _ Hin) Hstep)
      as Hpost.
    assert (Hrec : forall s', inValue s' ->
              readLoop s' (seen || negb (isSpace c)) (scanp + 1) data = Ok n ->
              (scanp <= n <= scanp + (strings.len data + 1))
              /\ forall tail,
                   readLoop s' (seen || negb (isSpace c)) (scanp + 1)
                     (data +:+ tail) = Ok n).
    { intros s' Hs' Hr. destruct (IH _ _ _ _ Hs' Hr) as [Hb Ht].
      split; [lia | exact Ht]. }
    assert (Hclose :
      (let (s2, op2) := do_stateEndValue s1 " " in
       if opcode_eqb op2 scanEnd then Ok (scanp + 1)
       else readLoop s2 (seen || negb (isSpace c)) (scanp + 1) data) = Ok n ->
      (parseState s1 = [] /\ step s1 = stateEndTop)
      \/ (inValue s1 /\ step s1 = stateEndValue) ->
      (scanp <= n <= scanp + (strings.len data + 1))
      /\ forall tail,
           (let (s2, op2) := do_stateEndValue s1 " " in
            if opcode_eqb op2 scanEnd then Ok (scanp + 1)
            else readLoop s2 (seen || negb (isSpace c)) (scanp + 1)
                   (data +:+ tail)) = Ok n).
    { intros Hr [[Hps Hst] | [[Hps Hst] Hstep']].
      - unfold do_stateEndValue in *. rewrite Hps in *. cbn in *.
        simplify_eq. split; [lia | reflexivity].
      - unfold do_stateEndValue in *.
        destruct (parseState s1) as [|p ps] eqn:Hp; [congruence |].
        cbn in Hr |- *. apply Hrec; [| exact Hr].
        split; cbn; [rewrite Hp; discriminate | discriminate]. }
    destruct op; try (destruct (Hrec s1 Hpost H) as [Hb Ht];
                      split; [exact Hb | intros tail; rewrite Htail; apply Ht]);
      try contradiction.
    + destruct (Hclose H Hpost) as [Hb Ht].
      split; [exact Hb | intros tail; rewrite Htail; apply Ht].
    + destruct (Hclose H Hpost) as [Hb Ht].
      split; [exact Hb | intros tail; rewrite Htail; apply Ht].
    + destruct (err s1); discriminate.
Qed.

(** Every error of the scan is one of the decoder's. *)
Lemma readLoop_error (data : string) :
  forall (s : scanner) (seen : bool) (scanp : Z) (e : error),
    jsonErrorOpt (err s) -> readLoop s seen scanp data = Err e -> jsonError e.
Proof.
  induction data as [|c data IH]; intros s seen scanp e Herr H.
  - cbn [readLoop] in H. repeat case_match; simplify_eq; exact I.
  - cbn [readLoop] in H. cbv zeta in H.
    destruct (scan_step (addByte s) c) as [s1 op] eqn:Hstep.
    assert (H1 : jsonErrorOpt (err s1))
      by (eapply scan_step_err; [| exact Hstep]; exact Herr).
    destruct op; try (eapply IH; [| exact H]; exact H1); try discriminate.
    + destruct (do_stateEndValue s1 " ") as [s2 op2] eqn:H2.
      destruct (opcode_eqb op2 scanEnd); [discriminate |].
      eapply IH; [| exact H]. eapply do_stateEndValue_err; eassumption.
    + destruct (do_stateEndValue s1 " ") as [s2 op2] eqn:H2.
      destruct (opcode_eqb op2 scanEnd); [discriminate |].
      eapply IH; [| exact H]. eapply do_stateEndValue_err; eassumption.
    + destruct (err s1) as [e'|]; simplify_eq; [exact H1 | exact I].
Qed.

(** A transition changes the depth of the parse stack as its opcode
    says. *)
Lemma scan_step_depth (s s1 : scanner) (c : ascii) (op : opcode) :
  inValue s -> scan_step s c = (s1, op) ->
  match op with
  | scanBeginObject | scanBeginArray =>
      length (parseState s1) = S (length (parseState s))
  | scanEndObject | scanEndArray =>
      S (length (parseState s1)) = length (parseState s)
  | scanError | scanEnd => True
  | _ => length (parseState s1) = length (parseState s)
  end.
Proof.
  intros [Hps Hst] H. destruct s as [st et ps er by_].
  cbn in Hps, Hst. destruct ps as [|p ps]; [congruence |]. scan_unfold.
  destruct st; try congruence; scan_cases; try reflexivity; try exact I;
    try congruence.
Qed.

Lemma deliver_stack (v : value) (b : builder) :
  length (stack (deliver v b)) = length (stack b).
Proof. unfold deliver. repeat case_match; reflexivity. Qed.

Lemma flush_stack (b : builder) : length (stack (flush b)) = length (stack b).
Proof. unfold flush. case_match; [rewrite deliver_stack |]; reflexivity. Qed.

(** Closing the outermost container finishes the top-level value. *)
Lemma close_top (b : builder) :
  length (stack b) = 1%nat -> lit b = None ->
  is_Some (top (close b)) /\ stack (close b) = [] /\ lit (close b) = None.
Proof.
  intros Hlen Hlit. destruct b as [[|f [|g r]] l t]; cbn in *; try discriminate.
  subst l. destruct f; cbn; eauto.
Qed.

Lemma deliver_lit (v : value) (b : builder) : lit (deliver v b) = lit b.
Proof. unfold deliver. repeat case_match; reflexivity. Qed.

Lemma flush_lit (b : builder) : lit (flush b) = None.
Proof.
  unfold flush. destruct (lit b) eqn:Hl; [| exact Hl].
  rewrite deliver_lit. reflexivity.
Qed.

Lemma close_stack (b : builder) :
  S (length (stack (close b))) = length (stack b) \/ stack b = [].
Proof.
  unfold close. destruct (stack b) as [|[ms k | vs] r] eqn:Hs; [now right | |];
    left; rewrite deliver_stack; reflexivity.
Qed.

(** The walk over the bytes of a delimited object or array ends with the
    top-level value in hand. *)
Lemma walk_delimited (data : string) :
  forall (s : scanner) (b : builder) (seen : bool) (scanp n : Z),
    inValue s -> length (stack b) = length (parseState s) ->
    readLoop s seen scanp data = Ok n ->
    is_Some (top (walk s b (String.substring 0 (Z.to_nat (n - scanp)) data))).
Proof.
  induction data as [|c data IH]; intros s b seen scanp n Hin Hdepth H.
  - cbn [readLoop] in H.
    destruct (scan_step s " ") as [s1 op] eqn:Hstep.
    pose proof (scan_step_inValue _ _ _ _ Hin Hstep) as Hpost.
    destruct op; cbn in H; try contradiction; destruct seen; discriminate.
  - destruct (readLoop_trailing _ _ _ _ _ Hin H) as [Hb _].
    cbn [readLoop] in H. cbv zeta in H.
    destruct (scan_step (addByte s) c) as [s1 op] eqn:Hstep.
    pose proof (scan_step_inValue _ _ _ _ (inValue_addByte _ Hin) Hstep)
      as Hpost.
    pose proof (scan_step_depth _ _ _ _ (inValue_addByte _ Hin) Hstep)
      as Hd.
    cbn [addByte parseState] in Hd.
    assert (Hgo : forall s' b',
              inValue s' -> length (stack b') = length (parseState s') ->
              readLoop s' (seen || negb (isSpace c)) (scanp + 1) data = Ok n ->
              s' = s1 -> b' = build b c op ->
              is_Some (top (walk s b
                (String.substring 0 (Z.to_nat (n - scanp)) (String c data))))).
    { intros s' b' Hin' Hdepth' Hr -> ->.
      destruct (readLoop_trailing _ _ _ _ _ Hin' Hr) as [Hb' _].
      replace (Z.to_nat (n - scanp)) with (S (Z.to_nat (n - (scanp + 1))))
        by lia.
      cbn [String.substring walk]. rewrite Hstep.
      eapply IH; eassumption. }
    assert (Hclose :
      (let (s2, op2) := do_stateEndValue s1 " " in
       if opcode_eqb op2 scanEnd then Ok (scanp + 1)
       else readLoop s2 (seen || negb (isSpace c)) (scanp + 1) data) = Ok n ->
      S (length (parseState s1)) = length (parseState s) ->
      build b c op = close (flush b) ->
      (parseState s1 = [] /\ step s1 = stateEndTop)
      \/ (inValue s1 /\ step s1 = stateEndValue) ->
      is_Some (top (walk s b
        (String.substring 0 (Z.to_nat (n - scanp)) (String c data))))).
    { intros Hr Hd' Hbuild [[Hps Hst] | [[Hps Hst] Hstep']].
      - unfold do_stateEndValue in Hr. rewrite Hps in Hr. cbn in Hr.
        injection Hr as <-.
        replace (Z.to_nat (scanp + 1 - scanp)) with 1%nat by lia.
        cbn [String.substring walk]. rewrite Hstep.
        assert (String.substring 0 0 data = EmptyString) as ->
          by (destruct data; reflexivity).
        cbn [walk]. rewrite Hbuild.
        rewrite Hps in Hd'. cbn in Hd'.
        destruct (close_top (flush b)) as (Htop & Hstack & Hlit).
        + rewrite flush_stack. lia.
        + apply flush_lit.
        + unfold flush at 1. rewrite Hlit. exact Htop.
      - assert (Hs2 : do_stateEndValue s1 " " = (s1, scanSkipSpace)).
        { unfold do_stateEndValue.
          destruct (parseState s1) as [|p ps] eqn:Hp; [congruence |].
          cbn. destruct s1; cbn in *. subst. reflexivity. }
        rewrite Hs2 in Hr. cbn in Hr.
        eapply Hgo; [| | exact Hr | reflexivity | reflexivity].
        + split; assumption.
        + rewrite Hbuild.
          destruct (close_stack (flush b)) as [Hc | Hc].
          * rewrite flush_stack in Hc. lia.
          * pose proof (flush_stack b) as Hf. rewrite Hc in Hf. cbn in Hf.
            destruct (parseState s1); [congruence | cbn in Hd'; lia]. }
    destruct op; try contradiction;
      try (destruct (err s1); discriminate);
      try (apply Hclose; auto; fail);
      (eapply Hgo; [exact Hpost | | exact H | reflexivity | reflexivity]);
      cbn [build]; unfold push; try destruct (lit b); cbn [stack length];
      rewrite ?flush_stack; lia.
Qed.

End Scanner.

Section Decoder.

Import json.

(** The scanner after the opening brace of a top-level object. *)
Lemma readValue_brace (rest : string) :
  exists s : scanner,
    inValue s
    /\ forall tail : string,
         readValue (String "{" rest +:+ tail)
         = readLoop s true 1 (rest +:+ tail).
Proof.
  eexists. split; [| intros tail; reflexivity].
  split; cbn; discriminate.
Qed.

Lemma append_nil_r (s : string) : s +:+ EmptyString = s.
Proof.
  induction s as [|a s IH]; [reflexivity |].
  rewrite append_String, IH. reflexivity.
Qed.

Lemma substring_append (s tail : string) (n : nat) :
  (n <= String.length s)%nat ->
  String.substring 0 n (s +:+ tail) = String.substring 0 n s.
Proof.
  revert n. induction s as [|a s IH]; intros n Hn.
  - cbn in Hn. assert (n = 0%nat) as -> by lia.
    destruct tail; reflexivity.
  - rewrite append_String. destruct n as [|n]; [reflexivity |].
    cbn in *. f_equal. apply IH. lia.
Qed.

(** The value delimited in a text that starts with a brace does not depend
    on the bytes after the value. *)
Lemma readValue_trailing (rest : string) (n : Z) :
  readValue (String "{" rest) = Ok n ->
  0 <= n <= strings.len (String "{" rest)
  /\ forall tail : string, readValue (String "{" rest +:+ tail) = Ok n.
Proof.
  intros H. destruct (readValue_brace rest) as (s & Hin & Heq).
  pose proof (Heq EmptyString) as H0. rewrite !append_nil_r in H0.
  rewrite H0 in H.
  destruct (readLoop_trailing _ _ _ _ _ Hin H) as [Hb Ht].
  rewrite len_String. split; [lia |].
  intros tail. rewrite Heq. apply Ht.
Qed.

Lemma Decode_trailing (rest tail : string) (n : Z) (info : FundInfo) :
  readValue (String "{" rest) = Ok n ->
  Decode (String "{" rest +:+ tail) info = Decode (String "{" rest) info.
Proof.
  intros H. destruct (readValue_trailing _ _ H) as [Hb Ht].
  unfold Decode. rewrite Ht, H.
  rewrite substring_append; [reflexivity |]. unfold strings.len in Hb. lia.
Qed.

(** A complete JSON object followed by any bytes decodes as the object
    alone. *)
Lemma Decode_complete (rest tail : string) (info : FundInfo) :
  readValue (String "{" rest) = Ok (strings.len (String "{" rest)) ->
  Decode (String "{" rest +:+ tail) info = unmarshal (String "{" rest) info.
Proof.
  intros H. rewrite (Decode_trailing _ _ _ _ H). unfold Decode. rewrite H.
  unfold strings.len. rewrite Nat2Z.id, substring_all by lia. reflexivity.
Qed.

(** The bytes delimited in a text that starts with a brace hold a whole
    JSON value: the walk over them ends with that value. *)
Lemma valueOf_delimited (rest : string) (n : Z) :
  readValue (String "{" rest) = Ok n ->
  is_Some
    (top (walk reset {| stack := []; lit := None; top := None |}
            (String.substring 0 (Z.to_nat n) (String "{" rest)))).
Proof.
  intros H. destruct (readValue_trailing _ _ H) as [Hb _].
  set (s1 := fst (scan_step (addByte reset) "{")).
  assert (Hin : inValue s1) by (split; cbn; discriminate).
  assert (Hloop : readLoop s1 true 1 rest = Ok n) by exact H.
  destruct (readLoop_trailing _ _ _ _ _ Hin Hloop) as [Hb1 _].
  replace (Z.to_nat n) with (S (Z.to_nat (n - 1))) by lia.
  cbn [String.substring walk].
  change (scan_step (addByte reset) "{") with (s1, scanBeginObject).
  cbv iota beta.
  eapply walk_delimited; [exact Hin | reflexivity | exact Hloop].
Qed.

(** *** The errors of the decoder *)

Lemma saveError_type (e : error) (saved : option error) :
  typeError e -> typeErrorOpt saved -> typeErrorOpt (saveError e saved).
Proof. destruct saved; cbn; auto. Qed.

Lemma storeString_type (v : value) (old : string) (saved : option error) :
  typeErrorOpt saved -> typeErrorOpt (snd (storeString v old saved)).
Proof.
  intros H. destruct v; cbn; try assumption; apply saveError_type;
    try assumption; exact I.
Qed.

Lemma storeInt_type (v : value) (old : Z) (saved : option error) :
  typeErrorOpt saved -> typeErrorOpt (snd (storeInt v old saved)).
Proof.
  intros H. destruct v; cbn; try assumption;
    try (apply saveError_type; [exact I | assumption]).
  case_match; cbn; [assumption |].
  apply saveError_type; [exact I | assumption].
Qed.

Lemma fold_left_type {A B : Type} (f : A * option error -> B -> A * option error)
    (l : list B) (acc : A * option error) :
  (forall acc m, typeErrorOpt (snd acc) -> typeErrorOpt (snd (f acc m))) ->
  typeErrorOpt (snd acc) -> typeErrorOpt (snd (fold_left f l acc)).
Proof.
  intros Hf. revert acc. induction l as [|m l IH]; intros acc H; cbn;
    [assumption | apply IH, Hf, H].
Qed.

Lemma storeFundDetail_type (v : value) (old : FundDetail)
    (saved : option error) :
  typeErrorOpt saved -> typeErrorOpt (snd (storeFundDetail v old saved)).
Proof.
  intros H. destruct v; cbn; try assumption;
    try (apply saveError_type; [exact I | assumption]).
  apply fold_left_type; [| assumption].
  intros [d sv] m Hsv. unfold storeDetailMember.
  destruct (existsb _ _); [| assumption].
  pose proof (storeString_type (snd m) (getDetail (keyName (fst m)) d) sv Hsv).
  destruct (storeString _ _ _). assumption.
Qed.

Lemma storeList_type (v : value) (old : list FundDetail)
    (saved : option error) :
  typeErrorOpt saved -> typeErrorOpt (snd (storeList v old saved)).
Proof.
  intros H. destruct v; cbn; try assumption;
    try (apply saveError_type; [exact I | assumption]).
  apply fold_left_type; [| assumption].
  intros acc item Hsv.
  pose proof (storeFundDetail_type item zeroFundDetail (snd acc) Hsv).
  destruct (storeFundDetail _ _ _). assumption.
Qed.

Lemma storeFundDetails_type (v : value) (old : FundDetails)
    (saved : option error) :
  typeErrorOpt saved -> typeErrorOpt (snd (storeFundDetails v old saved)).
Proof.
  intros H. destruct v; cbn; try assumption;
    try (apply saveError_type; [exact I | assumption]).
  apply fold_left_type; [| assumption].
  intros [d sv] m Hsv. unfold storeDetailsMember.
  pose proof (storeList_type (snd m) (LSJZList d) sv Hsv).
  pose proof (storeString_type (snd m) (FundType d) sv Hsv).
  pose proof (storeString_type (snd m) (SYType d) sv Hsv).
  pose proof (storeString_type (snd m) (Feature d) sv Hsv).
  repeat case_match; assumption.
Qed.

Lemma storeFundInfo_type (v : value) (old : FundInfo) (saved : option error) :
  typeErrorOpt saved -> typeErrorOpt (snd (storeFundInfo v old saved)).
Proof.
  intros H. destruct v; cbn; try assumption;
    try (apply saveError_type; [exact I | assumption]).
  apply fold_left_type; [| assumption].
  intros [i sv] m Hsv. unfold storeInfoMember.
  pose proof (storeFundDetails_type (snd m) (Data i) sv Hsv).
  pose proof (storeInt_type (snd m) (getInt (keyName (fst m)) i) sv Hsv).
  pose proof (storeString_type (snd m) (ErrMsg i) sv Hsv).
  pose proof (storeString_type (snd m) (Expansion i) sv Hsv).
  repeat case_match; assumption.
Qed.

Lemma typeErrorOpt_json (o : option error) : typeErrorOpt o -> jsonErrorOpt o.
Proof. destruct o as [[]|]; cbn; auto. Qed.

(** The error of [unmarshal], if any, is a type mismatch. *)
Lemma unmarshal_type (item : string) (info : FundInfo) :
  typeErrorOpt (snd (unmarshal item info)).
Proof. apply storeFundInfo_type. exact I. Qed.

(** Whatever [Decode] returns as its error is a syntax error, an
    unexpected end of the input, or a type mismatch. *)
Lemma Decode_json (data : string) (info : FundInfo) :
  jsonErrorOpt (snd (Decode data info)).
Proof.
  unfold Decode. destruct (readValue data) as [n | e] eqn:H.
  - apply typeErrorOpt_json, unmarshal_type.
  - cbn. eapply readLoop_error; [| exact H]. exact I.
Qed.

(** [Decode] fails either because the scanner rejects the text or because
    a value of the delimited JSON does not fit the Go type it is aimed at. *)
Lemma Decode_failure (data : string) (info : FundInfo) (e : error) :
  snd (Decode data info) = Some e ->
  readValue data = Err e
  \/ (exists (n : Z) (v ty : string),
        readValue data = Ok n /\ e = UnmarshalTypeError v ty).
Proof.
  unfold Decode. destruct (readValue data) as [n | e'] eqn:H; intros He.
  - right. pose proof (unmarshal_type (String.substring 0 (Z.to_nat n) data) info) as Ht.
    rewrite He in Ht. destruct e; cbn in Ht; try contradiction. eauto.
  - left. cbn in He. congruence.
Qed.

End Decoder.

(** ** The HTTP fetcher *)

Section Fetcher.

Context (E : Externals).

#[local] Abbreviation W := (World (URL E) (Time E) (float64 E)).

(** The loop with [cnt] attempts left, one attempt unfolded. *)
Lemma getHttpResponse_loop_step (cnt : nat) (u : URL E) (err : option error)
    (w : W) :
  getHttpResponse_loop E (S cnt) u err w =
  if failed (http_Do E w u)
  then getHttpResponse_loop E cnt u (Some (tagged E u (http_Do E w u)))
         (requested E u w)
  else (Returns (answer (http_Do E w u)), requested E u w).
Proof.
  cbn [getHttpResponse_loop]. unfold bind, Do, requested.
  destruct (http_Do E w u) as [resp | e]; cbn [failed tagged answer].
  - destruct (negb (StatusCode resp =? 200)); reflexivity.
  - reflexivity.
Qed.

(** The loop makes at most [cnt] requests, all for the same URL, and
    touches nothing else of the world. *)
Lemma getHttpResponse_loop_requests (cnt : nat) (u : URL E)
    (err : option error) (w : W) :
  exists k : nat,
    (k <= cnt)%nat
    /\ requests (snd (getHttpResponse_loop E cnt u err w))
       = replicate k u ++ requests w
    /\ writes (snd (getHttpResponse_loop E cnt u err w)) = writes w
    /\ logs (snd (getHttpResponse_loop E cnt u err w)) = logs w
    /\ slept (snd (getHttpResponse_loop E cnt u err w)) = slept w.
Proof.
  revert err w. induction cnt as [|cnt IH]; intros err w.
  - exists 0%nat. cbn. auto.
  - rewrite getHttpResponse_loop_step.
    destruct (failed (http_Do E w u)).
    + destruct (IH (Some (tagged E u (http_Do E w u))) (requested E u w))
        as (k & Hk & Hr & Hw & Hl & Hs).
      exists (S k). rewrite Hr, Hw, Hl, Hs. cbn.
      repeat split; try lia.
      change (u :: requests w) with ([u] ++ requests w).
      rewrite app_assoc. f_equal.
      clear. induction k; cbn; [reflexivity | now f_equal].
    + exists 1%nat. cbn. repeat split; lia.
Qed.

(** The loop never panics, and it returns a response or an error, never
    neither, once an error is in [err] or an attempt is left. *)
Lemma getHttpResponse_loop_returns (cnt : nat) (u : URL E)
    (err : option error) (w : W) :
  (cnt <> 0%nat \/ err <> None) ->
  (exists resp, fst (getHttpResponse_loop E cnt u err w)
                = Returns (Some resp, None))
  \/ (exists e, fst (getHttpResponse_loop E cnt u err w)
                = Returns (None, Some e)).
Proof.
  revert err w. induction cnt as [|cnt IH]; intros err w Hne.
  - destruct Hne as [? | Hne]; [congruence |].
    destruct err as [e|]; [| congruence]. right. exists e. reflexivity.
  - rewrite getHttpResponse_loop_step.
    destruct (http_Do E w u) as [resp | e] eqn:Hdo; cbn [failed].
    + destruct (negb (StatusCode resp =? 200)).
      * apply IH. right. discriminate.
      * left. exists resp. reflexivity.
    + apply IH. right. discriminate.
Qed.

(** A call makes at most three requests. *)
Lemma getHttpResponse_request_bound (u : string) (w : W) :
  (length (requests (snd (getHttpResponse E u w)))
   <= length (requests w) + 3)%nat.
Proof.
  unfold getHttpResponse. destruct (url_Parse E u) as [fundUrl | e].
  - destruct (getHttpResponse_loop_requests 3 fundUrl None w)
      as (k & Hk & Hr & _).
    rewrite Hr, length_app, length_replicate. lia.
  - cbn. lia.
Qed.

(** C7.  [getHttpResponse] makes at most three attempts.  When the URL does
    not parse it makes none and returns the parser's error.  Otherwise it
    returns the response of the first attempt that succeeds with status
    200, having made no attempt after it; when all three attempts fail it
    returns the error of the third, which carries the URL and the status or
    the transport error, and has made exactly three requests. *)
Theorem getHttpResponse_three_attempts (u : string) (w : W) :
  (length (requests (snd (getHttpResponse E u w)))
   <= length (requests w) + 3)%nat
  /\ match url_Parse E u with
     | Err err => getHttpResponse E u w = (Returns (None, Some err), w)
     | Ok fundUrl =>
         let w1 := requested E fundUrl w in
         let w2 := requested E fundUrl w1 in
         let w3 := requested E fundUrl w2 in
         let r1 := http_Do E w fundUrl in
         let r2 := http_Do E w1 fundUrl in
         let r3 := http_Do E w2 fundUrl in
         getHttpResponse E u w =
         if negb (failed r1) then (Returns (answer r1), w1)
         else if negb (failed r2) then (Returns (answer r2), w2)
         else if negb (failed r3) then (Returns (answer r3), w3)
         else (Returns (None, Some (tagged E fundUrl r3)), w3)
     end.
Proof.
  split; [apply getHttpResponse_request_bound |].
  unfold getHttpResponse. destruct (url_Parse E u) as [fundUrl | e];
    [| reflexivity].
  cbv zeta. rewrite !getHttpResponse_loop_step.
  destruct (failed (http_Do E w fundUrl)); [| reflexivity].
  destruct (failed (http_Do E (requested E fundUrl w) fundUrl));
    [| reflexivity].
  destruct (failed (http_Do E (requested E fundUrl (requested E fundUrl w))
                      fundUrl)); reflexivity.
Qed.

End Fetcher.

(** ** The catalog parser *)

Section Catalog.

Context (E : Externals).

#[local] Abbreviation W := (World (URL E) (Time E) (float64 E)).

(** The loop fills the slots after [done] from the tuples: a tuple with
    five fields gives its node, any other tuple leaves the zero node that
    [make] put there. *)
Lemma getNodeList_loop_slots (lists : list string) (done : list FundNode)
    (w : W) :
  getNodeList_loop E (length done) lists
    (done ++ replicate (length lists) zeroFundNode) w
  = (Returns (done ++ map slotOf lists), loggedAll E (warnings lists) w).
Proof.
  revert done w. induction lists as [|list rest IH]; intros done w.
  - cbn. rewrite !app_nil_r. destruct w; reflexivity.
  - cbn [getNodeList_loop length replicate map warnings].
    unfold slotOf at 1. unfold fiveFields at 1 2.
    destruct (length (strings.Split list (quoted "','")) =? 5)%nat eqn:H5;
      cbn [negb].
    + rewrite insert_app_r_alt by lia. rewrite Nat.sub_diag. cbn [insert list_insert].
      specialize (IH (done ++ [nodeOf (strings.Split list (quoted "','"))]) w).
      rewrite length_app in IH. cbn [length] in IH.
      replace (length done + 1)%nat with (S (length done)) in IH by lia.
      rewrite <- !app_assoc in IH. cbn [app] in IH.
      rewrite IH, app_nil_r. reflexivity.
    + unfold bind, log.
      specialize (IH (done ++ [zeroFundNode]) (logged E (warning list) w)).
      rewrite length_app in IH. cbn [length] in IH.
      replace (length done + 1)%nat with (S (length done)) in IH by lia.
      rewrite <- !app_assoc in IH. cbn [app] in IH.
      etrans; [apply IH |].
      unfold loggedAll, logged. cbn. rewrite <- app_assoc. reflexivity.
Qed.

Lemma getNodeList_parse_cases (body : string) (w : W) :
  let full :=
    strings.TrimSpace
      (json.drop (Z.to_nat (strings.Index body "=" + 1)) body) in
  getNodeList_parse E body w =
  if strings.len full <? 4 then (Panics "slice bounds out of range", w)
  else
    let lists :=
      strings.Split
        (String.substring 1 (Z.to_nat (strings.len full - 4)) full) "]," in
    (Returns (map slotOf lists, None), loggedAll E (warnings lists) w).
Proof.
  cbv zeta. unfold getNodeList_parse.
  rewrite slice_from_inside
    by (destruct (Index_range body "=") as [-> | ?];
        pose proof (len_nonneg body); change (strings.len "=") with 1 in *;
        lia).
  unfold bind at 1. cbn [sliced ret].
  set (full := strings.TrimSpace _).
  unfold strings.slice. pose proof (len_nonneg full) as Hlen.
  destruct (strings.len full <? 4) eqn:H4.
  - apply Z.ltb_lt in H4.
    replace (1 <=? strings.len full - 3) with false by (symmetry; apply Z.leb_gt; lia).
    reflexivity.
  - apply Z.ltb_ge in H4.
    replace (1 <=? strings.len full - 3) with true by (symmetry; apply Z.leb_le; lia).
    replace (strings.len full - 3 <=? strings.len full) with true
      by (symmetry; apply Z.leb_le; lia).
    cbn [andb Z.leb Z.compare sliced]. unfold bind at 1. cbn [ret].
    replace (strings.len full - 3 - 1) with (strings.len full - 4) by lia.
    set (lists := strings.Split _ _).
    unfold bind.
    pose proof (getNodeList_loop_slots lists [] w) as Hloop.
    cbn [length app] in Hloop. rewrite Hloop. reflexivity.
Qed.

(** What [getNodeList] does once the catalog was fetched. *)
Lemma getNodeList_fetched (w w1 : W) (resp : Response) :
  getHttpResponse E catalogURL w = (Returns (Some resp, None), w1) ->
  getNodeList E w = getNodeList_parse E (Body resp) w1.
Proof. intros H. unfold getNodeList, bind. rewrite H. reflexivity. Qed.

(** C2.  When the catalog request is answered with the well-formed payload
    of two tuples, [getNodeList] returns exactly two records, without an
    error and without a warning, whose five fields are the fields of the
    tuples, in the order of the payload. *)
Theorem getNodeList_wellformed_payload (w w1 : W) (resp : Response) :
  getHttpResponse E catalogURL w = (Returns (Some resp, None), w1) ->
  Body resp = Payload.catalog2 ->
  getNodeList E w = (Returns ([Payload.alpha; Payload.beta], None), w1).
Proof.
  intros Hfetch Hbody.
  rewrite (getNodeList_fetched _ _ _ Hfetch), Hbody, getNodeList_parse_cases.
  destruct w1. vm_compute. reflexivity.
Qed.

(** C1.  [getNodeList] returns one record per tuple of the payload, not one
    per tuple with five fields: a tuple that does not split into five
    fields is logged and passed over, and the slot that [make] reserved for
    it keeps the zero [FundNode].  With N tuples of which one has four
    fields the result has N records, among them a record of five empty
    strings. *)
Theorem getNodeList_one_record_per_tuple (w w1 : W) (resp : Response)
    (rest : string) :
  getHttpResponse E catalogURL w = (Returns (Some resp, None), w1) ->
  afterFirst "=" (Body resp) rest ->
  4 <= strings.len (strings.TrimSpace rest) ->
  let full := strings.TrimSpace rest in
  let lists :=
    strings.Split
      (String.substring 1 (Z.to_nat (strings.len full - 4)) full) "]," in
  getNodeList E w
  = (Returns (map slotOf lists, None), loggedAll E (warnings lists) w1)
  /\ length (map slotOf lists) = length lists
  /\ (forall (i : nat) (list : string),
        lists !! i = Some list -> fiveFields list = false ->
        map slotOf lists !! i = Some zeroFundNode)
  /\ (forall (i : nat) (list : string),
        lists !! i = Some list -> fiveFields list = true ->
        map slotOf lists !! i
        = Some (nodeOf (strings.Split list (quoted "','")))).
Proof.
  intros Hfetch Hrest Hlen. cbv zeta.
  rewrite (getNodeList_fetched _ _ _ Hfetch), getNodeList_parse_cases.
  cbv zeta. rewrite (afterFirst_drop _ _ Hrest).
  apply Z.ltb_ge in Hlen. rewrite Hlen.
  split; [reflexivity |]. split; [apply length_map |].
  split; intros i list Hi H5; rewrite list_lookup_fmap, Hi; cbn;
    unfold slotOf; rewrite H5; reflexivity.
Qed.

(** C10.  [getNodeList] slices [s[1:len(s)-3]] without a length guard:
    when what follows the first [=] of the body (the whole body when it
    has no [=]) is, once trimmed, shorter than four bytes, the call panics
    with a slice out of range instead of returning an error; from four
    bytes on it returns a list and no error. *)
Theorem getNodeList_short_body_panics (w w1 : W) (resp : Response)
    (rest : string) :
  getHttpResponse E catalogURL w = (Returns (Some resp, None), w1) ->
  afterFirst "=" (Body resp) rest ->
  (strings.len (strings.TrimSpace rest) < 4 ->
   getNodeList E w = (Panics "slice bounds out of range", w1))
  /\ (4 <= strings.len (strings.TrimSpace rest) ->
      exists nodeList w2, getNodeList E w = (Returns (nodeList, None), w2)).
Proof.
  intros Hfetch Hrest.
  rewrite (getNodeList_fetched _ _ _ Hfetch), getNodeList_parse_cases.
  cbv zeta. rewrite (afterFirst_drop _ _ Hrest). split; intros Hlen.
  - apply Z.ltb_lt in Hlen. rewrite Hlen. reflexivity.
  - apply Z.ltb_ge in Hlen. rewrite Hlen. eauto.
Qed.

End Catalog.

(** The well-formed payload, run. *)
Lemma getNodeList_wellformed_payload_witness :
  getHttpResponse (Script.env (Script.always Payload.catalog2)) catalogURL
    Script.start
  = (Returns
       (Some {| StatusCode := 200; Body := Payload.catalog2;
                ReadErr := None |}, None),
     requested (Script.env (Script.always Payload.catalog2)) catalogURL
       Script.start)
  /\ getNodeList (Script.env (Script.always Payload.catalog2)) Script.start
     = (Returns ([Payload.alpha; Payload.beta], None),
        requested (Script.env (Script.always Payload.catalog2)) catalogURL
          Script.start).
Proof.
  split; [reflexivity |].
  apply (getNodeList_wellformed_payload
           (Script.env (Script.always Payload.catalog2)) Script.start _
           {| StatusCode := 200; Body := Payload.catalog2; ReadErr := None |});
    reflexivity.
Defined.

(** The payload of three tuples whose second has four fields, run: three
    records come back, the second one empty, and one warning is logged. *)
Lemma getNodeList_one_record_per_tuple_witness :
  getNodeList (Script.env (Script.always Payload.catalog3)) Script.start
  = (Returns ([Payload.alpha; zeroFundNode; Payload.gamma], None),
     logged (Script.env (Script.always Payload.catalog3))
       (warning (quoted "['002','B','Beta','T2'"))
       (requested (Script.env (Script.always Payload.catalog3)) catalogURL
          Script.start)).
Proof.
  exact (proj1
    (getNodeList_one_record_per_tuple
       (Script.env (Script.always Payload.catalog3)) Script.start
       (requested (Script.env (Script.always Payload.catalog3)) catalogURL
          Script.start)
       {| StatusCode := 200; Body := Payload.catalog3; ReadErr := None |}
       (quoted " [['001','A','Alpha','T1','a'],['002','B','Beta','T2'],['003','C','Gamma','T3','c']];")
       eq_refl
       (or_intror (ex_intro _ "var r " (conj eq_refl eq_refl)))
       ltac:(vm_compute; discriminate))).
Defined.

(** A body whose text after the [=] is three bytes long, run. *)
Lemma getNodeList_short_body_panics_witness :
  getNodeList (Script.env (Script.always "var r = [];")) Script.start
  = (Panics "slice bounds out of range",
     requested (Script.env (Script.always "var r = [];")) catalogURL
       Script.start).
Proof.
  refine (proj1
    (getNodeList_short_body_panics
       (Script.env (Script.always "var r = [];")) Script.start
       (requested (Script.env (Script.always "var r = [];")) catalogURL
          Script.start)
       {| StatusCode := 200; Body := "var r = [];"; ReadErr := None |}
       " [];" eq_refl
       (or_intror (ex_intro _ "var r " (conj eq_refl eq_refl)))) _).
  vm_compute. reflexivity.
Defined.


(** ** The history parser *)

Section History.

Context (E : Externals).

#[local] Abbreviation W := (World (URL E) (Time E) (float64 E)).

(** A body with a brace is decoded from its first brace on. *)
Lemma parseFund_from_brace (resp : Response) (pre rest : string) (w : W) :
  ReadErr resp = None ->
  Body resp = pre +:+ String "{" rest ->
  occurs "{" pre = false ->
  parseFund E (Some resp) w
  = (Returns (json.Decode (String "{" rest) zeroFundInfo), w).
Proof.
  intros Hread Hbody Hpre. unfold parseFund. rewrite Hread, Hbody.
  rewrite (Index_byte_first _ _ _ Hpre).
  pose proof (len_nonneg pre) as Hlen.
  destruct (strings.len pre =? -1) eqn:Hneg; [apply Z.eqb_eq in Hneg; lia |].
  rewrite slice_from_inside.
  - unfold strings.len. rewrite Nat2Z.id, drop_append. reflexivity.
  - unfold strings.len. rewrite length_append. lia.
Qed.

(** A body without a brace is refused. *)
Lemma parseFund_no_brace (resp : Response) (w : W) :
  ReadErr resp = None ->
  occurs "{" (Body resp) = false ->
  parseFund E (Some resp) w
  = (Returns (zeroFundInfo, Some InvalidResponseBody), w).
Proof.
  intros Hread Hno. unfold parseFund.
  rewrite Hread, (Index_byte_absent _ _ Hno). reflexivity.
Qed.

(** C3, as the code has it.  For a body that was read without error,
    [parseFund] fails with the malformed-response error exactly when the
    body has no brace.  Otherwise it never panics and returns what the
    decoder makes of the text from the first brace on: the bytes before
    that brace play no part, and when that text starts with a complete
    JSON object the bytes after the object play no part either.  Its
    failures are then the decoder's: the scanner rejecting the text, or a
    value of well-formed JSON that does not fit the Go type of its field. *)
Theorem parseFund_envelope (resp : Response) (w : W) :
  ReadErr resp = None ->
  ((exists info w',
      parseFund E (Some resp) w = (Returns (info, Some InvalidResponseBody), w'))
   <-> occurs "{" (Body resp) = false)
  /\ (forall pre rest : string,
        Body resp = pre +:+ String "{" rest -> occurs "{" pre = false ->
        parseFund E (Some resp) w
        = (Returns (json.Decode (String "{" rest) zeroFundInfo), w))
  /\ (forall pre rest tail : string,
        Body resp = pre +:+ (String "{" rest +:+ tail) ->
        occurs "{" pre = false ->
        json.readValue (String "{" rest)
        = Ok (strings.len (String "{" rest)) ->
        parseFund E (Some resp) w
        = (Returns (json.unmarshal (String "{" rest) zeroFundInfo), w))
  /\ (forall (info : FundInfo) (e : error) (w' : W),
        parseFund E (Some resp) w = (Returns (info, Some e), w') ->
        (e = InvalidResponseBody /\ occurs "{" (Body resp) = false)
        \/ (exists pre rest : string,
              Body resp = pre +:+ String "{" rest
              /\ occurs "{" pre = false
              /\ (json.readValue (String "{" rest) = Err e
                  \/ (exists (n : Z) (v ty : string),
                        json.readValue (String "{" rest) = Ok n
                        /\ e = UnmarshalTypeError v ty)))).
Proof.
  intros Hread. repeat split.
  - intros (info & w' & H).
    destruct (occurs "{" (Body resp)) eqn:Hocc; [| reflexivity].
    destruct (occurs_split _ _ Hocc) as (pre & rest & Hbody & Hpre).
    rewrite (parseFund_from_brace _ _ _ _ Hread Hbody Hpre) in H.
    pose proof (Decode_json (String "{" rest) zeroFundInfo) as Hj.
    injection H as H _. rewrite H in Hj. contradiction.
  - intros Hno. exists zeroFundInfo, w. now apply parseFund_no_brace.
  - intros pre rest Hbody Hpre. now apply (parseFund_from_brace _ pre).
  - intros pre rest tail Hbody Hpre Hval.
    assert (Hbody' : Body resp = pre +:+ String "{" (rest +:+ tail))
      by (rewrite Hbody; reflexivity).
    rewrite (parseFund_from_brace _ _ _ _ Hread Hbody' Hpre).
    change (String "{" (rest +:+ tail)) with (String "{" rest +:+ tail).
    rewrite (Decode_complete _ _ _ Hval). reflexivity.
  - intros info e w' H.
    destruct (occurs "{" (Body resp)) eqn:Hocc.
    + destruct (occurs_split _ _ Hocc) as (pre & rest & Hbody & Hpre).
      rewrite (parseFund_from_brace _ _ _ _ Hread Hbody Hpre) in H.
      injection H as H _.
      assert (Hsnd : snd (json.Decode (String "{" rest) zeroFundInfo) = Some e)
        by (rewrite H; reflexivity).
      right. exists pre, rest. split; [exact Hbody |]. split; [exact Hpre |].
      exact (Decode_failure _ _ _ Hsnd).
    + rewrite (parseFund_no_brace _ _ Hread Hocc) in H.
      injection H as _ H _. left. split; congruence.
Qed.

End History.

(** The body of the specification's example, with its callback prefix and
    its closing parenthesis, run. *)
Lemma parseFund_envelope_witness :
  parseFund (Script.env (Script.always Payload.history1))
    (Some {| StatusCode := 200; Body := Payload.history1; ReadErr := None |})
    Script.start
  = (Returns (Payload.envelope1, None), Script.start).
Proof.
  exact (proj1 (proj2 (proj2
    (parseFund_envelope (Script.env (Script.always Payload.history1))
       {| StatusCode := 200; Body := Payload.history1; ReadErr := None |}
       Script.start eq_refl)))
    "jQuery123("
    (quoted "'ErrCode':0,'ErrMsg':'','TotalCount':1,'Data':{'LSJZList':[{'FSRQ':'2024-01-02','DWJZ':'1.234','LJJZ':'2.345','JZZZL':'0.12'}]}}")
    ")" eq_refl eq_refl eq_refl).
Defined.

(** C3 as stated does not hold: the text from the first brace of this body
    is a complete and well-formed JSON object, and still the decode fails,
    because [ErrCode] is an [int] and the object gives it a string. *)
Lemma parseFund_wellformed_json_fails :
  json.readValue (quoted "{'ErrCode':'x'}")
  = Ok (strings.len (quoted "{'ErrCode':'x'}"))
  /\ parseFund (Script.env (Script.always Payload.historyTypeMismatch))
       (Some {| StatusCode := 200; Body := Payload.historyTypeMismatch;
                ReadErr := None |})
       Script.start
     = (Returns (zeroFundInfo, Some (UnmarshalTypeError "string" "int")),
        Script.start).
Proof. split; vm_compute; reflexivity. Qed.

(** ** The point builder and the sink *)

Section Sink.

Context (E : Externals).

#[local] Abbreviation W := (World (URL E) (Time E) (float64 E)).
#[local] Abbreviation point := (Point (Time E) (float64 E)).
#[local] Abbreviation batch := (BatchPoints (Time E) (float64 E)).

Lemma addFloat_lookup (key src k : string)
    (fields : gmap string (FieldValue (float64 E))) :
  addFloat E key src fields !! k
  = if decide (key = k)
    then match strconv_ParseFloat E src with
         | Ok v => Some (FFloat v)
         | Err _ => fields !! k
         end
    else fields !! k.
Proof.
  unfold addFloat. destruct (strconv_ParseFloat E src) as [v | e].
  - rewrite lookup_insert. reflexivity.
  - destruct (decide (key = k)); reflexivity.
Qed.

(** The field map of a record, key by key. *)
Lemma fieldsOf_lookup (fund : FundDetail) (k : string) :
  fieldsOf E fund !! k
  = if decide (k = "NAVTYPE") then Some (FString (NAVTYPE fund))
    else if decide (k = "SGZT") then Some (FString (SGZT fund))
    else if decide (k = "SHZT") then Some (FString (SHZT fund))
    else if decide (k = "DWJZ")
         then floatField E (strconv_ParseFloat E (DWJZ fund))
    else if decide (k = "LJJZ")
         then floatField E (strconv_ParseFloat E (LJJZ fund))
    else if decide (k = "JZZZL")
         then floatField E (strconv_ParseFloat E (JZZZL fund))
    else None.
Proof.
  unfold fieldsOf, floatField. rewrite !addFloat_lookup, !lookup_insert.
  rewrite lookup_empty.
  repeat (case_decide; simplify_eq; try reflexivity);
    repeat case_match; reflexivity.
Qed.

(** One turn of the loop of [sink] for a record whose date parses: the
    outcome is that of [client.NewPoint] on the point of the record. *)
Lemma sink_loop_step (tags : gmap string string) (fund : FundDetail)
    (rest : list FundDetail) (bp : batch) (t : Time E) :
  dateparse_ParseLocal E (FSRQ fund) = Ok t ->
  sink_loop E tags (fund :: rest) bp
  = match client_NewPoint E "fund" tags (fieldsOf E fund) t with
    | Some err => Err err
    | None =>
        sink_loop E tags rest
          (AddPoint E bp
             {| pName := "fund"; pTags := tags; pFields := fieldsOf E fund;
                pTime := t |})
    end.
Proof.
  intros Hdate. cbn [sink_loop]. rewrite Hdate. unfold NewPoint.
  destruct (client_NewPoint E "fund" tags (fieldsOf E fund) t); reflexivity.
Qed.

(** C4.  For a record whose date parses, the field map of its point always
    holds the three pass-through strings, holds each of the three numbers
    exactly when its source string parses, and holds nothing else; a source
    string that does not parse removes that one field only: the turn of
    the loop still hands the point with these fields to [client.NewPoint]
    and, when that accepts it, adds it to the batch. *)
Theorem sink_fields (node : FundNode) (fund : FundDetail) (t : Time E)
    (rest : list FundDetail) (bp : batch) :
  dateparse_ParseLocal E (FSRQ fund) = Ok t ->
  let fields := fieldsOf E fund in
  fields !! "NAVTYPE" = Some (FString (NAVTYPE fund))
  /\ fields !! "SGZT" = Some (FString (SGZT fund))
  /\ fields !! "SHZT" = Some (FString (SHZT fund))
  /\ fields !! "DWJZ" = floatField E (strconv_ParseFloat E (DWJZ fund))
  /\ fields !! "LJJZ" = floatField E (strconv_ParseFloat E (LJJZ fund))
  /\ fields !! "JZZZL" = floatField E (strconv_ParseFloat E (JZZZL fund))
  /\ (is_Some (fields !! "DWJZ")
      <-> exists v, strconv_ParseFloat E (DWJZ fund) = Ok v)
  /\ (is_Some (fields !! "LJJZ")
      <-> exists v, strconv_ParseFloat E (LJJZ fund) = Ok v)
  /\ (is_Some (fields !! "JZZZL")
      <-> exists v, strconv_ParseFloat E (JZZZL fund) = Ok v)
  /\ (forall k : string,
        is_Some (fields !! k) ->
        k ∈ ["NAVTYPE"; "SGZT"; "SHZT"; "DWJZ"; "LJJZ"; "JZZZL"])
  /\ sink_loop E (tagsOf node) (fund :: rest) bp
     = match client_NewPoint E "fund" (tagsOf node) fields t with
       | Some err => Err err
       | None => sink_loop E (tagsOf node) rest
                   (AddPoint E bp (pointOf E node fund t))
       end.
Proof.
  intros Hdate. cbv zeta.
  assert (Hiff : forall r : result (float64 E),
            is_Some (floatField E r) <-> exists v, r = Ok v).
  { intros [v | e]; cbn; split.
    - eauto.
    - intros _. eauto.
    - intros [x Hx]. discriminate.
    - intros [v Hv]. discriminate. }
  repeat split; try (rewrite fieldsOf_lookup; reflexivity);
    try (rewrite fieldsOf_lookup; cbn; apply Hiff).
  - intros k Hk. rewrite fieldsOf_lookup in Hk.
    repeat (case_decide; [subst k; repeat constructor |]).
    destruct Hk as [x Hx]. discriminate.
  - apply sink_loop_step. exact Hdate.
Qed.

(** What [sink] does, by the outcome of its steps. *)
Lemma sink_cases (node : FundNode) (info : FundInfo) (w : W) :
  sink E node info w
  = match client_NewBatchPoints E "fund" with
    | Some err => (Returns (Some err), w)
    | None =>
        match sink_loop E (tagsOf node) (LSJZList (Data info))
                {| Database := "fund"; Points := [] |} with
        | Err err => (Returns (Some err), w)
        | Ok bp =>
            match influx_Write E w bp with
            | Some err => (Returns (Some err), written E bp w)
            | None =>
                (Returns None,
                 logged E (sunkEntry node (length (Points bp)))
                   (written E bp w))
            end
        end
    end.
Proof.
  unfold sink. destruct (client_NewBatchPoints E "fund"); [reflexivity |].
  destruct (sink_loop E _ _ _) as [bp | err]; [| reflexivity].
  unfold bind, Write. destruct (influx_Write E w bp); reflexivity.
Qed.

(** A batch that comes out of the loop holds, after the points it had, the
    point of each record, in the order of the records. *)
Lemma sink_loop_points (node : FundNode) (funds : list FundDetail) :
  forall bp bp' : batch,
    sink_loop E (tagsOf node) funds bp = Ok bp' ->
    Database bp' = Database bp
    /\ exists pts : list point,
         Points bp' = Points bp ++ pts
         /\ Forall2 (isPointOf E node) funds pts.
Proof.
  induction funds as [|fund rest IH]; intros bp bp' H.
  - cbn in H. injection H as <-. split; [reflexivity |].
    exists []. rewrite app_nil_r. split; [reflexivity | constructor].
  - cbn [sink_loop] in H.
    destruct (dateparse_ParseLocal E (FSRQ fund)) as [t | e] eqn:Hdate;
      [| discriminate].
    unfold NewPoint in H.
    destruct (client_NewPoint E "fund" (tagsOf node) (fieldsOf E fund) t);
      [discriminate |].
    destruct (IH _ _ H) as (Hdb & pts & Hpts & Hall).
    split; [exact Hdb |].
    eexists (_ :: pts). split.
    + rewrite Hpts. cbn. rewrite <- app_assoc. reflexivity.
    + constructor; [| exact Hall]. split; [exact Hdate | reflexivity].
Qed.

(** A record whose date does not parse makes the loop return an error. *)
Lemma sink_loop_bad_date (tags : gmap string string)
    (funds : list FundDetail) :
  Exists (dateFails E) funds ->
  forall bp : batch, exists err, sink_loop E tags funds bp = Err err.
Proof.
  induction 1 as [fund rest [e He] | fund rest _ IH]; intros bp;
    cbn [sink_loop].
  - rewrite He. eauto.
  - destruct (dateparse_ParseLocal E (FSRQ fund)); [| eauto].
    destruct (NewPoint E _ _ _ _); [apply IH | eauto].
Qed.

(** When every date parses and [client.NewPoint] accepts every point, the
    loop returns a batch. *)
Lemma sink_loop_accepted (tags : gmap string string)
    (funds : list FundDetail) :
  Forall (dateParses E) funds ->
  (forall fund t, In fund funds ->
     client_NewPoint E "fund" tags (fieldsOf E fund) t = None) ->
  forall bp : batch, exists bp', sink_loop E tags funds bp = Ok bp'.
Proof.
  induction 1 as [|fund rest [t Ht] _ IH]; intros Hacc bp; cbn [sink_loop].
  - eauto.
  - rewrite Ht. unfold NewPoint. rewrite Hacc by (left; reflexivity).
    apply IH. intros f t' Hin. apply Hacc. right. exact Hin.
Qed.

(** The tag map of an instrument has exactly the five entries. *)
Lemma tagsOf_entries (node : FundNode) :
  tagsOf node !! "code" = Some (Code node)
  /\ tagsOf node !! "abridge" = Some (Abridge node)
  /\ tagsOf node !! "name" = Some (Name node)
  /\ tagsOf node !! "type" = Some (Type_ node)
  /\ tagsOf node !! "pinyin" = Some (Pinyin node)
  /\ size (tagsOf node) = 5%nat.
Proof.
  unfold tagsOf. repeat split; simplify_map_eq; reflexivity.
Qed.

End Sink.

(** ** One instrument *)

Section Instrument.

Context (E : Externals).

#[local] Abbreviation W := (World (URL E) (Time E) (float64 E)).

(** [getHttpResponse] touches only the list of requests. *)
Lemma getHttpResponse_world (u : string) (w : W) :
  writes (snd (getHttpResponse E u w)) = writes w
  /\ logs (snd (getHttpResponse E u w)) = logs w
  /\ slept (snd (getHttpResponse E u w)) = slept w.
Proof.
  unfold getHttpResponse. destruct (url_Parse E u) as [fundUrl | e].
  - destruct (getHttpResponse_loop_requests E 3 fundUrl None w)
      as (k & _ & _ & Hw & Hl & Hs). auto.
  - cbn. auto.
Qed.

(** [getHttpResponse] never panics, and returns a response or an error. *)
Lemma getHttpResponse_returns (u : string) (w : W) :
  (exists resp w', getHttpResponse E u w = (Returns (Some resp, None), w'))
  \/ (exists e w', getHttpResponse E u w = (Returns (None, Some e), w')).
Proof.
  unfold getHttpResponse. destruct (url_Parse E u) as [fundUrl | e].
  - destruct (getHttpResponse_loop_returns E 3 fundUrl None w)
      as [[resp H] | [e H]]; [left; discriminate | |];
      destruct (getHttpResponse_loop E 3 fundUrl None w) as [r w'];
      cbn in H; subst r; eauto.
  - right. eauto.
Qed.

(** [parseFund] of a response never panics and leaves the world alone. *)
Lemma parseFund_returns (resp : Response) (w : W) :
  exists r, parseFund E (Some resp) w = (Returns r, w).
Proof.
  unfold parseFund. destruct (ReadErr resp); [eauto |].
  destruct (strings.Index (Body resp) "{" =? -1) eqn:Hbeg; [eauto |].
  apply Z.eqb_neq in Hbeg.
  rewrite slice_from_inside.
  - eauto.
  - destruct (Index_range (Body resp) "{") as [? | [? ?]]; [contradiction |].
    change (strings.len "{") with 1 in *. lia.
Qed.

(** [sink] never panics. *)
Lemma sink_returns (node : FundNode) (info : FundInfo) (w : W) :
  exists r w', sink E node info w = (Returns r, w').
Proof. rewrite sink_cases. repeat case_match; eauto. Qed.

(** What [getFund] does once the envelope was fetched and parsed. *)
Lemma getFund_fetched (node : FundNode) (w : W) (info : FundInfo) (w2 : W) :
  Code node <> EmptyString ->
  fetchesEnvelope E node w info w2 ->
  getFund E node w
  = if negb (ErrCode info =? 0)
    then (Returns (Some (FundInfoError (ErrCode info) (ErrMsg info)
                           (PageIndex info) (PageSize info))), w2)
    else sink E node info w2.
Proof.
  intros Hcode (resp & w1 & Hfetch & -> & Hparse).
  unfold getFund. apply String.eqb_neq in Hcode. rewrite Hcode.
  unfold bind at 1. unfold ask at 1. unfold bind at 1. unfold ask at 1.
  unfold bind at 1. change (historyURL (Code node) 1 _) with (fundURL E node w).
  rewrite Hfetch. unfold bind at 1. unfold log at 1.
  change {| requests := requests w1; writes := writes w1;
            logs := _ :: logs w1; slept := slept w1 |}
    with (logged E (fetchedEntry node) w1).
  unfold bind at 1. rewrite Hparse.
  destruct (negb (ErrCode info =? 0)); [reflexivity |].
  unfold bind. destruct (sink_returns node info (logged E (fetchedEntry node) w1))
    as (r & w' & ->). destruct r; reflexivity.
Qed.

(** [getFund] never panics. *)
Lemma getFund_returns (node : FundNode) (w : W) :
  exists r w', getFund E node w = (Returns r, w').
Proof.
  destruct (String.eqb (Code node) EmptyString) eqn:Hcode.
  - unfold getFund. rewrite Hcode. eauto.
  - destruct (getHttpResponse_returns (fundURL E node w) w)
      as [(resp & w1 & Hfetch) | (e & w1 & Hfetch)].
    + destruct (parseFund_returns resp (logged E (fetchedEntry node) w1))
        as ([info [err|]] & Hparse).
      * unfold getFund. rewrite Hcode.
        unfold bind at 1. unfold ask at 1. unfold bind at 1. unfold ask at 1.
        unfold bind at 1.
        change (historyURL (Code node) 1 _) with (fundURL E node w).
        rewrite Hfetch. unfold bind at 1. unfold log at 1.
        change {| requests := requests w1; writes := writes w1;
                  logs := _ :: logs w1; slept := slept w1 |}
          with (logged E (fetchedEntry node) w1).
        unfold bind at 1. rewrite Hparse. eauto.
      * rewrite (getFund_fetched node w info (logged E (fetchedEntry node) w1)).
        -- destruct (negb (ErrCode info =? 0)); [eauto | apply sink_returns].
        -- now apply String.eqb_neq.
        -- exists resp, w1. auto.
    + unfold getFund. rewrite Hcode.
      unfold bind at 1. unfold ask at 1. unfold bind at 1. unfold ask at 1.
      unfold bind at 1.
      change (historyURL (Code node) 1 _) with (fundURL E node w).
      rewrite Hfetch. eauto.
Qed.


(** C5.  When the date of any record of the envelope does not parse, [sink]
    returns an error and leaves the world as it was: the write call is not
    reached and the points built before the failing record are dropped
    with the batch.  Accordingly [getFund], having fetched and parsed such
    an envelope, returns an error for this instrument and has handed no
    batch to the InfluxDB client. *)
Theorem sink_bad_date_writes_nothing (node : FundNode) (info : FundInfo)
    (w : W) :
  Exists (dateFails E) (LSJZList (Data info)) ->
  (exists err, sink E node info w = (Returns (Some err), w))
  /\ (forall w0 : W,
        Code node <> EmptyString ->
        fetchesEnvelope E node w0 info w ->
        exists err,
          getFund E node w0 = (Returns (Some err), w)
          /\ writes w = writes w0).
Proof.
  intros Hbad.
  assert (Hsink : exists err, sink E node info w = (Returns (Some err), w)).
  { rewrite sink_cases.
    destruct (client_NewBatchPoints E "fund") as [err|]; [eauto |].
    destruct (sink_loop_bad_date E (tagsOf node) _ Hbad
                {| Database := "fund"; Points := [] |}) as [err ->].
    eauto. }
  split; [exact Hsink |].
  intros w0 Hcode Hfetch.
  rewrite (getFund_fetched _ _ _ _ Hcode Hfetch).
  destruct Hfetch as (resp & w1 & Hfetch & -> & _).
  assert (Hw : writes (logged E (fetchedEntry node) w1) = writes w0).
  { pose proof (getHttpResponse_world (fundURL E node w0) w0) as [Hw _].
    rewrite Hfetch in Hw. exact Hw. }
  destruct (negb (ErrCode info =? 0)); [eauto |].
  destruct Hsink as [err ->]. eauto.
Qed.

(** C6.  When the parsed envelope has a nonzero error code, [getFund]
    returns the error that carries the code, the message, the page index
    and the page size of the envelope; it does not call [sink], so no
    batch is handed to the InfluxDB client, and it makes no request beyond
    those of its one call of [getHttpResponse]. *)
Theorem getFund_domain_error (node : FundNode) (w : W) (info : FundInfo)
    (w2 : W) :
  Code node <> EmptyString ->
  fetchesEnvelope E node w info w2 ->
  ErrCode info <> 0 ->
  getFund E node w
  = (Returns (Some (FundInfoError (ErrCode info) (ErrMsg info)
                      (PageIndex info) (PageSize info))), w2)
  /\ writes w2 = writes w
  /\ requests w2 = requests (snd (getHttpResponse E (fundURL E node w) w))
  /\ (length (requests w2) <= length (requests w) + 3)%nat.
Proof.
  intros Hcode Hfetch Herr.
  rewrite (getFund_fetched _ _ _ _ Hcode Hfetch).
  apply Z.eqb_neq in Herr. rewrite Herr. cbn [negb].
  destruct Hfetch as (resp & w1 & Hfetch & -> & _).
  pose proof (getHttpResponse_world (fundURL E node w) w) as [Hw _].
  pose proof (getHttpResponse_request_bound E (fundURL E node w) w) as Hreq.
  rewrite Hfetch in Hw, Hreq |- *. auto.
Qed.

(** C8.  When the dates of all records parse, a batch that [sink] hands to
    the InfluxDB client is addressed to the database [fund] and holds
    exactly the points of the records of the envelope, one per record, in
    the order of the records, each with the tag map of the instrument,
    which has the five entries code, abridge, name, type and pinyin.  The
    batch is handed over whenever [client.NewBatchPoints] and
    [client.NewPoint] raise no error. *)
Theorem sink_batch_one_point_per_record (node : FundNode) (info : FundInfo)
    (w : W) :
  Forall (dateParses E) (LSJZList (Data info)) ->
  (tagsOf node !! "code" = Some (Code node)
   /\ tagsOf node !! "abridge" = Some (Abridge node)
   /\ tagsOf node !! "name" = Some (Name node)
   /\ tagsOf node !! "type" = Some (Type_ node)
   /\ tagsOf node !! "pinyin" = Some (Pinyin node)
   /\ size (tagsOf node) = 5%nat)
  /\ (writes (snd (sink E node info w)) = writes w
      \/ exists bp,
           writes (snd (sink E node info w)) = bp :: writes w
           /\ Database bp = "fund"
           /\ Forall2 (isPointOf E node) (LSJZList (Data info)) (Points bp)
           /\ length (Points bp) = length (LSJZList (Data info))
           /\ Forall (fun pt => pTags pt = tagsOf node) (Points bp))
  /\ (client_NewBatchPoints E "fund" = None ->
      (forall fund t, In fund (LSJZList (Data info)) ->
         client_NewPoint E "fund" (tagsOf node) (fieldsOf E fund) t = None) ->
      exists bp,
        writes (snd (sink E node info w)) = bp :: writes w
        /\ Forall2 (isPointOf E node) (LSJZList (Data info)) (Points bp)).
Proof.
  intros Hdates. split; [apply tagsOf_entries |].
  assert (Hshape : forall bp,
            sink_loop E (tagsOf node) (LSJZList (Data info))
              {| Database := "fund"; Points := [] |} = Ok bp ->
            Database bp = "fund"
            /\ Forall2 (isPointOf E node) (LSJZList (Data info)) (Points bp)
            /\ length (Points bp) = length (LSJZList (Data info))
            /\ Forall (fun pt => pTags pt = tagsOf node) (Points bp)).
  { intros bp Hloop.
    destruct (sink_loop_points E node _ _ _ Hloop) as (Hdb & pts & Hpts & Hall).
    cbn in Hdb, Hpts. subst pts. split; [exact Hdb |].
    split; [exact Hall |]. split.
    - symmetry. eapply Forall2_length. exact Hall.
    - clear -Hall. induction Hall as [|fund pt funds pts [_ Hpt] _ IH];
        constructor; [rewrite Hpt; reflexivity | exact IH]. }
  split.
  - rewrite sink_cases.
    destruct (client_NewBatchPoints E "fund"); [left; reflexivity |].
    destruct (sink_loop E _ _ _) as [bp | err] eqn:Hloop; [| left; reflexivity].
    right. exists bp. split; [| apply Hshape; reflexivity].
    destruct (influx_Write E w bp); reflexivity.
  - intros Hnew Hacc. rewrite sink_cases, Hnew.
    destruct (sink_loop_accepted E (tagsOf node) _ Hdates Hacc
                {| Database := "fund"; Points := [] |}) as [bp Hloop].
    rewrite Hloop. exists bp. split; [| apply Hshape; exact Hloop].
    destruct (influx_Write E w bp); reflexivity.
Qed.

End Instrument.

(** ** The pipeline driver *)

Section Driver.

Context (E : Externals).

#[local] Abbreviation W := (World (URL E) (Time E) (float64 E)).

(** [sink] does not sleep. *)
Lemma sink_slept (node : FundNode) (info : FundInfo) (w : W) :
  slept (snd (sink E node info w)) = slept w.
Proof. rewrite sink_cases. repeat case_match; reflexivity. Qed.

(** [getFund] does not sleep. *)
Lemma getFund_slept (node : FundNode) (w : W) :
  slept (snd (getFund E node w)) = slept w.
Proof.
  destruct (String.eqb (Code node) EmptyString) eqn:Hcode.
  - unfold getFund. rewrite Hcode. reflexivity.
  - pose proof (getHttpResponse_world E (fundURL E node w) w) as (_ & _ & Hs).
    destruct (getHttpResponse_returns E (fundURL E node w) w)
      as [(resp & w1 & Hfetch) | (e & w1 & Hfetch)].
    + rewrite Hfetch in Hs. cbn in Hs.
      destruct (parseFund_returns E resp (logged E (fetchedEntry node) w1))
        as ([info [err|]] & Hparse).
      * unfold getFund. rewrite Hcode.
        unfold bind at 1. unfold ask at 1. unfold bind at 1. unfold ask at 1.
        unfold bind at 1.
        change (historyURL (Code node) 1 _) with (fundURL E node w).
        rewrite Hfetch. unfold bind at 1. unfold log at 1.
        change {| requests := requests w1; writes := writes w1;
                  logs := _ :: logs w1; slept := slept w1 |}
          with (logged E (fetchedEntry node) w1).
        unfold bind at 1. rewrite Hparse. exact Hs.
      * rewrite (getFund_fetched E node w info
                   (logged E (fetchedEntry node) w1)).
        -- destruct (negb (ErrCode info =? 0)); [exact Hs |].
           rewrite sink_slept. exact Hs.
        -- now apply String.eqb_neq.
        -- exists resp, w1. auto.
    + rewrite Hfetch in Hs. unfold getFund. rewrite Hcode.
      unfold bind at 1. unfold ask at 1. unfold bind at 1. unfold ask at 1.
      unfold bind at 1.
      change (historyURL (Code node) 1 _) with (fundURL E node w).
      rewrite Hfetch. exact Hs.
Qed.

(** One turn of the loop of [run], by the result of [getFund]. *)
Lemma afterInstrument_cases (w : W) (node : FundNode) :
  exists (r : option error) (wb : W),
    getFund E node w = (Returns r, wb)
    /\ afterInstrument E w node
       = sleptOne E match r with
                    | Some err => logged E (failureEntry node err) wb
                    | None => wb
                    end.
Proof.
  destruct (getFund_returns E node w) as (r & wb & H).
  exists r, wb. split; [exact H |].
  unfold afterInstrument. rewrite H. destruct r; reflexivity.
Qed.

Lemma afterInstrument_slept (w : W) (node : FundNode) :
  slept (afterInstrument E w node) = slept w + 1.
Proof.
  destruct (afterInstrument_cases w node) as (r & wb & H & ->).
  pose proof (getFund_slept node w) as Hs. rewrite H in Hs. cbn in Hs.
  destruct r; cbn; lia.
Qed.

(** The loop of [run] visits every instrument: it never stops early. *)
Lemma run_loop_all (nodeList : list FundNode) (w : W) :
  run_loop E nodeList w
  = (Returns tt, fold_left (afterInstrument E) nodeList w).
Proof.
  revert w. induction nodeList as [|node rest IH]; intros w; [reflexivity |].
  cbn [run_loop fold_left].
  destruct (afterInstrument_cases w node) as (r & wb & H & ->).
  unfold bind at 1. rewrite H.
  destruct r as [err|]; unfold bind at 1; cbn [log ret];
    unfold bind at 1; cbn [Sleep]; apply IH.
Qed.

Lemma fold_afterInstrument_slept (nodeList : list FundNode) (w : W) :
  slept (fold_left (afterInstrument E) nodeList w)
  = slept w + Z.of_nat (length nodeList).
Proof.
  revert w. induction nodeList as [|node rest IH]; intros w.
  - cbn. lia.
  - cbn [fold_left length]. rewrite IH, afterInstrument_slept. lia.
Qed.

(** C9.  Once the catalog was discovered, [run] returns without an error,
    whatever [getFund] returns for the instruments.  Every instrument of
    the list gets its call of [getFund], made in the world that the
    complete turns of the instruments before it left; a failure is logged
    with the code and the name of the instrument and is followed, like a
    success, by the pause and by the turns of the instruments after it. *)
Theorem run_continues_past_failures (w : W) (nodeList : list FundNode)
    (w1 : W) :
  getNodeList E w = (Returns (nodeList, None), w1) ->
  run E w = (Returns None, fold_left (afterInstrument E) nodeList w1)
  /\ slept (fold_left (afterInstrument E) nodeList w1)
     = slept w1 + Z.of_nat (length nodeList)
  /\ forall (pre : list FundNode) (node : FundNode) (post : list FundNode),
       nodeList = pre ++ node :: post ->
       let wa := fold_left (afterInstrument E) pre w1 in
       exists (r : option error) (wb : W),
         getFund E node wa = (Returns r, wb)
         /\ afterInstrument E wa node
            = sleptOne E match r with
                         | Some err => logged E (failureEntry node err) wb
                         | None => wb
                         end
         /\ fold_left (afterInstrument E) nodeList w1
            = fold_left (afterInstrument E) post (afterInstrument E wa node).
Proof.
  intros Hlist. split; [| split].
  - unfold run. unfold bind at 1. rewrite Hlist.
    unfold bind. rewrite run_loop_all. reflexivity.
  - apply fold_afterInstrument_slept.
  - intros pre node post -> wa.
    destruct (afterInstrument_cases wa node) as (r & wb & H & Hafter).
    exists r, wb. split; [exact H |]. split; [exact Hafter |].
    rewrite fold_left_app. reflexivity.
Qed.

End Driver.

(** ** The properties on the scripted environment *)

(** A record with an empty unit value and a placeholder as cumulative
    value: the two numbers are left out, the strings and the growth rate
    are there. *)
Lemma sink_fields_witness :
  let E := Script.env (Script.always EmptyString) in
  fieldsOf E Payload.recordGaps !! "NAVTYPE" = Some (FString "1")
  /\ fieldsOf E Payload.recordGaps !! "SGZT" = Some (FString "open")
  /\ fieldsOf E Payload.recordGaps !! "SHZT" = Some (FString "closed")
  /\ fieldsOf E Payload.recordGaps !! "DWJZ" = None
  /\ fieldsOf E Payload.recordGaps !! "LJJZ" = None
  /\ fieldsOf E Payload.recordGaps !! "JZZZL" = Some (FFloat "0.12").
Proof.
  intros E.
  pose proof (sink_fields E Payload.alpha Payload.recordGaps "2024-01-02" []
                {| Database := "fund"; Points := [] |} eq_refl) as H.
  cbv zeta in H.
  destruct H as (H1 & H2 & H3 & H4 & H5 & H6 & _).
  repeat split; assumption.
Defined.

(** An envelope whose second record has a bad date: [sink] fails and the
    world is as before. *)
Lemma sink_bad_date_writes_nothing_witness :
  exists err,
    sink (Script.env (Script.always EmptyString)) Payload.alpha
      Payload.envelopeBadDate Script.start
    = (Returns (Some err), Script.start).
Proof.
  refine (proj1
    (sink_bad_date_writes_nothing (Script.env (Script.always EmptyString))
       Payload.alpha Payload.envelopeBadDate Script.start _)).
  apply Exists_cons_tl, Exists_cons_hd.
  exists (External "Could not find format"). reflexivity.
Defined.

(** A history answer with error code 5: [getFund] reports it and writes
    nothing. *)
Lemma getFund_domain_error_witness :
  let E := Script.env (Script.always Payload.historyDomainError) in
  getFund E Payload.alpha Script.start
  = (Returns (Some (FundInfoError 5 "no data" 1 20)),
     logged E (fetchedEntry Payload.alpha)
       (requested E (fundURL E Payload.alpha Script.start) Script.start)).
Proof.
  intros E.
  refine (proj1
    (getFund_domain_error E Payload.alpha Script.start
       Payload.envelopeDomainError
       (logged E (fetchedEntry Payload.alpha)
          (requested E (fundURL E Payload.alpha Script.start) Script.start))
       _ _ _)).
  - discriminate.
  - exists {| StatusCode := 200; Body := Payload.historyDomainError;
              ReadErr := None |},
      (requested E (fundURL E Payload.alpha Script.start) Script.start).
    repeat split; vm_compute; reflexivity.
  - discriminate.
Defined.

(** The envelope of one record: [sink] hands over a batch with the point
    of that record. *)
Lemma sink_batch_one_point_per_record_witness :
  let E := Script.env (Script.always EmptyString) in
  exists bp,
    writes (snd (sink E Payload.alpha Payload.envelope1 Script.start))
    = bp :: writes Script.start
    /\ Forall2 (isPointOf E Payload.alpha) [Payload.record1] (Points bp).
Proof.
  intros E.
  refine (proj2 (proj2
    (sink_batch_one_point_per_record E Payload.alpha Payload.envelope1
       Script.start _)) eq_refl (fun _ _ _ => eq_refl)).
  repeat constructor. exists "2024-01-02". reflexivity.
Defined.

(** A catalog of three tuples whose second is malformed: [run] goes
    through all three slots, the empty one failing, and returns no
    error. *)
Lemma run_continues_past_failures_witness :
  let E := Script.env (Script.site Payload.catalog3 Payload.history1) in
  run E Script.start
  = (Returns None,
     fold_left (afterInstrument E)
       [Payload.alpha; zeroFundNode; Payload.gamma]
       (logged E (warning (quoted "['002','B','Beta','T2'"))
          (requested E catalogURL Script.start))).
Proof.
  intros E.
  refine (proj1
    (run_continues_past_failures E Script.start
       [Payload.alpha; zeroFundNode; Payload.gamma]
       (logged E (warning (quoted "['002','B','Beta','T2'"))
          (requested E catalogURL Script.start)) _)).
  vm_compute. reflexivity.
Defined.

(** * Further properties *)

(** ** The HTTP fetcher, as its callers see it *)

Section FetcherContract.

Context (E : Externals).

#[local] Abbreviation W := (World (URL E) (Time E) (float64 E)).

(** The loop returns a response only with status 200, and otherwise an
    error, once an error is in [err] or an attempt is left. *)
Lemma getHttpResponse_loop_shape (cnt : nat) (u : URL E)
    (err : option error) (w : W) :
  (cnt <> 0%nat \/ err <> None) ->
  (exists resp,
     fst (getHttpResponse_loop E cnt u err w) = Returns (Some resp, None)
     /\ StatusCode resp = 200)
  \/ (exists e, fst (getHttpResponse_loop E cnt u err w)
                = Returns (None, Some e)).
Proof.
  revert err w. induction cnt as [|cnt IH]; intros err w Hne.
  - destruct Hne as [? | Hne]; [congruence |].
    destruct err as [e|]; [| congruence]. right. exists e. reflexivity.
  - rewrite getHttpResponse_loop_step.
    destruct (http_Do E w u) as [resp | e] eqn:Hdo; cbn [failed].
    + destruct (StatusCode resp =? 200) eqn:Hs; cbn [negb].
      * left. exists resp. split; [reflexivity | now apply Z.eqb_eq].
      * apply IH. right. discriminate.
    + apply IH. right. discriminate.
Qed.

(** X1.  [getHttpResponse] never panics and never returns a nil response
    together with a nil error: it returns either a response whose status is
    200 and a nil error, or a nil response and an error.  Its requests all
    go to the parsed URL, at least one and at most three of them when the
    URL parses, and it touches nothing else of the world. *)
Theorem getHttpResponse_contract (u : string) (w : W) :
  ((exists resp w',
      getHttpResponse E u w = (Returns (Some resp, None), w')
      /\ StatusCode resp = 200)
   \/ (exists e w', getHttpResponse E u w = (Returns (None, Some e), w')))
  /\ match url_Parse E u with
     | Ok fundUrl =>
         exists k : nat,
           (1 <= k <= 3)%nat
           /\ requests (snd (getHttpResponse E u w))
              = replicate k fundUrl ++ requests w
     | Err _ => requests (snd (getHttpResponse E u w)) = requests w
     end
  /\ writes (snd (getHttpResponse E u w)) = writes w
  /\ logs (snd (getHttpResponse E u w)) = logs w
  /\ slept (snd (getHttpResponse E u w)) = slept w.
Proof.
  split; [| split].
  - unfold getHttpResponse. destruct (url_Parse E u) as [fundUrl | e].
    + destruct (getHttpResponse_loop_shape 3 fundUrl None w)
        as [(resp & H & Hs) | [e H]]; [left; discriminate | |];
        destruct (getHttpResponse_loop E 3 fundUrl None w) as [r w'];
        cbn in H; subst r; eauto.
    + right. eauto.
  - unfold getHttpResponse. destruct (url_Parse E u) as [fundUrl | e];
      [| reflexivity].
    change 3%nat with (S 2). rewrite getHttpResponse_loop_step.
    destruct (failed (http_Do E w fundUrl)).
    + destruct (getHttpResponse_loop_requests E 2 fundUrl
                  (Some (tagged E fundUrl (http_Do E w fundUrl)))
                  (requested E fundUrl w)) as (k & Hk & Hr & _).
      exists (S k). split; [lia |]. rewrite Hr. cbn.
      change (fundUrl :: requests w) with ([fundUrl] ++ requests w).
      rewrite app_assoc. f_equal.
      clear. induction k; cbn; [reflexivity | now f_equal].
    + exists 1%nat. split; [lia | reflexivity].
  - apply getHttpResponse_world.
Qed.

End FetcherContract.

(** ** The sink, as its caller sees it *)

Section SinkContract.

Context (E : Externals).

#[local] Abbreviation W := (World (URL E) (Time E) (float64 E)).
#[local] Abbreviation batch := (BatchPoints (Time E) (float64 E)).

Lemma addFloat_size (key src : string)
    (fields : gmap string (FieldValue (float64 E))) :
  fields !! key = None ->
  size (addFloat E key src fields) = (size fields + parsed E src)%nat.
Proof.
  intros Hnone. unfold addFloat, parsed.
  destruct (strconv_ParseFloat E src).
  - rewrite map_size_insert_None by exact Hnone. lia.
  - lia.
Qed.

(** X2.  The field map of a record has the three strings and one entry
    more for each of the three numbers that parses: three entries at
    least, so a point is never without a field, and six at most. *)
Theorem fieldsOf_size (fund : FundDetail) :
  size (fieldsOf E fund)
  = (3 + parsed E (DWJZ fund) + parsed E (LJJZ fund)
     + parsed E (JZZZL fund))%nat
  /\ (3 <= size (fieldsOf E fund) <= 6)%nat.
Proof.
  assert (Hsize : size (fieldsOf E fund)
                  = (3 + parsed E (DWJZ fund) + parsed E (LJJZ fund)
                     + parsed E (JZZZL fund))%nat).
  { unfold fieldsOf. rewrite !addFloat_size.
    - rewrite !map_size_insert_None by (simplify_map_eq; reflexivity).
      rewrite map_size_empty. lia.
    - simplify_map_eq. reflexivity.
    - rewrite addFloat_lookup. simplify_map_eq. reflexivity.
    - rewrite !addFloat_lookup. simplify_map_eq. reflexivity. }
  split; [exact Hsize |]. rewrite Hsize. unfold parsed.
  repeat case_match; lia.
Qed.

(** X3.  [sink] never panics, makes no request and does not sleep.  It
    hands at most one batch to the InfluxDB client and then returns what
    the write returned, without a second try; it returns nil exactly when
    it handed a batch over and the write reported no error, and it logs its
    one entry exactly then. *)
Theorem sink_contract (node : FundNode) (info : FundInfo) (w : W) :
  exists (r : option error) (w' : W),
    sink E node info w = (Returns r, w')
    /\ requests w' = requests w
    /\ slept w' = slept w
    /\ (writes w' = writes w \/ exists bp, writes w' = bp :: writes w)
    /\ (forall bp, writes w' = bp :: writes w -> r = influx_Write E w bp)
    /\ (r = None <->
        exists bp, writes w' = bp :: writes w /\ influx_Write E w bp = None)
    /\ (r = None ->
        exists bp, writes w' = bp :: writes w
                   /\ logs w' = sunkEntry node (length (Points bp)) :: logs w)
    /\ (r <> None -> logs w' = logs w).
Proof.
  assert (Hfresh : forall (bp : batch) (l : list batch), l <> bp :: l).
  { intros bp l Hl. apply (f_equal (@length _)) in Hl. cbn in Hl. lia. }
  rewrite sink_cases.
  destruct (client_NewBatchPoints E "fund") as [e0|].
  { exists (Some e0), w. repeat split; auto; try discriminate.
    - intros bp Hw. exfalso. exact (Hfresh _ _ Hw).
    - intros (bp & Hw & _). exfalso. exact (Hfresh _ _ Hw). }
  destruct (sink_loop E _ _ _) as [bp | e1].
  2:{ exists (Some e1), w. repeat split; auto; try discriminate.
      - intros bp Hw. exfalso. exact (Hfresh _ _ Hw).
      - intros (bp & Hw & _). exfalso. exact (Hfresh _ _ Hw). }
  destruct (influx_Write E w bp) as [e2|] eqn:Hwrite.
  - exists (Some e2), (written E bp w). repeat split; eauto; try discriminate.
    + intros bp' Hw. cbn in Hw. injection Hw as <-. congruence.
    + intros (bp' & Hw & Hnone). cbn in Hw. injection Hw as <-. congruence.
  - exists None, (logged E (sunkEntry node (length (Points bp)))
                    (written E bp w)).
    repeat split; eauto; try congruence.
    intros bp' Hw. cbn in Hw. injection Hw as <-. congruence.
Qed.

(** X4.  An envelope without records still gets its write: when
    [client.NewBatchPoints] raises no error, [sink] hands the InfluxDB
    client a batch for [fund] that holds no point, and returns what the
    write returns. *)
Theorem sink_empty_envelope (node : FundNode) (info : FundInfo) (w : W) :
  LSJZList (Data info) = [] ->
  client_NewBatchPoints E "fund" = None ->
  let bp : batch := {| Database := "fund"; Points := [] |} in
  fst (sink E node info w) = Returns (influx_Write E w bp)
  /\ writes (snd (sink E node info w)) = bp :: writes w.
Proof.
  intros Hnil Hnew bp. rewrite sink_cases, Hnil, Hnew. cbn [sink_loop].
  fold bp. destruct (influx_Write E w bp); split; reflexivity.
Qed.



End SinkContract.

(** ** One instrument, as the driver sees it *)

Section InstrumentContract.

Context (E : Externals).

#[local] Abbreviation W := (World (URL E) (Time E) (float64 E)).

(** The four ways [getFund] can go. *)
Lemma getFund_outcomes (node : FundNode) (w : W) :
  (Code node = EmptyString
   /\ getFund E node w = (Returns (Some EmptyFundCode), w))
  \/ (Code node <> EmptyString
      /\ exists e w1,
           getHttpResponse E (fundURL E node w) w = (Returns (None, Some e), w1)
           /\ getFund E node w = (Returns (Some e), w1))
  \/ (Code node <> EmptyString
      /\ exists resp w1 info e,
           getHttpResponse E (fundURL E node w) w
           = (Returns (Some resp, None), w1)
           /\ parseFund E (Some resp) (logged E (fetchedEntry node) w1)
              = (Returns (info, Some e), logged E (fetchedEntry node) w1)
           /\ getFund E node w
              = (Returns (Some e), logged E (fetchedEntry node) w1))
  \/ (Code node <> EmptyString
      /\ exists info w2,
           fetchesEnvelope E node w info w2
           /\ getFund E node w
              = if negb (ErrCode info =? 0)
                then (Returns (Some (FundInfoError (ErrCode info) (ErrMsg info)
                                       (PageIndex info) (PageSize info))), w2)
                else sink E node info w2).
Proof.
  destruct (String.eqb (Code node) EmptyString) eqn:Hcode.
  - left. split; [now apply String.eqb_eq |].
    unfold getFund. rewrite Hcode. reflexivity.
  - right. assert (Hne : Code node <> EmptyString) by now apply String.eqb_neq.
    destruct (getHttpResponse_returns E (fundURL E node w) w)
      as [(resp & w1 & Hfetch) | (e & w1 & Hfetch)].
    + right.
      destruct (parseFund_returns E resp (logged E (fetchedEntry node) w1))
        as ([info [err|]] & Hparse).
      * left. split; [exact Hne |]. exists resp, w1, info, err.
        split; [exact Hfetch |]. split; [exact Hparse |].
        unfold getFund. rewrite Hcode.
        unfold bind at 1. unfold ask at 1. unfold bind at 1. unfold ask at 1.
        unfold bind at 1.
        change (historyURL (Code node) 1 _) with (fundURL E node w).
        rewrite Hfetch. unfold bind at 1. unfold log at 1.
        change {| requests := requests w1; writes := writes w1;
                  logs := _ :: logs w1; slept := slept w1 |}
          with (logged E (fetchedEntry node) w1).
        unfold bind at 1. rewrite Hparse. reflexivity.
      * right. split; [exact Hne |].
        exists info, (logged E (fetchedEntry node) w1).
        assert (Hf : fetchesEnvelope E node w info
                       (logged E (fetchedEntry node) w1))
          by (exists resp, w1; auto).
        split; [exact Hf |]. now apply getFund_fetched.
    + left. split; [exact Hne |]. exists e, w1. split; [exact Hfetch |].
      unfold getFund. rewrite Hcode.
      unfold bind at 1. unfold ask at 1. unfold bind at 1. unfold ask at 1.
      unfold bind at 1.
      change (historyURL (Code node) 1 _) with (fundURL E node w).
      rewrite Hfetch. reflexivity.
Qed.

(** X6.  [getFund] never panics.  It does not sleep, makes at most three
    requests and hands at most one batch to the InfluxDB client.  It
    returns nil only when it handed over one batch, for the database
    [fund] and with the tags of the instrument on every point, whose write
    reported no error; the log then has the entry of the fetch and the
    entry of the write. *)
Theorem getFund_contract (node : FundNode) (w : W) :
  exists (r : option error) (w' : W),
    getFund E node w = (Returns r, w') /\ getFund_frame E node w r w'.
Proof.
  pose proof (getHttpResponse_world E (fundURL E node w) w)
    as (Hfw & Hfl & Hfs).
  pose proof (getHttpResponse_request_bound E (fundURL E node w) w) as Hfr.
  destruct (getFund_outcomes node w)
    as [[_ H] | [(_ & e & w1 & Hfetch & H)
       | [(_ & resp & w1 & info & e & Hfetch & _ & H)
         | (_ & info & w2 & Hf & H)]]].
  - exists (Some EmptyFundCode), w. split; [exact H |].
    unfold getFund_frame. repeat split; auto; try lia; discriminate.
  - rewrite Hfetch in Hfw, Hfs, Hfr. cbn in Hfw, Hfs, Hfr.
    exists (Some e), w1. split; [exact H |].
    unfold getFund_frame. repeat split; auto; discriminate.
  - rewrite Hfetch in Hfw, Hfs, Hfr. cbn in Hfw, Hfs, Hfr.
    exists (Some e), (logged E (fetchedEntry node) w1). split; [exact H |].
    unfold getFund_frame. repeat split; auto; discriminate.
  - destruct Hf as (resp & w1 & Hfetch & -> & _).
    rewrite Hfetch in Hfw, Hfl, Hfs, Hfr. cbn in Hfw, Hfl, Hfs, Hfr.
    destruct (negb (ErrCode info =? 0)).
    { eexists _, _. split; [exact H |].
      unfold getFund_frame. repeat split; auto; discriminate. }
    rewrite sink_cases in H.
    destruct (client_NewBatchPoints E "fund") as [e0|].
    { eexists _, _. split; [exact H |].
      unfold getFund_frame. repeat split; auto; discriminate. }
    destruct (sink_loop E _ _ _) as [bp | e1] eqn:Hloop.
    2:{ eexists _, _. split; [exact H |].
        unfold getFund_frame. repeat split; auto; discriminate. }
    destruct (sink_loop_points E node _ _ _ Hloop) as (Hdb & pts & Hpts & Hall).
    cbn in Hdb, Hpts. subst pts.
    destruct (influx_Write E (logged E (fetchedEntry node) w1) bp) as [e2|]
      eqn:Hwrite.
    + eexists _, _. split; [exact H |].
      unfold getFund_frame. rewrite Hfetch. cbn.
      repeat split; auto; try discriminate.
      right. exists bp. now rewrite Hfw.
    + eexists _, _. split; [exact H |].
      unfold getFund_frame. rewrite Hfetch. cbn. repeat split; auto.
      * right. exists bp. now rewrite Hfw.
      * intros _. exists bp. rewrite Hfw, Hfl.
        repeat split; auto.
        clear -Hall. induction Hall as [|fund pt funds pts [_ Hpt] _ IH];
          constructor; [rewrite Hpt; reflexivity | exact IH].
Qed.

(** X7.  [getFund] passes the errors of its first two steps on as they
    are: the error of the fetch, after which nothing was logged, and the
    error of [parseFund], after which only the fetch was logged.  Neither
    is retried and nothing is written. *)
Theorem getFund_passes_errors_on (node : FundNode) (w : W) :
  Code node <> EmptyString ->
  (forall (r : option Response) (e : error) (w1 : W),
     getHttpResponse E (fundURL E node w) w = (Returns (r, Some e), w1) ->
     getFund E node w = (Returns (Some e), w1)
     /\ writes w1 = writes w /\ logs w1 = logs w)
  /\ (forall (resp : Response) (w1 : W) (info : FundInfo) (e : error),
        getHttpResponse E (fundURL E node w) w
        = (Returns (Some resp, None), w1) ->
        parseFund E (Some resp) (logged E (fetchedEntry node) w1)
        = (Returns (info, Some e), logged E (fetchedEntry node) w1) ->
        getFund E node w
        = (Returns (Some e), logged E (fetchedEntry node) w1)
        /\ writes w1 = writes w
        /\ requests (logged E (fetchedEntry node) w1) = requests w1).
Proof.
  intros Hcode. apply String.eqb_neq in Hcode.
  pose proof (getHttpResponse_world E (fundURL E node w) w) as (Hw & Hl & _).
  split.
  - intros r e w1 Hfetch. rewrite Hfetch in Hw, Hl. cbn in Hw, Hl.
    split; [| auto].
    unfold getFund. rewrite Hcode.
    unfold bind at 1. unfold ask at 1. unfold bind at 1. unfold ask at 1.
    unfold bind at 1.
    change (historyURL (Code node) 1 _) with (fundURL E node w).
    rewrite Hfetch. reflexivity.
  - intros resp w1 info e Hfetch Hparse. rewrite Hfetch in Hw. cbn in Hw.
    split; [| auto].
    unfold getFund. rewrite Hcode.
    unfold bind at 1. unfold ask at 1. unfold bind at 1. unfold ask at 1.
    unfold bind at 1.
    change (historyURL (Code node) 1 _) with (fundURL E node w).
    rewrite Hfetch. unfold bind at 1. unfold log at 1.
    change {| requests := requests w1; writes := writes w1;
              logs := _ :: logs w1; slept := slept w1 |}
      with (logged E (fetchedEntry node) w1).
    unfold bind at 1. rewrite Hparse. reflexivity.
Qed.

End InstrumentContract.

(** ** The catalog parser, as its caller sees it *)

Section CatalogContract.

Context (E : Externals).

#[local] Abbreviation W := (World (URL E) (Time E) (float64 E)).

Lemma append_assoc (s t u : string) : (s +:+ t) +:+ u = s +:+ (t +:+ u).
Proof.
  induction s as [|a s IH]; [reflexivity |].
  rewrite !append_String, IH. reflexivity.
Qed.

Lemma rev_app_append (s t : string) :
  String.rev_app s t = String.rev_app s EmptyString +:+ t.
Proof.
  revert t. induction s as [|a s IH]; intros t; [reflexivity |].
  cbn [String.rev_app]. rewrite (IH (String a t)), (IH (String a EmptyString)).
  rewrite append_assoc. reflexivity.
Qed.

Lemma rev_String (a : ascii) (s : string) :
  String.rev (String a s) = String.rev s +:+ String a EmptyString.
Proof. unfold String.rev. cbn [String.rev_app]. apply rev_app_append. Qed.

Lemma rev_append (s t : string) :
  String.rev (s +:+ t) = String.rev t +:+ String.rev s.
Proof.
  induction s as [|a s IH].
  - change (EmptyString +:+ t) with t. cbn. now rewrite append_nil_r.
  - rewrite append_String, !rev_String, IH, append_assoc. reflexivity.
Qed.

Lemma rev_involutive (s : string) : String.rev (String.rev s) = s.
Proof.
  induction s as [|a s IH]; [reflexivity |].
  rewrite rev_String, rev_append, IH. reflexivity.
Qed.

Lemma trimLeftCutset_head (cutset s : string) :
  headFree cutset (strings.trimLeftCutset cutset s).
Proof.
  induction s as [|a s IH]; [exact I |].
  cbn [strings.trimLeftCutset].
  destruct (strings.inCutset cutset a) eqn:Ha; [exact IH | exact Ha].
Qed.

Lemma trimLeftCutset_suffix (cutset s : string) :
  exists p, s = p +:+ strings.trimLeftCutset cutset s.
Proof.
  induction s as [|a s [p IH]]; [exists EmptyString; reflexivity |].
  cbn [strings.trimLeftCutset]. destruct (strings.inCutset cutset a).
  - exists (String a p). rewrite append_String, <- IH. reflexivity.
  - exists EmptyString. reflexivity.
Qed.

(** What [strings.Trim] returns neither starts nor ends with a byte of
    the cutset. *)
Lemma Trim_edgeFree (s cutset : string) :
  edgeFree cutset (strings.Trim s cutset).
Proof.
  unfold strings.Trim.
  set (t1 := strings.trimLeftCutset cutset s).
  set (r := strings.trimLeftCutset cutset (String.rev t1)).
  split.
  - destruct (trimLeftCutset_suffix cutset (String.rev t1)) as [p Hp].
    fold r in Hp.
    assert (Ht1 : t1 = String.rev r +:+ String.rev p).
    { rewrite <- rev_append, <- Hp, rev_involutive. reflexivity. }
    pose proof (trimLeftCutset_head cutset s) as Hhead. fold t1 in Hhead.
    destruct (String.rev r) as [|a x]; [exact I |].
    rewrite Ht1, append_String in Hhead. exact Hhead.
  - rewrite rev_involutive. apply trimLeftCutset_head.
Qed.

Lemma slotOf_clean (list : string) : cleanNode (slotOf list).
Proof.
  unfold slotOf. destruct (fiveFields list).
  - unfold nodeOf, cleanNode. cbn. repeat split; apply Trim_edgeFree.
  - unfold cleanNode. cbn. repeat split.
Qed.

Lemma genSplit_cons (n : nat) (s sep : string) : strings.genSplit n s sep <> [].
Proof. destruct n; cbn; [| destruct (_ <? _)]; discriminate. Qed.

(** The ways [getNodeList] can go. *)
Lemma getNodeList_outcomes (w : W) :
  (exists e w1,
     getHttpResponse E catalogURL w = (Returns (None, Some e), w1)
     /\ getNodeList E w = (Returns ([], Some e), w1))
  \/ (exists resp w1,
        getHttpResponse E catalogURL w = (Returns (Some resp, None), w1)
        /\ getNodeList E w = (Panics "slice bounds out of range", w1))
  \/ (exists resp w1 lists,
        getHttpResponse E catalogURL w = (Returns (Some resp, None), w1)
        /\ lists <> []
        /\ getNodeList E w
           = (Returns (map slotOf lists, None),
              loggedAll E (warnings lists) w1)).
Proof.
  destruct (getHttpResponse_returns E catalogURL w)
    as [(resp & w1 & Hfetch) | (e & w1 & Hfetch)].
  - right. rewrite (getNodeList_fetched E _ _ _ Hfetch).
    rewrite getNodeList_parse_cases. cbv zeta.
    destruct (_ <? 4).
    + left. eauto.
    + right. exists resp, w1. eexists. split; [exact Hfetch |].
      split; [| reflexivity]. apply genSplit_cons.
  - left. exists e, w1. split; [exact Hfetch |].
    unfold getNodeList, bind. rewrite Hfetch. reflexivity.
Qed.

(** X8.  [getNodeList] never returns an empty list without an error:
    [strings.Split] gives at least one piece, and every piece gets a slot,
    so even a catalog that holds no tuple gives one record. *)
Theorem getNodeList_never_empty (w : W) (nodeList : list FundNode) (w' : W) :
  getNodeList E w = (Returns (nodeList, None), w') ->
  nodeList <> [].
Proof.
  intros H.
  destruct (getNodeList_outcomes w)
    as [(e & w1 & _ & H') | [(resp & w1 & _ & H')
       | (resp & w1 & lists & _ & Hne & H')]];
    rewrite H' in H; try discriminate.
  injection H as <- _. destruct lists; [congruence | discriminate].
Qed.

(** X9.  No field of a record that [getNodeList] returns starts or ends
    with a double quote or a square bracket. *)
Theorem getNodeList_clean_fields (w : W) (nodeList : list FundNode)
    (err : option error) (w' : W) :
  getNodeList E w = (Returns (nodeList, err), w') ->
  Forall cleanNode nodeList.
Proof.
  intros H.
  destruct (getNodeList_outcomes w)
    as [(e & w1 & _ & H') | [(resp & w1 & _ & H')
       | (resp & w1 & lists & _ & Hne & H')]];
    rewrite H' in H; try discriminate.
  - injection H as <- _ _. constructor.
  - injection H as <- _ _. clear. induction lists as [|l ls IH]; cbn;
      constructor; [apply slotOf_clean | exact IH].
Qed.

(** X10.  What precedes the first [=] of the catalog body plays no part:
    two bodies with the same text after their first [=] are parsed
    alike. *)
Theorem getNodeList_parse_after_equals (body1 body2 rest : string) (w : W) :
  afterFirst "=" body1 rest -> afterFirst "=" body2 rest ->
  getNodeList_parse E body1 w = getNodeList_parse E body2 w.
Proof.
  intros H1 H2. rewrite !getNodeList_parse_cases. cbv zeta.
  rewrite (afterFirst_drop _ _ H1), (afterFirst_drop _ _ H2). reflexivity.
Qed.

(** [getNodeList] neither writes nor sleeps, and makes at most three
    requests. *)
Lemma getNodeList_frame (w : W) :
  writes (snd (getNodeList E w)) = writes w
  /\ slept (snd (getNodeList E w)) = slept w
  /\ (length (requests (snd (getNodeList E w)))
      <= length (requests w) + 3)%nat.
Proof.
  pose proof (getHttpResponse_world E catalogURL w) as (Hw & _ & Hs).
  pose proof (getHttpResponse_request_bound E catalogURL w) as Hr.
  destruct (getNodeList_outcomes w)
    as [(e & w1 & Hf & H') | [(resp & w1 & Hf & H')
       | (resp & w1 & lists & Hf & Hne & H')]];
    rewrite Hf in Hw, Hs, Hr; rewrite H'; cbn in *; auto.
Qed.

End CatalogContract.

(** ** The history parser and the unexported field *)

Section Unexported.

Import json.

Lemma fold_left_inv {A B : Type} (P : A -> Prop) (f : A -> B -> A)
    (l : list B) (a : A) :
  (forall a b, P a -> P (f a b)) -> P a -> P (fold_left f l a).
Proof.
  intros Hf. revert a. induction l as [|b l IH]; intros a Ha; cbn;
    [exact Ha | apply IH, Hf, Ha].
Qed.

Lemma storeFundDetails_isNewType (v : value) (old : FundDetails)
    (saved : option error) :
  isNewType (fst (storeFundDetails v old saved)) = isNewType old.
Proof.
  destruct v; try reflexivity. cbn [storeFundDetails].
  apply (fold_left_inv
           (fun acc : FundDetails * option error =>
              isNewType (fst acc) = isNewType old)); [| reflexivity].
  intros [d sv] m Hd. cbn in Hd. unfold storeDetailsMember.
  repeat case_match; cbn; exact Hd.
Qed.

Lemma storeFundInfo_isNewType (v : value) (old : FundInfo)
    (saved : option error) :
  isNewType (Data (fst (storeFundInfo v old saved))) = isNewType (Data old).
Proof.
  destruct v; try reflexivity. cbn [storeFundInfo].
  apply (fold_left_inv
           (fun acc : FundInfo * option error =>
              isNewType (Data (fst acc)) = isNewType (Data old)));
    [| reflexivity].
  intros [i sv] m Hi. cbn in Hi. unfold storeInfoMember.
  pose proof (storeFundDetails_isNewType (snd m) (Data i) sv) as Hd.
  repeat case_match; cbn; try exact Hi.
  cbn in Hd. congruence.
Qed.

Lemma Decode_isNewType (data : string) (info : FundInfo) :
  isNewType (Data (fst (Decode data info))) = isNewType (Data info).
Proof.
  unfold Decode. destruct (readValue data); [| reflexivity].
  apply storeFundInfo_isNewType.
Qed.

End Unexported.

Section HistoryContract.

Context (E : Externals).

#[local] Abbreviation W := (World (URL E) (Time E) (float64 E)).

(** X11.  No response body sets [isNewType]: the field is not exported, so
    the decoder never stores into it, and every envelope that [parseFund]
    returns has it false. *)
Theorem parseFund_isNewType (resp : Response) (w : W) (info : FundInfo)
    (err : option error) (w' : W) :
  parseFund E (Some resp) w = (Returns (info, err), w') ->
  isNewType (Data info) = false.
Proof.
  unfold parseFund. destruct (ReadErr resp).
  { intros H. injection H as <- _ _. reflexivity. }
  destruct (strings.Index (Body resp) "{" =? -1) eqn:Hbeg.
  { intros H. injection H as <- _ _. reflexivity. }
  apply Z.eqb_neq in Hbeg.
  rewrite slice_from_inside.
  - unfold bind. cbn [sliced ret]. intros H.
    pose proof (Decode_isNewType
                  (json.drop (Z.to_nat (strings.Index (Body resp) "{"))
                     (Body resp)) zeroFundInfo) as Hd.
    destruct (json.Decode _ _) as [i e]. injection H as <- _ _. exact Hd.
  - destruct (Index_range (Body resp) "{") as [? | [? ?]]; [contradiction |].
    change (strings.len "{") with 1 in *. lia.
Qed.

End HistoryContract.

(** ** The cycle *)

Section Cycle.

Context (E : Externals).

#[local] Abbreviation W := (World (URL E) (Time E) (float64 E)).

(** X12.  When the catalog cannot be fetched, [run] returns the error of
    the fetch and does nothing else: no instrument is requested, nothing
    is written or logged, and there is no pause. *)
Theorem run_discovery_failure (w : W) (resp : option Response) (err : error)
    (w1 : W) :
  getHttpResponse E catalogURL w = (Returns (resp, Some err), w1) ->
  run E w = (Returns (Some err), w1)
  /\ writes w1 = writes w
  /\ logs w1 = logs w
  /\ slept w1 = slept w
  /\ (length (requests w1) <= length (requests w) + 3)%nat.
Proof.
  intros Hfetch.
  pose proof (getHttpResponse_world E catalogURL w) as (Hw & Hl & Hs).
  pose proof (getHttpResponse_request_bound E catalogURL w) as Hr.
  rewrite Hfetch in Hw, Hl, Hs, Hr. cbn in Hw, Hl, Hs, Hr.
  split; [| auto].
  unfold run, getNodeList. unfold bind. rewrite Hfetch. reflexivity.
Qed.

(** X13.  A catalog body that is too short does not make [run] return an
    error: the panic of [getNodeList] goes through [run], with no
    instrument processed. *)
Theorem run_short_catalog_panics (w w1 : W) (resp : Response) (rest : string) :
  getHttpResponse E catalogURL w = (Returns (Some resp, None), w1) ->
  afterFirst "=" (Body resp) rest ->
  strings.len (strings.TrimSpace rest) < 4 ->
  run E w = (Panics "slice bounds out of range", w1).
Proof.
  intros Hfetch Hrest Hlen.
  unfold run. unfold bind at 1.
  rewrite (getNodeList_fetched E _ _ _ Hfetch), getNodeList_parse_cases.
  cbv zeta. rewrite (afterFirst_drop _ _ Hrest).
  apply Z.ltb_lt in Hlen. rewrite Hlen. reflexivity.
Qed.

(** The requests and batches of one call of [getFund]: none for a record
    without a code. *)
Lemma getFund_bounds (node : FundNode) (w : W) :
  let c := if String.eqb (Code node) EmptyString then 0%nat else 1%nat in
  (length (requests (snd (getFund E node w)))
   <= length (requests w) + 3 * c)%nat
  /\ (length (writes (snd (getFund E node w)))
      <= length (writes w) + c)%nat.
Proof.
  pose proof (getHttpResponse_world E (fundURL E node w) w) as (Hfw & _ & _).
  pose proof (getHttpResponse_request_bound E (fundURL E node w) w) as Hfr.
  destruct (getFund_outcomes E node w)
    as [[Hc H] | [(Hc & e & w1 & Hfetch & H)
       | [(Hc & resp & w1 & info & e & Hfetch & _ & H)
         | (Hc & info & w2 & Hf & H)]]].
  - rewrite H. cbn. lia.
  - apply String.eqb_neq in Hc. rewrite Hc, H.
    rewrite Hfetch in Hfw, Hfr. cbn in *. rewrite Hfw. lia.
  - apply String.eqb_neq in Hc. rewrite Hc, H.
    rewrite Hfetch in Hfw, Hfr. cbn in *. rewrite Hfw. lia.
  - apply String.eqb_neq in Hc. rewrite Hc, H.
    destruct Hf as (resp & w1 & Hfetch & -> & _).
    rewrite Hfetch in Hfw, Hfr. cbn in Hfw, Hfr.
    destruct (negb (ErrCode info =? 0)); [cbn; rewrite Hfw; lia |].
    rewrite sink_cases. repeat case_match; cbn; rewrite Hfw; lia.
Qed.

Lemma afterInstrument_bounds (w : W) (node : FundNode) :
  let c := if String.eqb (Code node) EmptyString then 0%nat else 1%nat in
  (length (requests (afterInstrument E w node))
   <= length (requests w) + 3 * c)%nat
  /\ (length (writes (afterInstrument E w node))
      <= length (writes w) + c)%nat.
Proof.
  pose proof (getFund_bounds node w) as Hb.
  destruct (afterInstrument_cases E w node) as (r & wb & H & ->).
  rewrite H in Hb. destruct r; exact Hb.
Qed.

Lemma fold_afterInstrument_bounds (nodeList : list FundNode) (w : W) :
  (length (requests (fold_left (afterInstrument E) nodeList w))
   <= length (requests w) + 3 * coded nodeList)%nat
  /\ (length (writes (fold_left (afterInstrument E) nodeList w))
      <= length (writes w) + coded nodeList)%nat.
Proof.
  revert w. induction nodeList as [|node rest IH]; intros w.
  - cbn. lia.
  - cbn [fold_left coded].
    destruct (IH (afterInstrument E w node)) as [Hr Hw].
    destruct (afterInstrument_bounds w node) as [Hr1 Hw1].
    cbv zeta in Hr1, Hw1. lia.
Qed.

(** X14.  The cost of a cycle.  After a discovery of N records of which M
    have a code, [run] has slept exactly N seconds, has made at most 3
    requests for the catalog and 3 for each of the M records, and has
    handed at most M batches to the InfluxDB client: a record without a
    code is never requested and never written. *)
Theorem run_cycle_bounds (w : W) (nodeList : list FundNode) (w1 : W) :
  getNodeList E w = (Returns (nodeList, None), w1) ->
  slept (snd (run E w)) = slept w + Z.of_nat (length nodeList)
  /\ (length (requests (snd (run E w)))
      <= length (requests w) + 3 + 3 * coded nodeList)%nat
  /\ (length (writes (snd (run E w)))
      <= length (writes w) + coded nodeList)%nat.
Proof.
  intros Hlist.
  pose proof (getNodeList_frame E w) as (Hw & Hs & Hr).
  rewrite Hlist in Hw, Hs, Hr. cbn in Hw, Hs, Hr.
  assert (Hrun : run E w
                 = (Returns None, fold_left (afterInstrument E) nodeList w1)).
  { unfold run. unfold bind at 1. rewrite Hlist.
    unfold bind. rewrite run_loop_all. reflexivity. }
  rewrite Hrun. cbn [snd].
  destruct (fold_afterInstrument_bounds nodeList w1) as [Hr' Hw'].
  rewrite fold_afterInstrument_slept, Hs. rewrite Hw in Hw'.
  repeat split; lia.
Qed.

End Cycle.

Section RoundTrip.

Context (E : Externals).

#[local] Abbreviation W := (World (URL E) (Time E) (float64 E)).

Example renderCatalog_example :
  renderCatalog "var r " [Payload.alpha; Payload.beta] = Payload.catalog2.
Proof. reflexivity. Qed.

(** *** Searching past bytes that cannot start the separator *)

Lemma prefix_append (sep rest : string) : String.prefix sep (sep +:+ rest) = true.
Proof.
  induction sep as [|a sep IH]; [apply prefix_nil |].
  rewrite append_String. cbn [String.prefix].
  destruct (ascii_dec a a); [exact IH | congruence].
Qed.

Lemma Index_append_sep (sep rest : string) :
  strings.Index (sep +:+ rest) sep = 0.
Proof.
  destruct (sep +:+ rest) eqn:Hs; cbn [strings.Index];
    rewrite <- Hs, prefix_append; reflexivity.
Qed.

(** A search steps over a byte at which the separator does not start. *)
Lemma Index_step (a : ascii) (s sep : string) :
  String.prefix sep (String a s) = false ->
  strings.Index (String a s) sep
  = if strings.Index s sep <? 0 then -1 else strings.Index s sep + 1.
Proof. intros H. cbn [strings.Index]. rewrite H. reflexivity. Qed.

Lemma inCutset_occurs (c a : ascii) :
  strings.inCutset (String c EmptyString) a = Ascii.eqb a c.
Proof. cbn. apply orb_false_r. Qed.

(** A search steps over a text that has no first byte of the separator. *)
Lemma Index_free (c : ascii) (sep' f rest : string) :
  free (String c EmptyString) f = true ->
  strings.Index (f +:+ rest) (String c sep')
  = if strings.Index rest (String c sep') <? 0 then -1
    else strings.len f + strings.Index rest (String c sep').
Proof.
  induction f as [|a f IH]; intros Hfree.
  - change (EmptyString +:+ rest) with rest.
    destruct (Index_range rest (String c sep')) as [-> | [H0 _]];
      [reflexivity |].
    destruct (_ <? 0) eqn:Hn; [apply Z.ltb_lt in Hn; lia | reflexivity].
  - cbn [free] in Hfree. apply andb_prop in Hfree as [Ha Hf].
    rewrite inCutset_occurs in Ha. apply negb_true_iff in Ha.
    rewrite append_String, Index_step.
    + rewrite (IH Hf), len_String. pose proof (len_nonneg f).
      destruct (Index_range rest (String c sep')) as [Hr | [H0 _]].
      * rewrite Hr. reflexivity.
      * destruct (strings.Index rest (String c sep') <? 0) eqn:Hn;
          [apply Z.ltb_lt in Hn; lia |].
        destruct (strings.len f + _ <? 0) eqn:Hn';
          [apply Z.ltb_lt in Hn'; lia | lia].
    + cbn [String.prefix]. destruct (ascii_dec c a) as [-> | _];
        [| reflexivity].
      rewrite Ascii.eqb_refl in Ha. discriminate.
Qed.

Lemma substring_append_l (f rest : string) :
  String.substring 0 (String.length f) (f +:+ rest) = f.
Proof.
  rewrite substring_append by lia. apply substring_all. lia.
Qed.

Lemma substring_drop (s : string) (k m : nat) :
  (String.length s <= k + m)%nat -> String.substring k m s = json.drop k s.
Proof. intros H. unfold json.drop. apply substring_enough; lia. Qed.

(** One cut of the splitting loop, at a piece that ends where the
    separator is first found. *)
Lemma genSplit_at (n : nat) (sep f rest : string) :
  strings.Index (f +:+ sep +:+ rest) sep = strings.len f ->
  strings.genSplit (S n) (f +:+ sep +:+ rest) sep
  = f :: strings.genSplit n rest sep.
Proof.
  intros HI. cbn [strings.genSplit]. rewrite HI.
  pose proof (len_nonneg f) as Hlen.
  destruct (strings.len f <? 0) eqn:Hn; [apply Z.ltb_lt in Hn; lia |].
  replace (Z.to_nat (strings.len f)) with (String.length f)
    by (unfold strings.len; lia).
  rewrite substring_append_l. f_equal. f_equal.
  rewrite substring_drop by lia.
  replace (Z.to_nat (strings.len f + strings.len sep))
    with (String.length (f +:+ sep))
    by (rewrite length_append; unfold strings.len; lia).
  rewrite <- append_assoc. apply drop_append.
Qed.

(** A piece without the first byte of the separator ends at the
    separator. *)
Lemma Index_piece (c : ascii) (sep' f rest : string) :
  free (String c EmptyString) f = true ->
  strings.Index (f +:+ String c sep' +:+ rest) (String c sep')
  = strings.len f.
Proof.
  intros Hfree.
  rewrite (Index_free _ _ _ _ Hfree), Index_append_sep. cbn [Z.ltb Z.compare].
  lia.
Qed.

Lemma Index_none (c : ascii) (sep' f : string) :
  free (String c EmptyString) f = true ->
  strings.Index f (String c sep') = -1.
Proof.
  intros Hfree. rewrite <- (append_nil_r f) at 1.
  rewrite (Index_free _ _ _ _ Hfree). reflexivity.
Qed.

(** The last piece: the search fails and the loop ends. *)
Lemma genSplit_last (n : nat) (sep f : string) :
  strings.Index f sep = -1 -> strings.genSplit n f sep = [f].
Proof. intros H. destruct n; cbn [strings.genSplit]; [| rewrite H]; reflexivity. Qed.

Lemma concat_length (sep : string) (pieces : list string) :
  sep <> EmptyString ->
  (length pieces <= S (String.length (String.concat sep pieces)))%nat.
Proof.
  intros Hsep. induction pieces as [|p [|p' rest] IH]; cbn [length]; [lia .. |].
  change (String.concat sep (p :: p' :: rest))
    with (p +:+ sep +:+ String.concat sep (p' :: rest)).
  rewrite !length_append. cbn [length] in IH.
  destruct sep; [congruence |]. cbn [String.length]. lia.
Qed.

(** Splitting what was joined: pieces that have no first byte of the
    separator come back as they were. *)
Lemma genSplit_concat (c : ascii) (sep' : string) (pieces : list string)
    (n : nat) :
  pieces <> [] ->
  Forall (fun p => free (String c EmptyString) p = true) pieces ->
  (length pieces <= S n)%nat ->
  strings.genSplit n (String.concat (String c sep') pieces) (String c sep')
  = pieces.
Proof.
  intros Hne Hfree. revert n.
  induction pieces as [|p [|p' rest] IH]; intros n Hn; [congruence | |].
  - cbn [String.concat]. apply genSplit_last, Index_none.
    now inversion Hfree.
  - change (String.concat (String c sep') (p :: p' :: rest))
      with (p +:+ String c sep' +:+ String.concat (String c sep') (p' :: rest)).
    cbn [length] in Hn. destruct n as [|n]; [lia |].
    inversion Hfree as [|? ? Hp Hrest]; subst.
    rewrite genSplit_at by now apply Index_piece.
    rewrite IH; [reflexivity | discriminate | exact Hrest | cbn [length]; lia].
Qed.

(** *** Trimming a field that is wrapped in bytes of the cutset *)

Lemma free_append (set s t : string) :
  free set (s +:+ t) = free set s && free set t.
Proof.
  induction s as [|a s IH]; [reflexivity |].
  rewrite append_String. cbn [free]. rewrite IH. apply andb_assoc.
Qed.

Lemma free_rev (set s : string) : free set (String.rev s) = free set s.
Proof.
  induction s as [|a s IH]; [reflexivity |].
  rewrite rev_String, free_append, IH. cbn [free].
  rewrite andb_true_r. apply andb_comm.
Qed.

Lemma trimLeftCutset_headFree (cutset s : string) :
  headFree cutset s -> strings.trimLeftCutset cutset s = s.
Proof.
  destruct s as [|a s]; [reflexivity |]. cbn [headFree strings.trimLeftCutset].
  intros ->. reflexivity.
Qed.

Lemma free_headFree (cutset s : string) :
  free cutset s = true -> headFree cutset s.
Proof.
  destruct s as [|a s]; [exact (fun _ => I) |]. cbn [free headFree].
  intros H. apply andb_prop in H as [H _]. now apply negb_true_iff in H.
Qed.

Lemma trimLeftCutset_free (cutset s : string) :
  free cutset s = true -> strings.trimLeftCutset cutset s = s.
Proof. intros H. apply trimLeftCutset_headFree, free_headFree, H. Qed.

Lemma Trim_free (f cutset : string) :
  free cutset f = true -> strings.Trim f cutset = f.
Proof.
  intros H. unfold strings.Trim.
  rewrite (trimLeftCutset_free _ _ H), trimLeftCutset_free
    by now rewrite free_rev.
  apply rev_involutive.
Qed.

(** The first field of a tuple loses the bracket and the quote before
    it. *)
Lemma Trim_first (f : string) :
  free (quoted "'[]") f = true ->
  strings.Trim (String "[" (String "034" f)) (quoted "'[]") = f.
Proof.
  intros H. unfold strings.Trim.
  change (strings.trimLeftCutset (quoted "'[]") (String "[" (String "034" f)))
    with (strings.trimLeftCutset (quoted "'[]") f).
  apply (Trim_free _ _ H).
Qed.

(** The last field of a tuple loses the quote after it. *)
Lemma Trim_last (f : string) :
  free (quoted "'[]") f = true ->
  strings.Trim (f +:+ String "034" EmptyString) (quoted "'[]") = f.
Proof.
  intros H. unfold strings.Trim. destruct f as [|a f]; [reflexivity |].
  rewrite (trimLeftCutset_headFree _ (String a f +:+ _))
    by (rewrite append_String; exact (free_headFree _ _ H)).
  rewrite rev_append.
  change (String.rev (String "034" EmptyString) +:+ String.rev (String a f))
    with (String "034" (String.rev (String a f))).
  change (strings.trimLeftCutset (quoted "'[]")
            (String "034" (String.rev (String a f))))
    with (strings.trimLeftCutset (quoted "'[]") (String.rev (String a f))).
  rewrite trimLeftCutset_free by now rewrite free_rev.
  apply rev_involutive.
Qed.

(** *** A plain field *)

Lemma plain_free (f : string) :
  plain f ->
  free (String "034" EmptyString) f = true
  /\ free "," f = true /\ free "]" f = true
  /\ free (quoted "'[]") f = true.
Proof.
  unfold plain. induction f as [|a f IH]; [repeat split |].
  cbn [free]. intros H. apply andb_prop in H as [Ha Hf].
  destruct (IH Hf) as (H1 & H2 & H3 & H4). rewrite H1, H2, H3, H4.
  cbn in Ha |- *.
  destruct (Ascii.eqb a "034"), (Ascii.eqb a ","), (Ascii.eqb a "["),
    (Ascii.eqb a "]"); cbn in Ha |- *; try discriminate; repeat split.
Qed.

(** *** One tuple *)

(** The separator of the fields does not start at the quote that opens
    the first field: a comma would have to follow it. *)
Lemma prefix_opening (f rest : string) :
  free "," f = true ->
  String.prefix (quoted "','")
    (String "034" (f +:+ quoted "','" +:+ rest)) = false.
Proof.
  intros H. destruct f as [|a f]; [reflexivity |].
  cbn [free] in H. apply andb_prop in H as [H _].
  rewrite inCutset_occurs in H. apply negb_true_iff in H.
  rewrite append_String.
  change (quoted "','") with (String "034" (String "," (String "034" EmptyString))).
  cbn [String.prefix]. destruct (ascii_dec "034" "034"); [| congruence].
  destruct (ascii_dec "," a) as [<- | _]; [discriminate | reflexivity].
Qed.

Lemma genSplit_openTuple (node : FundNode) (n : nat) :
  plainNode node ->
  (4 <= n)%nat ->
  strings.genSplit n (openTuple node) (quoted "','")
  = [String "[" (String "034" (Code node)); Abridge node; Name node;
     Type_ node; Pinyin node +:+ String "034" EmptyString].
Proof.
  intros (Hc & Ha & Hn & Ht & Hp) Hfuel.
  apply plain_free in Hc as (Hc & Hcc & _ & _).
  apply plain_free in Ha as (Ha & _ & _ & _).
  apply plain_free in Hn as (Hn & _ & _ & _).
  apply plain_free in Ht as (Ht & _ & _ & _).
  apply plain_free in Hp as (Hp & _ & _ & _).
  do 4 (destruct n as [|n]; [lia |]). clear Hfuel.
  unfold openTuple.
  set (sep := quoted "','").
  set (rest := Abridge node +:+ _).
  change (String "[" (String "034" (Code node +:+ sep +:+ rest)))
    with (String "[" (String "034" (Code node)) +:+ sep +:+ rest).
  rewrite genSplit_at.
  - subst rest. rewrite !genSplit_at by (apply Index_piece; assumption).
    rewrite genSplit_last; [reflexivity |].
    unfold sep. change (quoted "','") with (String "034" (String "," (String "034" EmptyString))).
    rewrite (Index_free _ _ _ _ Hp). reflexivity.
  - rewrite !append_String, !len_String.
    rewrite Index_step by reflexivity.
    rewrite Index_step by (apply prefix_opening; assumption).
    unfold sep. change (quoted "','") with (String "034" (String "," (String "034" EmptyString))).
    rewrite Index_piece by assumption.
    pose proof (len_nonneg (Code node)) as Hlen.
    destruct (strings.len (Code node) <? 0) eqn:H1;
      [apply Z.ltb_lt in H1; lia |].
    destruct (strings.len (Code node) + 1 <? 0) eqn:H2;
      [apply Z.ltb_lt in H2; lia | reflexivity].
Qed.

Lemma slotOf_openTuple (node : FundNode) :
  plainNode node ->
  fiveFields (openTuple node) = true /\ slotOf (openTuple node) = node.
Proof.
  intros Hnode.
  assert (strings.Split (openTuple node) (quoted "','")
          = [String "[" (String "034" (Code node)); Abridge node; Name node;
             Type_ node; Pinyin node +:+ String "034" EmptyString]) as Hsplit.
  { apply genSplit_openTuple; [exact Hnode |].
    unfold openTuple. cbn [String.length]. rewrite !length_append.
    cbn [String.length quoted]. lia. }
  unfold slotOf, fiveFields. rewrite Hsplit. split; [reflexivity |].
  cbn [length Nat.eqb]. unfold nodeOf. cbn [nth].
  destruct Hnode as (Hc & Ha & Hn & Ht & Hp).
  apply plain_free in Hc as (_ & _ & _ & Hc).
  apply plain_free in Ha as (_ & _ & _ & Ha).
  apply plain_free in Hn as (_ & _ & _ & Hn).
  apply plain_free in Ht as (_ & _ & _ & Ht).
  apply plain_free in Hp as (_ & _ & _ & Hp).
  rewrite (Trim_first _ Hc), (Trim_free _ _ Ha), (Trim_free _ _ Hn),
    (Trim_free _ _ Ht), (Trim_last _ Hp).
  destruct node; reflexivity.
Qed.

(** *** The array of the tuples *)

Lemma openTuple_free (node : FundNode) :
  plainNode node -> free "]" (openTuple node) = true.
Proof.
  intros (Hc & Ha & Hn & Ht & Hp).
  apply plain_free in Hc as (_ & _ & Hc & _).
  apply plain_free in Ha as (_ & _ & Ha & _).
  apply plain_free in Hn as (_ & _ & Hn & _).
  apply plain_free in Ht as (_ & _ & Ht & _).
  apply plain_free in Hp as (_ & _ & Hp & _).
  unfold openTuple. cbn [free]. rewrite !free_append, Hc, Ha, Hn, Ht, Hp.
  reflexivity.
Qed.

(** The tuples joined by commas are the open tuples joined by a closing
    bracket and a comma, and one closing bracket. *)
Lemma concat_renderTuple (nodeList : list FundNode) :
  nodeList <> [] ->
  String.concat "," (map renderTuple nodeList)
  = String.concat "]," (map openTuple nodeList) +:+ "]".
Proof.
  induction nodeList as [|node [|node' rest] IH]; intros Hne;
    [congruence | reflexivity |].
  change (String.concat "," (map renderTuple (node :: node' :: rest)))
    with (renderTuple node +:+ ","
          +:+ String.concat "," (map renderTuple (node' :: rest))).
  change (String.concat "]," (map openTuple (node :: node' :: rest)))
    with (openTuple node +:+ "],"
          +:+ String.concat "]," (map openTuple (node' :: rest))).
  rewrite IH by discriminate. unfold renderTuple.
  rewrite !append_assoc. reflexivity.
Qed.

Lemma concat_openTuple (nodeList : list FundNode) :
  nodeList <> [] ->
  exists inner, String.concat "]," (map openTuple nodeList)
                = String "[" (String "034" inner).
Proof.
  destruct nodeList as [|node [|node' rest]]; intros Hne; [congruence | |].
  - eexists. reflexivity.
  - change (String.concat "]," (map openTuple (node :: node' :: rest)))
      with (openTuple node +:+ "],"
            +:+ String.concat "]," (map openTuple (node' :: rest))).
    unfold openTuple. rewrite !append_String. eexists. reflexivity.
Qed.

Lemma slotOf_openTuples (nodeList : list FundNode) :
  Forall plainNode nodeList ->
  map slotOf (map openTuple nodeList) = nodeList
  /\ warnings (map openTuple nodeList) = [].
Proof.
  induction 1 as [|node rest Hnode _ [IH1 IH2]]; [split; reflexivity |].
  destruct (slotOf_openTuple _ Hnode) as [H5 Hslot].
  cbn [map warnings]. rewrite Hslot, IH1, IH2, H5. split; reflexivity.
Qed.

(** White space is trimmed around the array and nowhere else. *)
Lemma TrimSpace_array (inner : string) :
  strings.TrimSpace
    (String " " (String "[" (String "[" (String "034" inner +:+ "]];"))))
  = String "[" (String "[" (String "034" inner +:+ "]];")).
Proof.
  unfold strings.TrimSpace. rewrite append_String.
  change (strings.trimLeftSpace
            (String " " (String "[" (String "[" (String "034" (inner +:+ "]];"))))))
    with (String "[" (String "[" (String "034" (inner +:+ "]];")))).
  change (String "[" (String "[" (String "034" (inner +:+ "]];"))))
    with (String "[" (String "[" (String "034" inner)) +:+ "]];").
  rewrite rev_append.
  change (String.rev "]];") with ";]]". rewrite !append_String.
  change (EmptyString +:+ ?x) with x.
  set (r := String.rev (String "[" _)).
  change (strings.trimLeftSpaceRev (String ";" (String "]" (String "]" r))))
    with (String ";" (String "]" (String "]" r))).
  rewrite !rev_String. subst r. rewrite rev_involutive, !append_assoc.
  reflexivity.
Qed.

(** *** The round trip *)

Lemma renderCatalog_afterFirst (pre : string) (nodeList : list FundNode) :
  occurs "=" pre = false ->
  afterFirst "=" (renderCatalog pre nodeList)
    (String " " (String "["
       (String.concat "," (map renderTuple nodeList) +:+ "];"))).
Proof. intros Hpre. right. exists pre. split; [exact Hpre | reflexivity]. Qed.

Lemma getNodeList_parse_rendered (pre : string) (nodeList : list FundNode)
    (w : W) :
  occurs "=" pre = false ->
  nodeList <> [] ->
  Forall plainNode nodeList ->
  getNodeList_parse E (renderCatalog pre nodeList) w
  = (Returns (nodeList, None), w).
Proof.
  intros Hpre Hne Hplain.
  rewrite getNodeList_parse_cases. cbv zeta.
  rewrite (afterFirst_drop _ _ (renderCatalog_afterFirst _ _ Hpre)).
  rewrite (concat_renderTuple _ Hne).
  set (joined := String.concat "]," (map openTuple nodeList)).
  destruct (concat_openTuple _ Hne) as [inner Hinner]. fold joined in Hinner.
  rewrite append_assoc. change ("]" +:+ "];") with "]];".
  assert (strings.TrimSpace (String " " (String "[" (joined +:+ "]];")))
          = String "[" (joined +:+ "]];")) as ->.
  { rewrite Hinner, append_String. apply TrimSpace_array. }
  assert (strings.len (String "[" (joined +:+ "]];"))
          = strings.len joined + 4) as Hlen.
  { unfold strings.len. cbn [String.length]. rewrite length_append.
    cbn [String.length]. lia. }
  rewrite Hlen. pose proof (len_nonneg joined) as Hpos.
  destruct (strings.len joined + 4 <? 4) eqn:H4;
    [apply Z.ltb_lt in H4; lia |].
  replace (Z.to_nat (strings.len joined + 4 - 4)) with (String.length joined)
    by (unfold strings.len; lia).
  cbn [String.substring]. rewrite substring_append_l.
  unfold strings.Split, joined.
  rewrite genSplit_concat.
  - destruct (slotOf_openTuples _ Hplain) as [-> ->].
    destruct w; reflexivity.
  - destruct nodeList; [congruence | discriminate].
  - apply Forall_map. eapply Forall_impl; [exact Hplain |].
    intros node Hnode. apply (openTuple_free _ Hnode).
  - apply concat_length. discriminate.
Qed.

(** X15.  Reading back a catalog that was written from records: when the
    body of the answer is the rendering of a non-empty list of records
    whose fields have no double quote, comma or square bracket, after a
    text without [=], [getNodeList] returns exactly these records, in
    order, with no error and no warning. *)
Theorem getNodeList_round_trip (w w1 : W) (resp : Response) (pre : string)
    (nodeList : list FundNode) :
  getHttpResponse E catalogURL w = (Returns (Some resp, None), w1) ->
  Body resp = renderCatalog pre nodeList ->
  occurs "=" pre = false ->
  nodeList <> [] ->
  Forall plainNode nodeList ->
  getNodeList E w = (Returns (nodeList, None), w1).
Proof.
  intros Hfetch Hbody Hpre Hne Hplain.
  rewrite (getNodeList_fetched _ _ _ _ Hfetch), Hbody.
  now apply getNodeList_parse_rendered.
Qed.

End RoundTrip.

(** ** The further properties, run *)

(** An envelope without records: the batch that is written is empty. *)
Lemma sink_empty_envelope_witness :
  let E := Script.env (Script.always EmptyString) in
  fst (sink E Payload.alpha zeroFundInfo Script.start) = Returns None
  /\ writes (snd (sink E Payload.alpha zeroFundInfo Script.start))
     = [{| Database := "fund"; Points := [] |}].
Proof.
  intros E.
  exact (sink_empty_envelope E Payload.alpha zeroFundInfo Script.start
           eq_refl eq_refl).
Defined.


(** Every request is answered with status 500: [getFund] passes the error
    of the fetch on. *)
Lemma getFund_passes_errors_on_witness :
  let E := Script.env (Script.status 500) in
  getFund E Payload.alpha Script.start
  = (Returns (Some (HttpCodeError 500 (fundURL E Payload.alpha Script.start))),
     snd (getHttpResponse E (fundURL E Payload.alpha Script.start)
            Script.start)).
Proof.
  intros E.
  refine (proj1 (proj1
    (getFund_passes_errors_on E Payload.alpha Script.start _)
    None (HttpCodeError 500 (fundURL E Payload.alpha Script.start))
    (snd (getHttpResponse E (fundURL E Payload.alpha Script.start)
            Script.start)) _)).
  - discriminate.
  - vm_compute. reflexivity.
Defined.

(** An array without a tuple still gives one record, the zero record. *)
Lemma getNodeList_never_empty_witness :
  let E := Script.env (Script.always "var r = [ ];") in
  getNodeList E Script.start
  = (Returns ([zeroFundNode], None), snd (getNodeList E Script.start))
  /\ [zeroFundNode] <> [].
Proof.
  intros E.
  assert (getNodeList E Script.start
          = (Returns ([zeroFundNode], None), snd (getNodeList E Script.start)))
    as H by (vm_compute; reflexivity).
  split; [exact H |].
  exact (getNodeList_never_empty E Script.start [zeroFundNode] _ H).
Defined.

(** The records of the catalog of three tuples have clean fields. *)
Lemma getNodeList_clean_fields_witness :
  Forall cleanNode [Payload.alpha; zeroFundNode; Payload.gamma].
Proof.
  refine (getNodeList_clean_fields
            (Script.env (Script.always Payload.catalog3)) Script.start
            [Payload.alpha; zeroFundNode; Payload.gamma] None
            (snd (getNodeList (Script.env (Script.always Payload.catalog3))
                    Script.start)) _).
  vm_compute. reflexivity.
Defined.

(** The name of the variable does not matter. *)
Lemma getNodeList_parse_after_equals_witness :
  let E := Script.env (Script.always EmptyString) in
  getNodeList_parse E (quoted "var r = [['001','A','Alpha','T1','a']];")
    Script.start
  = getNodeList_parse E
      (quoted "window.funds = [['001','A','Alpha','T1','a']];") Script.start.
Proof.
  intros E.
  apply (getNodeList_parse_after_equals E _ _
           (quoted " [['001','A','Alpha','T1','a']];")).
  - right. exists "var r ". split; reflexivity.
  - right. exists "window.funds ". split; reflexivity.
Defined.

(** A body that has [isNewType] set: the envelope has it false. *)
Lemma parseFund_isNewType_witness :
  let E := Script.env (Script.always EmptyString) in
  let resp :=
    {| StatusCode := 200;
       Body := quoted "cb({'Data':{'LSJZList':[],'isNewType':true,'Feature':'x'},'ErrCode':0})";
       ReadErr := None |} in
  exists info,
    fst (parseFund E (Some resp) Script.start) = Returns (info, None)
    /\ Feature (Data info) = "x"
    /\ isNewType (Data info) = false.
Proof.
  intros E resp.
  assert (exists info, parseFund E (Some resp) Script.start
                       = (Returns (info, None),
                          snd (parseFund E (Some resp) Script.start))
                       /\ Feature (Data info) = "x") as [info [H HF]]
    by (eexists; split; vm_compute; reflexivity).
  exists info. split; [rewrite H; reflexivity |]. split; [exact HF |].
  exact (parseFund_isNewType E resp Script.start info None _ H).
Defined.

(** Every request is answered with status 500: [run] returns the error of
    the catalog fetch. *)
Lemma run_discovery_failure_witness :
  let E := Script.env (Script.status 500) in
  run E Script.start
  = (Returns (Some (HttpCodeError 500 catalogURL)),
     snd (getHttpResponse E catalogURL Script.start)).
Proof.
  intros E.
  refine (proj1
    (run_discovery_failure E Script.start None (HttpCodeError 500 catalogURL)
       (snd (getHttpResponse E catalogURL Script.start)) _)).
  vm_compute. reflexivity.
Defined.

(** A catalog whose array is empty: [run] panics. *)
Lemma run_short_catalog_panics_witness :
  let E := Script.env (Script.always "var r = [];") in
  run E Script.start
  = (Panics "slice bounds out of range", requested E catalogURL Script.start).
Proof.
  intros E.
  refine (run_short_catalog_panics E Script.start
            (requested E catalogURL Script.start)
            {| StatusCode := 200; Body := "var r = [];"; ReadErr := None |}
            " [];" _ _ _).
  - vm_compute. reflexivity.
  - right. exists "var r ". split; reflexivity.
  - reflexivity.
Defined.

(** The catalog of three tuples, the second malformed: three pauses, at
    most nine requests and two writes. *)
Lemma run_cycle_bounds_witness :
  let E := Script.env (Script.site Payload.catalog3 Payload.history1) in
  slept (snd (run E Script.start)) = 3
  /\ (length (requests (snd (run E Script.start))) <= 9)%nat
  /\ (length (writes (snd (run E Script.start))) <= 2)%nat.
Proof.
  intros E.
  refine (run_cycle_bounds E Script.start
            [Payload.alpha; zeroFundNode; Payload.gamma]
            (snd (getNodeList E Script.start)) _).
  vm_compute. reflexivity.
Defined.

(** Three records written and read back. *)
Lemma getNodeList_round_trip_witness :
  let nodeList := [Payload.gamma; Payload.alpha; Payload.beta] in
  let E := Script.env (Script.always (renderCatalog "var funds " nodeList)) in
  getNodeList E Script.start
  = (Returns (nodeList, None), requested E catalogURL Script.start).
Proof.
  intros nodeList E.
  refine (getNodeList_round_trip E Script.start
            (requested E catalogURL Script.start)
            {| StatusCode := 200;
               Body := renderCatalog "var funds " nodeList;
               ReadErr := None |}
            "var funds " nodeList _ eq_refl eq_refl _ _).
  - vm_compute. reflexivity.
  - discriminate.
  - repeat constructor.
Defined.
